(** * Pole chain fault localisation: arbiter and node state machine

    A shallow embedding of the coordination arbiter (FaultDetection,
    RealSystem / SimSystem, the coordination routes) and of the per-node
    firmware state machine (utility_pole_monitor.ino), followed by the
    properties established about them. *)

From Stdlib Require Import ZArith QArith Ascii String List Bool Lia DecimalString.
From stdpp Require Import base option list gmap strings fin_maps sorting.

Close Scope Q_scope.
Local Open Scope string_scope.
Local Open Scope Z_scope.
Local Open Scope list_scope.

(** ** JavaScript values as the handlers see them *)

Module Js.

(** The values a parsed JSON body can hold at top level, plus [undefined]
    (a destructured field that is missing) and [NaN] (a failed
    [parseFloat]). *)
Inductive JsVal : Type :=
| JUndefined
| JNull
| JBool (b : bool)
| JNum (q : Q)
| JNaN
| JStr (s : string).

(** ToBoolean. *)
Definition truthy (v : JsVal) : bool :=
  match v with
  | JUndefined | JNull | JNaN => false
  | JBool b => b
  | JNum q => negb (Qeq_bool q 0)
  | JStr s => negb (bool_decide (s = ""))
  end.

(** [a || b]. *)
Definition or_else (a b : JsVal) : JsVal := if truthy a then a else b.

(** [v === 'literal']. *)
Definition strictEq (v : JsVal) (s : string) : bool :=
  match v with
  | JStr t => bool_decide (t = s)
  | _ => false
  end.

(** [v === true]. *)
Definition isTrue (v : JsVal) : bool :=
  match v with
  | JBool true => true
  | _ => false
  end.

(** Property read [o.k]: a missing property reads as [undefined]. *)
Definition get (o : gmap string JsVal) (k : string) : JsVal :=
  default JUndefined (o !! k).

(** Object spread [{ ...base, ...body }]: the properties of [body] win. *)
Definition spread (base body : gmap string JsVal) : gmap string JsVal :=
  body ∪ base.

(** The built-ins of the host that the handlers call on numbers and on the
    clock. Their exact behaviour (floating point, date formatting) is not
    part of this program; they are an interface. *)
Class Host : Type := {
  parseFloat : JsVal → JsVal;
  numberToString : Q → string;
  toISOString : Z → string
}.

(** ToPropertyKey, used when a body value indexes an object
    ([poleStates[poleId]]). *)
Definition toPropertyKey `{Host} (v : JsVal) : string :=
  match v with
  | JUndefined => "undefined"
  | JNull => "null"
  | JBool true => "true"
  | JBool false => "false"
  | JNum q => numberToString q
  | JNaN => "NaN"
  | JStr s => s
  end.

End Js.

Import Js.

Abbreviation Obj := (gmap string JsVal).

(** ** The arbiter's data model (RealSystem.js / SimSystem.js) *)

Inductive CtxType : Type := real | sim.

Inductive Status : Type := WAITING | NORMAL | GRID_DOWN | FAULT | SIM_IDLE.

#[global] Instance Status_eq_dec : EqDecision Status.
Proof. solve_decision. Defined.

(** [systemState]. [lastFaultTime] and [lastRecoveryTime] hold the clock
    reading whose ISO rendering the source stores; the inner, never used
    [poleStates: {}] property is left out. *)
Record SystemState : Type := mkSystemState {
  status : Status;
  faultLocation : option string;
  faultType : option string;
  lastFaultTime : option Z;
  lastRecoveryTime : option Z;
  recoveryStartTime : option Z;
  isolatedSegments : list string
}.

(** A queued command object: [{ ...command, id, timestamp, status }]. The
    clock reading stands for both [id] (whose random suffix is dropped) and
    [timestamp]. *)
Record Command : Type := mkCommand {
  action : JsVal;
  reason : JsVal;
  createdAt : Z;
  cmdStatus : string
}.

Inductive EventKind : Type :=
  evUpdate | evPoleUpdate | evGridDown | evFault | evClear | evNormal | evCommand.

(** [this.events]. *)
Definition events (t : CtxType) (k : EventKind) : string :=
  match t, k with
  | real, evUpdate => "systemStateUpdate"
  | real, evPoleUpdate => "poleStateUpdate"
  | real, evGridDown => "gridDown"
  | real, evFault => "faultDetected"
  | real, evClear => "faultCleared"
  | real, evNormal => "systemNormal"
  | real, evCommand => "commandSent"
  | sim, evUpdate => "simSystemStateUpdate"
  | sim, evPoleUpdate => "simPoleStateUpdate"
  | sim, evGridDown => "simGridDown"
  | sim, evFault => "simFaultDetected"
  | sim, evClear => "simFaultCleared"
  | sim, evNormal => "simSystemNormal"
  | sim, evCommand => "simCommandSent"
  end.

(** One [io.emit(name, ...)]: the event name and the segment or pole it is
    about. *)
Record Emit : Type := mkEmit { evName : string; evSubject : option string }.

(** A manager object. A pole whose snapshot is [null] has no entry in
    [poleStates]; a pole never seen has no entry in [lastUpdateTime]
    (the source initialises it to 0 and tests [> 0]). [io] records whether
    the socket server was attached, [emitted] what was broadcast. *)
Record Ctx : Type := mkCtx {
  type : CtxType;
  poleStates : gmap string (gmap string JsVal);
  pendingCommands : gmap string (list Command);
  lastUpdateTime : gmap string Z;
  systemState : SystemState;
  io : bool;
  emitted : list Emit
}.

Definition set_systemState (s : SystemState) (c : Ctx) : Ctx :=
  mkCtx (type c) (poleStates c) (pendingCommands c) (lastUpdateTime c) s (io c) (emitted c).

Definition set_poleStates (ps : gmap string (gmap string JsVal)) (c : Ctx) : Ctx :=
  mkCtx (type c) ps (pendingCommands c) (lastUpdateTime c) (systemState c) (io c) (emitted c).

Definition set_pendingCommands (pc : gmap string (list Command)) (c : Ctx) : Ctx :=
  mkCtx (type c) (poleStates c) pc (lastUpdateTime c) (systemState c) (io c) (emitted c).

Definition set_lastUpdateTime (t : gmap string Z) (c : Ctx) : Ctx :=
  mkCtx (type c) (poleStates c) (pendingCommands c) t (systemState c) (io c) (emitted c).

Definition set_io (b : bool) (c : Ctx) : Ctx :=
  mkCtx (type c) (poleStates c) (pendingCommands c) (lastUpdateTime c) (systemState c) b (emitted c).

(** [if (io) io.emit(events.k, ...)]. *)
Definition emit (k : EventKind) (subject : option string) (c : Ctx) : Ctx :=
  if io c
  then mkCtx (type c) (poleStates c) (pendingCommands c) (lastUpdateTime c)
             (systemState c) (io c) (emitted c ++ [mkEmit (events (type c) k) subject])
  else c.

Definition POLE_ORDER : list string := ["Pole1"; "Pole2"; "Pole3"; "Pole4"].
Definition RECOVERY_STABLE_MS : Z := 3000.
Definition STALE_TIMEOUT_MS : Z := 15000.

(** [this.pendingCommands[poleId] || []]. *)
Definition queueOf (c : Ctx) (poleId : string) : list Command :=
  default [] (pendingCommands c !! poleId).

(** [queueCommand(poleId, command)] at clock reading [now], for a pole id
    that names no member of [Object.prototype] ([objectPrototypeKeys]
    below): under such a name the source finds the inherited member
    instead of a queue and throws at [.push]. *)
Definition queueCommand (now : Z) (poleId : string) (command : JsVal * JsVal) (c : Ctx) : Ctx :=
  let cmdObj := mkCommand (fst command) (snd command) now "PENDING" in
  set_pendingCommands (<[poleId := queueOf c poleId ++ [cmdObj]]> (pendingCommands c)) c.

(** [getCommands(poleId)]: return the queue and leave it empty (pole ids
    as for [queueCommand]; the route checks them against the chain). *)
Definition getCommands (poleId : string) (c : Ctx) : Ctx * list Command :=
  (set_pendingCommands (<[poleId := []]> (pendingCommands c)) c, queueOf c poleId).

(** ** FaultDetection.js *)

(** [`${upstreamPoleId}-${currentPoleId}`] for a pair (upstream, current). *)
Definition segmentId (pr : string * string) : string :=
  String.append (fst pr) (String.append "-" (snd pr)).

(** The pairs [(POLE_ORDER[i - 1], POLE_ORDER[i])] visited by
    [for (let i = 1; i < POLE_ORDER.length; i++)], in that order. *)
Definition adjacentPairs (order : list string) : list (string * string) :=
  zip order (tail order).

(** [isolatedSegments.includes(s)]. *)
Definition includes (l : list string) (s : string) : bool := bool_decide (s ∈ l).

(** [!systemState.recoveryStartTime]: unset is [null], and also 0. *)
Definition timerUnset (t : option Z) : bool :=
  match t with
  | None => true
  | Some v => v =? 0
  end.

(** The value of [recoveryStartTime] after
    [if (!recoveryStartTime) recoveryStartTime = Date.now()]. *)
Definition timerStart (now : Z) (t : option Z) : Z :=
  if timerUnset t then now else default 0 t.

Definition faultCondition (currentState upstreamState : Obj) : bool :=
  strictEq (get currentState "incomingCurrent") "LOW"
  && strictEq (get upstreamState "outgoingCurrent") "HIGH".

Definition recoveryCondition (currentState upstreamState : Obj) : bool :=
  strictEq (get currentState "incomingCurrent") "HIGH"
  && strictEq (get upstreamState "outgoingCurrent") "HIGH".

(** [p1 && p1.incomingCurrent === v], with [p1 = poleStates.Pole1]. *)
Definition pole1Incoming (poleStates : gmap string (gmap string JsVal)) (v : string) : bool :=
  match poleStates !! "Pole1" with
  | Some p1 => strictEq (get p1 "incomingCurrent") v
  | None => false
  end.

Definition between (prefix : string) (pr : string * string) : string :=
  String.append prefix (String.append (fst pr) (String.append " and " (snd pr))).

Section FaultEngine.

(** The [queueCommand] callback handed to the engine, and the clock: one
    reading [now] serves the [ts] taken on entry and the [Date.now()]
    calls of the recovery rule. *)
Variable queueCommand' : string → JsVal * JsVal → Ctx → Ctx.
Variable now : Z.

(** Body of the FAULT branch. *)
Definition raiseFault (pr : string * string) (st : Ctx * bool) : Ctx * bool :=
  let ctx := fst st in
  let ss := systemState ctx in
  let faultSegment := segmentId pr in
  let ss' := mkSystemState FAULT (Some faultSegment) (Some "WIRE_CUT") (Some now)
               (lastRecoveryTime ss) None (isolatedSegments ss ++ [faultSegment]) in
  let ctx1 := set_systemState ss' ctx in
  let ctx2 := queueCommand' (fst pr)
                (JStr "DISABLE_OUTGOING_RELAY", JStr (between "Fault detected between " pr)) ctx1 in
  (emit evFault (Some faultSegment) ctx2, true).

(** Body of the RECOVERY branch. *)
Definition tryRecover (pr : string * string) (st : Ctx * bool) : Ctx * bool :=
  let ctx := fst st in
  let ss := systemState ctx in
  let faultSegment := segmentId pr in
  let start := timerStart now (recoveryStartTime ss) in
  let stableFor := now - start in
  if RECOVERY_STABLE_MS <=? stableFor then
    let remaining := filter (λ s, s ≠ faultSegment) (isolatedSegments ss) in
    let ss' :=
      if (length remaining =? 0)%nat
      then mkSystemState NORMAL None None (lastFaultTime ss) (Some now) None remaining
      else mkSystemState (status ss) (faultLocation ss) (faultType ss) (lastFaultTime ss)
             (Some now) None remaining in
    let ctx1 := set_systemState ss' ctx in
    let ctx2 := queueCommand' (fst pr)
                  (JStr "ENABLE_OUTGOING_RELAY", JStr (between "Fault cleared between " pr)) ctx1 in
    (emit evClear (Some faultSegment) ctx2, true)
  else
    (set_systemState
       (mkSystemState (status ss) (faultLocation ss) (faultType ss) (lastFaultTime ss)
          (lastRecoveryTime ss) (Some start) (isolatedSegments ss)) ctx,
     snd st).

(** One iteration of the loop over adjacent poles. *)
Definition checkPair (st : Ctx * bool) (pr : string * string) : Ctx * bool :=
  match poleStates (fst st) !! snd pr, poleStates (fst st) !! fst pr with
  | Some currentState, Some upstreamState =>
      let faultSegment := segmentId pr in
      let st1 :=
        if faultCondition currentState upstreamState
           && negb (includes (isolatedSegments (systemState (fst st))) faultSegment)
        then raiseFault pr st else st in
      if recoveryCondition currentState upstreamState
         && includes (isolatedSegments (systemState (fst st1))) faultSegment
      then tryRecover pr st1 else st1
  | _, _ => st
  end.

(** Body of the grid check: [p1.incomingCurrent === 'LOW']. *)
Definition gridDown (ctx : Ctx) : Ctx * bool :=
  let ss := systemState ctx in
  if bool_decide (status ss ≠ GRID_DOWN) then
    (emit evGridDown None
       (set_systemState
          (mkSystemState GRID_DOWN (Some "Grid") (Some "GRID_DOWN") (Some now)
             (lastRecoveryTime ss) None (isolatedSegments ss)) ctx),
     true)
  else (ctx, false).

(** Body of the grid recovery check. *)
Definition gridRestored (ctx : Ctx) : Ctx * bool :=
  let ss := systemState ctx in
  (emit evNormal None
     (set_systemState
        (mkSystemState NORMAL None None (lastFaultTime ss) (Some now)
           (recoveryStartTime ss) []) ctx),
   true).

(** [runFaultEngine(ctx, queueCommand, io)]: the context after the run and
    the returned [stateChanged]. *)
Definition runFaultEngine (ctx : Ctx) : Ctx * bool :=
  if pole1Incoming (poleStates ctx) "LOW" then gridDown ctx
  else if pole1Incoming (poleStates ctx) "HIGH"
          && bool_decide (status (systemState ctx) = GRID_DOWN)
  then gridRestored ctx
  else fold_left checkPair (adjacentPairs POLE_ORDER) (ctx, false).

End FaultEngine.

(** ** RealSystem.js / SimSystem.js: the manager's methods

    The two classes have the same methods; they differ in [type], in the
    event names and in the baseline status, all selected by [type]. *)

Definition baselineStatus (t : CtxType) : Status :=
  match t with
  | real => WAITING
  | sim => SIM_IDLE
  end.

Definition baseline (t : CtxType) : SystemState :=
  mkSystemState (baselineStatus t) None None None None None [].

(** [{ Pole1: [], Pole2: [], Pole3: [], Pole4: [] }]. *)
Definition emptyQueues : gmap string (list Command) :=
  list_to_map ((λ p, (p, [])) <$> POLE_ORDER).

(** The constructor. *)
Definition newSystem (t : CtxType) : Ctx :=
  mkCtx t ∅ emptyQueues ∅ (baseline t) false [].

(** The engine as the managers call it:
    [runFaultEngine(this, this.queueCommand.bind(this), this.io)]. *)
Definition runEngine (now : Z) (c : Ctx) : Ctx * bool :=
  runFaultEngine (queueCommand now) now c.

(** [updatePole(poleId, data)]. The writes to the persistent mirror are not
    part of the state. Under the pole id ["__proto__"] neither assignment
    stores a property: [lastUpdateTime[poleId] = Date.now()] is dropped (a
    number is no prototype), and [poleStates[poleId] = data] makes [data]
    the prototype of [poleStates], for which the entry under that name
    stands. *)
Definition updatePole (now : Z) (poleId : string) (data : Obj) (c : Ctx) : Ctx :=
  let seen := if bool_decide (poleId = "__proto__") then lastUpdateTime c
              else <[poleId := now]> (lastUpdateTime c) in
  let c1 := set_lastUpdateTime seen (set_poleStates (<[poleId := data]> (poleStates c)) c) in
  let r := runEngine now c1 in
  let c2 := emit evPoleUpdate (Some poleId) (fst r) in
  if snd r then emit evUpdate None c2 else c2.

(** [reset()]. [lastUpdateTime] is left as it is. *)
Definition reset (c : Ctx) : Ctx :=
  emit evUpdate None
    (emit evNormal None
       (mkCtx (type c) ∅ emptyQueues (lastUpdateTime c) (baseline (type c)) (io c) (emitted c))).

(** The body of the staleness loop for one pole; the accumulator carries
    [anyActive] and [anyWentStale]. *)
Definition stalePole (now : Z) (acc : Ctx * bool * bool) (poleId : string) : Ctx * bool * bool :=
  let '(c, anyActive, anyWentStale) := acc in
  let lut := default 0 (lastUpdateTime c !! poleId) in
  if 0 <? lut then
    let elapsed := now - lut in
    if STALE_TIMEOUT_MS <? elapsed then
      match poleStates c !! poleId with
      | Some _ =>
          (set_lastUpdateTime (<[poleId := 0]> (lastUpdateTime c))
             (set_poleStates (delete poleId (poleStates c)) c),
           anyActive, true)
      | None => acc
      end
    else (c, true, anyWentStale)
  else acc.

(** One firing of the [setInterval] callback of [startStalenessCheck]. *)
Definition stalenessCheck (now : Z) (c : Ctx) : Ctx :=
  let '(c1, anyActive, anyWentStale) := fold_left (stalePole now) POLE_ORDER (c, false, false) in
  if anyWentStale && negb anyActive then reset c1
  else if anyWentStale && io c1 then
    fold_left (λ acc poleId, emit evPoleUpdate (Some poleId) acc) POLE_ORDER (emit evUpdate None c1)
  else c1.

(** ** routes/coordination.js and state/systemMode.js *)

Inductive Mode : Type := IDLE | REAL | SIM.

(** The process: the operating mode and the two manager singletons. *)
Record Server : Type := mkServer {
  mode : Mode;
  RealSystem : Ctx;
  SimSystem : Ctx
}.

(** What a handler sends back. *)
Inductive Response : Type :=
| RError (code : Z) (error : string)
| RSuccess (message : option string)
| RState (state : Obj)
| RCommands (poleId : string) (commands : list Command).

Definition attachIO (c : Ctx) : Ctx := if io c then c else set_io true c.

(** [ensureManagerIO(req)]; [appIo] tells whether [req.app.get('io')] is set.
    Starting the staleness timer has no effect on the data; the timers are
    kept by [Timers.ensureManagerIO]. *)
Definition ensureManagerIO (appIo : bool) (srv : Server) : Server :=
  if appIo
  then mkServer (mode srv) (attachIO (RealSystem srv)) (attachIO (SimSystem srv))
  else srv.

(** The three mode checks shared by POST /state and POST /command. *)
Definition modeGate (currentMode : Mode) (isSimPayload : bool) : option Response :=
  match currentMode with
  | IDLE => Some (RError 403 "System is IDLE")
  | REAL => if isSimPayload then Some (RError 403 "REAL mode active") else None
  | SIM => if negb isSimPayload then Some (RError 403 "SIM mode active") else None
  end.

(** [if (req.body.code) field = req.body.code]. *)
Definition shortCode (body : Obj) (code : string) (field : JsVal) : JsVal :=
  if truthy (get body code) then get body code else field.

(** The five fields a short code can replace, in the order
    relayIn, relayOut, incomingCurrent, outgoingCurrent, voltage. *)
Definition mapShortCodes (body : Obj) (poleId : JsVal)
    (f : JsVal * JsVal * JsVal * JsVal * JsVal) : JsVal * JsVal * JsVal * JsVal * JsVal :=
  let '(relayIn, relayOut, incomingCurrent, outgoingCurrent, voltage) := f in
  if strictEq poleId "Pole1" then
    (shortCode body "par1" relayIn, shortCode body "par2" relayOut,
     shortCode body "pac1" incomingCurrent, shortCode body "pac2" outgoingCurrent,
     shortCode body "pav1" voltage)
  else if negb (strictEq poleId "Pole4") then
    let '(relayIn, relayOut, incomingCurrent, outgoingCurrent, voltage) :=
      if strictEq poleId "Pole2" then
        (shortCode body "pbr1" relayIn, shortCode body "pbr2" relayOut,
         shortCode body "pbc1" incomingCurrent, shortCode body "pbc2" outgoingCurrent,
         shortCode body "pbv1" voltage)
      else f in
    if strictEq poleId "Pole3" then
      (shortCode body "pcr1" relayIn, shortCode body "pcr2" relayOut,
       shortCode body "pcc1" incomingCurrent, shortCode body "pcc2" outgoingCurrent,
       shortCode body "pcv1" voltage)
    else (relayIn, relayOut, incomingCurrent, outgoingCurrent, voltage)
  else
    (relayIn, relayOut, shortCode body "pdc" incomingCurrent, outgoingCurrent,
     shortCode body "pdv" voltage).

Section Routes.

Context `{Host}.

(** The sanitised fields of [stateData], before the body is spread in. *)
Definition sanitized (now : Z) (body : Obj) : Obj :=
  let poleId := get body "poleId" in
  let '(relayIn, relayOut, incomingCurrent, outgoingCurrent, voltage) :=
    mapShortCodes body poleId
      (get body "relayIn", get body "relayOut", get body "incomingCurrent",
       get body "outgoingCurrent", get body "voltage") in
  let terminal := strictEq poleId "Pole4" in
  list_to_map
    [ ("poleId", poleId);
      ("incomingCurrent", or_else incomingCurrent (JStr "UNKNOWN"));
      ("outgoingCurrent", if terminal then JStr "N/A" else or_else outgoingCurrent (JStr "UNKNOWN"));
      ("relayIn", if terminal then JStr "N/A" else or_else relayIn (JStr "OFF"));
      ("relayOut", if terminal then JStr "N/A" else or_else relayOut (JStr "OFF"));
      ("nodeState", or_else (get body "nodeState") (JStr "NORMAL"));
      ("faultFlag", or_else (get body "faultFlag") (JBool false));
      ("voltage", or_else (parseFloat voltage) (JNum 0));
      ("current", or_else (parseFloat (get body "current")) (JNum 0));
      ("timestamp", or_else (get body "timestamp") (JStr (toISOString now))) ].

(** [const stateData = { poleId, ..., ...req.body }]. *)
Definition stateData (now : Z) (body : Obj) : Obj :=
  spread (sanitized now body) body.

(** POST /state. The handler's [catch] branch is not reached by any step
    modelled here (the mirror swallows its own errors), so every accepted
    publish answers with success. *)
Definition postState (appIo : bool) (now : Z) (body : Obj) (srv : Server) : Server * Response :=
  let srv := ensureManagerIO appIo srv in
  let isSimPayload := isTrue (get body "isSimulation") in
  match modeGate (mode srv) isSimPayload with
  | Some rejection => (srv, rejection)
  | None =>
      let poleId := toPropertyKey (get body "poleId") in
      let data := stateData now body in
      if truthy (get body "isSimulation")
      then (mkServer (mode srv) (RealSystem srv) (updatePole now poleId data (SimSystem srv)),
            RSuccess None)
      else (mkServer (mode srv) (updatePole now poleId data (RealSystem srv)) (SimSystem srv),
            RSuccess None)
  end.

(** POST /command (admin). *)
Definition postCommand (appIo : bool) (now : Z) (body : Obj) (srv : Server) : Server * Response :=
  let srv := ensureManagerIO appIo srv in
  let isSimPayload := isTrue (get body "isSimulation") in
  match modeGate (mode srv) isSimPayload with
  | Some rejection => (srv, rejection)
  | None =>
      let poleId := get body "poleId" in
      let action := get body "action" in
      if negb (truthy poleId) || negb (truthy action)
      then (srv, RError 400 "Missing fields")
      else
        let key := toPropertyKey poleId in
        let command := (action, or_else (get body "reason") (JStr "Manual command")) in
        let queue c := emit evCommand (Some key) (queueCommand now key command c) in
        if truthy (get body "isSimulation")
        then (mkServer (mode srv) (RealSystem srv) (queue (SimSystem srv)),
              RSuccess (Some "Command queued"))
        else (mkServer (mode srv) (queue (RealSystem srv)) (SimSystem srv),
              RSuccess (Some "Command queued"))
  end.

End Routes.

(** GET /state/:poleId; [isSim] is [req.query.sim === 'true']. *)
Definition getState (appIo : bool) (poleId : string) (isSim : bool) (srv : Server)
    : Server * Response :=
  let srv := ensureManagerIO appIo srv in
  let manager := if isSim then SimSystem srv else RealSystem srv in
  if negb (bool_decide (poleId ∈ POLE_ORDER)) then (srv, RError 400 "Invalid poleId")
  else
    match poleStates manager !! poleId with
    | None => (srv, RState (list_to_map [("poleId", JStr poleId); ("nodeState", JStr "OFFLINE")]))
    | Some state => (srv, RState state)
    end.

(** GET /commands/:poleId. *)
Definition getCommandsRoute (appIo : bool) (poleId : string) (isSim : bool) (srv : Server)
    : Server * Response :=
  let srv := ensureManagerIO appIo srv in
  if negb (bool_decide (poleId ∈ POLE_ORDER)) then (srv, RError 400 "Invalid poleId")
  else if isSim
  then let r := getCommands poleId (SimSystem srv) in
       (mkServer (mode srv) (RealSystem srv) (fst r), RCommands poleId (snd r))
  else let r := getCommands poleId (RealSystem srv) in
       (mkServer (mode srv) (fst r) (SimSystem srv), RCommands poleId (snd r)).

(** POST /reset. *)
Definition postReset (appIo : bool) (body : Obj) (srv : Server) : Server * Response :=
  let srv := ensureManagerIO appIo srv in
  if truthy (get body "isSimulation")
  then (mkServer (mode srv) (RealSystem srv) (reset (SimSystem srv)), RSuccess (Some "State reset for sim"))
  else (mkServer (mode srv) (reset (RealSystem srv)) (SimSystem srv), RSuccess (Some "State reset for real")).

(** ** The node firmware (utility_pole_monitor.ino) *)

Module Node.

Inductive NodeState : Type :=
| STATE_NORMAL
| STATE_GRID_DOWN
| STATE_FAULT_UPSTREAM
| STATE_FAULT_DOWNSTREAM
| STATE_RECOVERY.

#[global] Instance NodeState_eq_dec : EqDecision NodeState.
Proof. solve_decision. Defined.

Definition CURRENT_THRESHOLD : Z := 512.
Definition OVERVOLTAGE_THRESHOLD : Q := (260 # 1)%Q.
Definition OVERCURRENT_THRESHOLD : Q := (15 # 1)%Q.
Definition DEBOUNCE_MS : Z := 500.
Definition RECOVERY_MS : Z := 3000.

(** [unsigned long] is 32 bits wide on the target: [a - b] wraps. *)
Definition ulong_sub (a b : Z) : Z := (a - b) mod 2 ^ 32.

(** The globals of the sketch that the control loop reads or writes.
    [buzzer] is the level last written to BUZZER_PIN. *)
Record Globals : Type := mkGlobals {
  currentState : NodeState;
  incomingCurrentHigh : bool;
  outgoingCurrentHigh : bool;
  relayInEnabled : bool;
  relayOutEnabled : bool;
  measuredVoltage : Q;
  measuredCurrent : Q;
  faultFlag : bool;
  upstreamOutHigh : bool;
  upstreamDataValid : bool;
  faultStartTime : Z;
  recoveryStart : Z;
  buzzer : bool
}.

Definition set_currentState (s : NodeState) (g : Globals) : Globals :=
  mkGlobals s (incomingCurrentHigh g) (outgoingCurrentHigh g) (relayInEnabled g)
    (relayOutEnabled g) (measuredVoltage g) (measuredCurrent g) (faultFlag g)
    (upstreamOutHigh g) (upstreamDataValid g) (faultStartTime g) (recoveryStart g) (buzzer g).

Definition set_faultFlag (b : bool) (g : Globals) : Globals :=
  mkGlobals (currentState g) (incomingCurrentHigh g) (outgoingCurrentHigh g) (relayInEnabled g)
    (relayOutEnabled g) (measuredVoltage g) (measuredCurrent g) b
    (upstreamOutHigh g) (upstreamDataValid g) (faultStartTime g) (recoveryStart g) (buzzer g).

Definition set_buzzer (b : bool) (g : Globals) : Globals :=
  mkGlobals (currentState g) (incomingCurrentHigh g) (outgoingCurrentHigh g) (relayInEnabled g)
    (relayOutEnabled g) (measuredVoltage g) (measuredCurrent g) (faultFlag g)
    (upstreamOutHigh g) (upstreamDataValid g) (faultStartTime g) (recoveryStart g) b.

Definition set_faultStartTime (t : Z) (g : Globals) : Globals :=
  mkGlobals (currentState g) (incomingCurrentHigh g) (outgoingCurrentHigh g) (relayInEnabled g)
    (relayOutEnabled g) (measuredVoltage g) (measuredCurrent g) (faultFlag g)
    (upstreamOutHigh g) (upstreamDataValid g) t (recoveryStart g) (buzzer g).

Definition set_recoveryStart (t : Z) (g : Globals) : Globals :=
  mkGlobals (currentState g) (incomingCurrentHigh g) (outgoingCurrentHigh g) (relayInEnabled g)
    (relayOutEnabled g) (measuredVoltage g) (measuredCurrent g) (faultFlag g)
    (upstreamOutHigh g) (upstreamDataValid g) (faultStartTime g) t (buzzer g).

Definition set_relayIn (b : bool) (g : Globals) : Globals :=
  mkGlobals (currentState g) (incomingCurrentHigh g) (outgoingCurrentHigh g) b
    (relayOutEnabled g) (measuredVoltage g) (measuredCurrent g) (faultFlag g)
    (upstreamOutHigh g) (upstreamDataValid g) (faultStartTime g) (recoveryStart g) (buzzer g).

Definition set_relayOut (b : bool) (g : Globals) : Globals :=
  mkGlobals (currentState g) (incomingCurrentHigh g) (outgoingCurrentHigh g) (relayInEnabled g)
    b (measuredVoltage g) (measuredCurrent g) (faultFlag g)
    (upstreamOutHigh g) (upstreamDataValid g) (faultStartTime g) (recoveryStart g) (buzzer g).

(** What one pass of [loop()] reads from the pins: the two current lines
    and the RMS voltage and current ([None] when the computation gives
    NaN). *)
Record Sensors : Type := mkSensors {
  inVal : Z;
  outVal : Z;
  rmsVoltage : option Q;
  rmsCurrent : option Q
}.

Section Firmware.

(** The compile-time configuration of one node. *)
Variable POLE_NUMBER : Z.

Definition IS_TERMINAL : bool := POLE_NUMBER =? 4.

Definition readCurrentSensors (s : Sensors) (g : Globals) : Globals :=
  mkGlobals (currentState g)
    (CURRENT_THRESHOLD <? inVal s)
    (if IS_TERMINAL then false else CURRENT_THRESHOLD <? outVal s)
    (relayInEnabled g) (relayOutEnabled g) (measuredVoltage g) (measuredCurrent g)
    (faultFlag g) (upstreamOutHigh g) (upstreamDataValid g) (faultStartTime g)
    (recoveryStart g) (buzzer g).

Definition readVoltageCurrent (s : Sensors) (g : Globals) : Globals :=
  let v := if incomingCurrentHigh g then default 0%Q (rmsVoltage s) else 0%Q in
  let c := if incomingCurrentHigh g then default 0%Q (rmsCurrent s) else 0%Q in
  mkGlobals (currentState g) (incomingCurrentHigh g) (outgoingCurrentHigh g)
    (relayInEnabled g) (relayOutEnabled g) v c
    (faultFlag g) (upstreamOutHigh g) (upstreamDataValid g) (faultStartTime g)
    (recoveryStart g) (buzzer g).

Definition enableRelay (isIncoming enable : bool) (g : Globals) : Globals :=
  if isIncoming
  then (if negb (POLE_NUMBER =? 4) then set_relayIn enable g else g)
  else (if negb IS_TERMINAL then set_relayOut enable g else g).

(** [x > threshold] on the measured floats. *)
Definition exceeds (x threshold : Q) : bool := negb (Qle_bool x threshold).

(** The debounce shared by the two fault checks of the NORMAL state:
    start the timer if it is idle, trip once it has run long enough. *)
Definition debounce (now : Z) (tripped : NodeState) (g : Globals) : Globals :=
  let g := if faultStartTime g =? 0 then set_faultStartTime now g else g in
  if DEBOUNCE_MS <=? ulong_sub now (faultStartTime g)
  then set_faultStartTime 0 (set_faultFlag true (set_currentState tripped g))
  else g.

Definition handleNormalState (now : Z) (g : Globals) : Globals :=
  let g := set_buzzer false (set_faultFlag false g) in
  if (POLE_NUMBER =? 1) && negb (incomingCurrentHigh g) then
    debounce now STATE_GRID_DOWN g
  else
    let g := if POLE_NUMBER =? 1 then set_faultStartTime 0 g else g in
    if (1 <? POLE_NUMBER) && negb (incomingCurrentHigh g)
       && upstreamDataValid g && upstreamOutHigh g then
      debounce now STATE_FAULT_UPSTREAM g
    else
      let g := if 1 <? POLE_NUMBER then set_faultStartTime 0 g else g in
      if exceeds (measuredVoltage g) OVERVOLTAGE_THRESHOLD
         || exceeds (measuredCurrent g) OVERCURRENT_THRESHOLD
      then
        let g := enableRelay true false (set_faultFlag true g) in
        let g := if negb IS_TERMINAL then enableRelay false false g else g in
        set_buzzer true g
      else g.

Definition handleGridDownState (now : Z) (g : Globals) : Globals :=
  let g := set_buzzer true (set_faultFlag true g) in
  if incomingCurrentHigh g
  then set_buzzer false (set_faultFlag false (set_currentState STATE_NORMAL g))
  else g.

Definition handleFaultUpstreamState (now : Z) (g : Globals) : Globals :=
  let g := set_buzzer true (set_faultFlag true g) in
  if incomingCurrentHigh g
  then set_buzzer false (set_faultFlag false (set_currentState STATE_NORMAL g))
  else g.

Definition handleFaultDownstreamState (now : Z) (g : Globals) : Globals :=
  let g := set_faultFlag true g in
  if negb IS_TERMINAL && outgoingCurrentHigh g
  then set_recoveryStart now (set_currentState STATE_RECOVERY g)
  else g.

Definition handleRecoveryState (now : Z) (g : Globals) : Globals :=
  let stable :=
    if negb IS_TERMINAL
    then incomingCurrentHigh g && (outgoingCurrentHigh g || negb (relayOutEnabled g))
    else incomingCurrentHigh g in
  if negb stable then
    set_recoveryStart 0 (set_currentState STATE_FAULT_DOWNSTREAM g)
  else if RECOVERY_MS <=? ulong_sub now (recoveryStart g) then
    let g := set_faultFlag false (set_currentState STATE_NORMAL g) in
    let g := if negb IS_TERMINAL then enableRelay false true g else g in
    set_recoveryStart 0 (set_buzzer false g)
  else g.

Definition runStateMachine (now : Z) (g : Globals) : Globals :=
  match currentState g with
  | STATE_NORMAL => handleNormalState now g
  | STATE_GRID_DOWN => handleGridDownState now g
  | STATE_FAULT_UPSTREAM => handleFaultUpstreamState now g
  | STATE_FAULT_DOWNSTREAM => handleFaultDownstreamState now g
  | STATE_RECOVERY => handleRecoveryState now g
  end.

(** Steps 1 and 2 of [loop()]: read the sensors, run the state machine. *)
Definition controlTick (g : Globals) (tick : Z * Sensors) : Globals :=
  runStateMachine (fst tick)
    (readVoltageCurrent (snd tick) (readCurrentSensors (snd tick) g)).

(** [body.indexOf(needle) >= 0]. *)
Definition contains (needle body : string) : bool :=
  match String.index 0 needle body with
  | Some _ => true
  | None => false
  end.

(** [pollCommands()], given the HTTP status and body of the poll and the
    [millis()] read when an enable command is applied. *)
Definition pollCommands (httpStatus : Z) (body : string) (millis : Z) (g : Globals) : Globals :=
  if httpStatus =? 200 then
    let g :=
      if contains "DISABLE_OUTGOING_RELAY" body && negb IS_TERMINAL
      then set_buzzer true (set_faultFlag true
             (set_currentState STATE_FAULT_DOWNSTREAM (enableRelay false false g)))
      else g in
    if contains "ENABLE_OUTGOING_RELAY" body && negb (contains "DISABLE" body)
       && negb IS_TERMINAL
    then set_recoveryStart millis (set_currentState STATE_RECOVERY (enableRelay false true g))
    else g
  else g.

End Firmware.

End Node.

(** ** What drives a node *)

Module NodeRun.

Import Node.

(** One pass of the control steps of [loop()], or one command poll. *)
Inductive Input : Type :=
| Tick (now : Z) (sensors : Sensors)
| Poll (httpStatus : Z) (body : string) (millis : Z).

Definition step (POLE_NUMBER : Z) (g : Globals) (input : Input) : Globals :=
  match input with
  | Tick now sensors => controlTick POLE_NUMBER g (now, sensors)
  | Poll httpStatus body millis => pollCommands POLE_NUMBER httpStatus body millis g
  end.

End NodeRun.

(** ** Vocabulary of the statements *)

(** The store shows the fault mismatch on a pair: both snapshots present,
    downstream incoming LOW, upstream outgoing HIGH. *)
Definition mismatch (store : gmap string (gmap string JsVal)) (pr : string * string) : bool :=
  match store !! snd pr, store !! fst pr with
  | Some currentState, Some upstreamState => faultCondition currentState upstreamState
  | _, _ => false
  end.

(** The store shows the recovery condition on a pair: both snapshots
    present, downstream incoming HIGH, upstream outgoing HIGH. *)
Definition recovering (store : gmap string (gmap string JsVal)) (pr : string * string) : bool :=
  match store !! snd pr, store !! fst pr with
  | Some currentState, Some upstreamState => recoveryCondition currentState upstreamState
  | _, _ => false
  end.

(** The engine takes its grid-restored branch on this context. *)
Definition gridRestoring (c : Ctx) : bool :=
  pole1Incoming (poleStates c) "HIGH" && bool_decide (status (systemState c) = GRID_DOWN).

(** A frame is a clock reading and the snapshots held at that instant;
    observing it runs the engine on them. *)
Definition observe (c : Ctx) (frame : Z * gmap string (gmap string JsVal)) : Ctx :=
  fst (runEngine (fst frame) (set_poleStates (snd frame) c)).

Definition observeAll (c : Ctx) (frames : list (Z * gmap string (gmap string JsVal))) : Ctx :=
  fold_left observe frames c.

Definition isolated (c : Ctx) : list string := isolatedSegments (systemState c).

(** The command objects the engine queues. *)
Definition disableCommand (pr : string * string) (t : Z) : Command :=
  mkCommand (JStr "DISABLE_OUTGOING_RELAY") (JStr (between "Fault detected between " pr)) t "PENDING".

Definition enableCommand (pr : string * string) (t : Z) : Command :=
  mkCommand (JStr "ENABLE_OUTGOING_RELAY") (JStr (between "Fault cleared between " pr)) t "PENDING".

(** The part of a manager that requests may change. *)
Definition sameData (c c' : Ctx) : Prop :=
  poleStates c' = poleStates c ∧ pendingCommands c' = pendingCommands c
  ∧ lastUpdateTime c' = lastUpdateTime c ∧ systemState c' = systemState c.

(** The recovery timer of the context has run for the stable interval at
    [now] (an unset timer starts at [now] and has run for 0 ms). *)
Definition timerElapsed (now : Z) (c : Ctx) : bool :=
  RECOVERY_STABLE_MS <=? now - timerStart now (recoveryStartTime (systemState c)).

(** Every pair of the list that shows the mismatch is already isolated: a
    sweep over them has no fault to raise. *)
Definition settledAt (l : list (string * string)) (st : Ctx * bool) : Prop :=
  ∀ q, q ∈ l → mismatch (poleStates (fst st)) q = true → segmentId q ∈ isolated (fst st).

(** No pair of the list that could complete its recovery finds the timer run
    out at [now]. *)
Definition unhurriedAt (now : Z) (l : list (string * string)) (st : Ctx * bool) : Prop :=
  ∀ q, q ∈ l → recovering (poleStates (fst st)) q = true →
       segmentId q ∈ isolated (fst st) → timerElapsed now (fst st) = false.

(** The store is calm around a pair: the grid is not reported down and no
    other pair shows the mismatch (one fault in flight). *)
Definition calmFor (pr : string * string) (store : gmap string (gmap string JsVal)) : Prop :=
  pole1Incoming store "LOW" = false
  ∧ ∀ q, q ∈ adjacentPairs POLE_ORDER → q ≠ pr → mismatch store q = false.

(** [this.lastUpdateTime[poleId]], 0 when the pole was never seen. *)
Definition lastSeen (c : Ctx) (poleId : string) : Z :=
  default 0 (lastUpdateTime c !! poleId).

(** The staleness loop finds the pole seen, and seen more than 15 s ago. *)
Definition staleAt (now : Z) (c : Ctx) (poleId : string) : Prop :=
  0 < lastSeen c poleId ∧ STALE_TIMEOUT_MS < now - lastSeen c poleId.

(** The staleness loop finds the pole seen within the last 15 s. *)
Definition freshAt (now : Z) (c : Ctx) (poleId : string) : Prop :=
  0 < lastSeen c poleId ∧ now - lastSeen c poleId ≤ STALE_TIMEOUT_MS.

(** ** A host for the closed examples

    Plain-decimal renderings of the three built-ins: [parseFloat] reads an
    optional sign, digits and an optional fraction (no exponent part, no
    Infinity); [numberToString] prints integers and terminating decimals;
    [toISOString] prints the UTC date of a clock reading in years 0 to 9999.
    The theorems do not depend on it. *)
Module ExampleHost.

Definition decimal (z : Z) : string := DecimalString.NilZero.string_of_int (Z.to_int z).

Fixpoint zeros (n : nat) : string :=
  match n with
  | O => ""
  | S n => String "0"%char (zeros n)
  end.

(** [z] in decimal, left-padded with zeros to [width] characters. *)
Definition padded (width : nat) (z : Z) : string :=
  let s := decimal z in
  String.append (zeros (width - String.length s)) s.

Fixpoint fractionDigits (fuel : nat) (num den : Z) : string :=
  match fuel with
  | O => ""
  | S fuel =>
      if num =? 0 then ""
      else String.append (decimal (num * 10 / den))
             (fractionDigits fuel (num * 10 mod den) den)
  end.

Definition numberToString (q : Q) : string :=
  let n := Qnum (Qred q) in
  let d := Z.pos (Qden (Qred q)) in
  let sign := if n <? 0 then "-" else "" in
  let whole := Z.abs n / d in
  let rest := Z.abs n mod d in
  String.append sign
    (if rest =? 0 then decimal whole
     else String.append (decimal whole) (String.append "." (fractionDigits 20 rest d))).

Definition digitOf (a : Ascii.ascii) : option Z :=
  let n := Z.of_nat (Ascii.nat_of_ascii a) in
  if (48 <=? n) && (n <=? 57) then Some (n - 48) else None.

Definition isSpace (a : Ascii.ascii) : bool :=
  let n := Ascii.nat_of_ascii a in
  ((n =? 32) || (n =? 9) || (n =? 10) || (n =? 13))%nat.

Fixpoint skipSpaces (s : string) : string :=
  match s with
  | String a rest => if isSpace a then skipSpaces rest else s
  | EmptyString => s
  end.

(** Reads a run of digits: its value after [acc], how many were read, and
    the rest of the string. *)
Fixpoint readDigits (s : string) (acc : Z) (count : nat) : Z * nat * string :=
  match s with
  | String a rest =>
      match digitOf a with
      | Some d => readDigits rest (acc * 10 + d) (S count)
      | None => (acc, count, s)
      end
  | EmptyString => (acc, count, s)
  end.

Definition parseDecimal (s : string) : JsVal :=
  let s := skipSpaces s in
  let '(negative, s) :=
    match s with
    | String "-"%char rest => (true, rest)
    | String "+"%char rest => (false, rest)
    | _ => (false, s)
    end in
  let '(whole, wholeCount, s) := readDigits s 0 O in
  let '(num, fracCount) :=
    match s with
    | String "."%char rest =>
        let '(n, k, _) := readDigits rest whole O in (n, k)
    | _ => (whole, O)
    end in
  if ((wholeCount + fracCount)%nat =? 0)%nat then JNaN
  else
    let q := Qred (Qmake num (Z.to_pos (10 ^ Z.of_nat fracCount))) in
    JNum (if negative then Qopp q else q).

Definition parseFloat (v : JsVal) : JsVal :=
  match v with
  | JNum q => JNum q
  | JStr s => parseDecimal s
  | _ => JNaN
  end.

(** The civil date of a day count since 1970-01-01. *)
Definition civilFromDays (days : Z) : Z * Z * Z :=
  let z := days + 719468 in
  let era := z / 146097 in
  let doe := z - era * 146097 in
  let yoe := (doe - doe / 1460 + doe / 36524 - doe / 146096) / 365 in
  let doy := doe - (365 * yoe + yoe / 4 - yoe / 100) in
  let mp := (5 * doy + 2) / 153 in
  let d := doy - (153 * mp + 2) / 5 + 1 in
  let m := if mp <? 10 then mp + 3 else mp - 9 in
  let y := yoe + era * 400 + (if m <=? 2 then 1 else 0) in
  (y, m, d).

Definition toISOString (ms : Z) : string :=
  let '(y, m, d) := civilFromDays (ms / 86400000) in
  let t := ms mod 86400000 in
  String.concat ""
    [ padded 4 y; "-"; padded 2 m; "-"; padded 2 d; "T";
      padded 2 (t / 3600000); ":"; padded 2 (t / 60000 mod 60); ":";
      padded 2 (t / 1000 mod 60); "."; padded 3 (t mod 1000); "Z" ].

Definition host : Host := Build_Host parseFloat numberToString toISOString.

End ExampleHost.

(** ** Sample data for the closed examples *)

Module Samples.

(** A snapshot with the two current fields the engine reads. *)
Definition snapshot (incoming outgoing : string) : gmap string JsVal :=
  list_to_map [("incomingCurrent", JStr incoming); ("outgoingCurrent", JStr outgoing)].

(** A context of the real system holding the given snapshots and system
    state, with nothing queued. *)
Definition holding (store : list (string * gmap string JsVal)) (ss : SystemState) : Ctx :=
  set_systemState ss (set_poleStates (list_to_map store) (newSystem real)).

Definition withStatus (s : Status) (iso : list string) (timer : option Z) : SystemState :=
  mkSystemState s None None None None timer iso.

(** Grid live, wire cut between Pole1 and Pole2. *)
Definition cut12 : list (string * gmap string JsVal) :=
  [("Pole1", snapshot "HIGH" "HIGH"); ("Pole2", snapshot "LOW" "LOW")].

(** The same segment with power back at Pole2. *)
Definition healed12 : list (string * gmap string JsVal) :=
  [("Pole1", snapshot "HIGH" "HIGH"); ("Pole2", snapshot "HIGH" "LOW")].

(** Grid down at Pole1 while Pole2 also reports no incoming current. *)
Definition gridLost : list (string * gmap string JsVal) :=
  [("Pole1", snapshot "LOW" "HIGH"); ("Pole2", snapshot "LOW" "LOW")].

(** Two wire cuts at once, then both healed. *)
Definition cut12and23 : list (string * gmap string JsVal) :=
  [("Pole1", snapshot "HIGH" "HIGH"); ("Pole2", snapshot "LOW" "HIGH");
   ("Pole3", snapshot "LOW" "LOW")].

Definition healed12and23 : list (string * gmap string JsVal) :=
  [("Pole1", snapshot "HIGH" "HIGH"); ("Pole2", snapshot "HIGH" "HIGH");
   ("Pole3", snapshot "HIGH" "LOW")].

End Samples.

Module StaleSamples.

(** Pole1 and Pole2 reported a wire cut around 1000 and then fell silent. *)
Definition silentAfterFault : Ctx :=
  updatePole 1000 "Pole2" (Samples.snapshot "LOW" "LOW")
    (updatePole 900 "Pole1" (Samples.snapshot "HIGH" "HIGH") (newSystem real)).

(** No pole ever reported; an operator queued one command for Pole2. *)
Definition neverSeen : Ctx :=
  queueCommand 1000 "Pole2" (JStr "DISABLE_OUTGOING_RELAY", JStr "Manual command")
    (newSystem real).

End StaleSamples.

Module RouteSamples.

(** Both managers as constructed, in the given mode. *)
Definition fresh (m : Mode) : Server := mkServer m (newSystem real) (newSystem sim).

(** A simulator publish for Pole2. *)
Definition simPublish : gmap string JsVal :=
  list_to_map [("poleId", JStr "Pole2"); ("isSimulation", JBool true);
               ("incomingCurrent", JStr "HIGH"); ("outgoingCurrent", JStr "HIGH")].

(** A publish naming a pole that is not on the chain. *)
Definition strayPublish : gmap string JsVal :=
  list_to_map [("poleId", JStr "Pole9"); ("incomingCurrent", JStr "LOW")].

(** An admin command for a pole that is not on the chain. *)
Definition strayCommand : gmap string JsVal :=
  list_to_map [("poleId", JStr "Pole9"); ("action", JStr "DISABLE_OUTGOING_RELAY")].

(** A terminal-node publish carrying canonical fields it should not have. *)
Definition overridingPublish : gmap string JsVal :=
  list_to_map [("poleId", JStr "Pole4"); ("pdc", JStr "HIGH");
               ("outgoingCurrent", JStr "HIGH"); ("nodeState", JStr "BANANA")].

(** A publish whose simulation flag is truthy but not [true]. *)
Definition looseFlagPublish : gmap string JsVal :=
  list_to_map [("poleId", JStr "Pole2"); ("isSimulation", JStr "yes");
               ("incomingCurrent", JStr "HIGH")].

End RouteSamples.

Module NodeSamples.

Import Node.

(** The globals at the end of [setup()] on a powered node: NORMAL, both
    relays enabled, nothing measured yet. *)
Definition booted : Globals :=
  mkGlobals STATE_NORMAL true true true true (0 # 1)%Q (0 # 1)%Q false false false 0 0 false.

Definition powered : Sensors := mkSensors 800 800 (Some (230 # 1)%Q) (Some (1 # 1)%Q).

Definition unpowered : Sensors := mkSensors 0 0 (Some (0 # 1)%Q) (Some (0 # 1)%Q).

(** Poll responses; the firmware only searches them for the action names. *)
Definition enableBody : string := "{poleId:Pole2,commands:[{action:ENABLE_OUTGOING_RELAY}]}".


End NodeSamples.

(** ** RealSystem.js / SimSystem.js: the summary *)

(** [a ?? b]. *)
Definition nullish_else (a b : JsVal) : JsVal :=
  match a with
  | JUndefined | JNull => b
  | _ => a
  end.

(** The entry of [summary.poles] for one pole: [s ? { ... } : { nodeState:
    'OFFLINE' }]. A stored snapshot is an object, hence truthy. *)
Definition poleSummary (s : option Obj) : Obj :=
  match s with
  | Some s =>
      list_to_map
        [ ("nodeState", or_else (get s "nodeState") (JStr "UNKNOWN"));
          ("incomingCurrent", or_else (get s "incomingCurrent") (JStr "UNKNOWN"));
          ("outgoingCurrent", nullish_else (get s "outgoingCurrent") (JStr "N/A"));
          ("relayIn", or_else (get s "relayIn") (JStr "UNKNOWN"));
          ("relayOut", nullish_else (get s "relayOut") (JStr "N/A"));
          ("voltage", or_else (get s "voltage") (JNum 0));
          ("current", or_else (get s "current") (JNum 0));
          ("faultFlag", or_else (get s "faultFlag") (JBool false));
          ("lastUpdate", get s "timestamp") ]
  | None => list_to_map [("nodeState", JStr "OFFLINE")]
  end.

(** What [getSummary()] returns. *)
Record Summary : Type := mkSummary {
  summaryStatus : Status;
  summaryFaultLocation : option string;
  summaryFaultType : option string;
  summaryLastFaultTime : option Z;
  summaryLastRecoveryTime : option Z;
  summaryIsolatedSegments : list string;
  summaryPoles : gmap string (gmap string JsVal)
}.

(** [getSummary()]. *)
Definition getSummary (c : Ctx) : Summary :=
  let ss := systemState c in
  mkSummary (status ss) (faultLocation ss) (faultType ss) (lastFaultTime ss)
    (lastRecoveryTime ss) (isolatedSegments ss)
    (fold_left (λ poles poleId, <[poleId := poleSummary (poleStates c !! poleId)]> poles)
       POLE_ORDER ∅).

(** GET /system. *)
Definition getSystem (appIo : bool) (isSim : bool) (srv : Server) : Server * Summary :=
  let srv := ensureManagerIO appIo srv in
  let manager := if isSim then SimSystem srv else RealSystem srv in
  (srv, getSummary manager).

(** ** state/systemMode.js and routes/settings.js *)

(** [['IDLE', 'REAL', 'SIM'].includes(mode)], with the mode it names. *)
Definition parseMode (mode : JsVal) : option Mode :=
  match mode with
  | JStr s =>
      if bool_decide (s = "IDLE") then Some IDLE
      else if bool_decide (s = "REAL") then Some REAL
      else if bool_decide (s = "SIM") then Some SIM
      else None
  | _ => None
  end.

(** [setMode(mode)]: the module variable afterwards and the returned flag. *)
Definition setMode (mode : JsVal) (systemMode : Mode) : Mode * bool :=
  match parseMode mode with
  | Some m => (m, true)
  | None => (systemMode, false)
  end.

Inductive ModeResponse : Type :=
| ModeSet (mode : Mode)
| ModeInvalid (code : Z) (error : string).

(** POST /mode. Wiping the simulator's data in the persistent mirror on
    the way from SIM to IDLE is not part of the state. *)
Definition postMode (body : Obj) (srv : Server) : Server * ModeResponse :=
  let r := setMode (get body "mode") (mode srv) in
  if snd r
  then (mkServer (fst r) (RealSystem srv) (SimSystem srv), ModeSet (fst r))
  else (srv, ModeInvalid 400 "Invalid mode. Use REAL, SIM, or IDLE.").

(** ** routes/poles.js: telemetry of the real hardware *)

Definition VALID_POLES : list string := ["Pole1"; "Pole2"; "Pole3"; "Pole4"].

(** [VALID_POLES.includes(poleId)]: only a string can be a member. *)
Definition validPole (poleId : JsVal) : bool :=
  match poleId with
  | JStr s => bool_decide (s ∈ VALID_POLES)
  | _ => false
  end.

Inductive DataResponse : Type :=
| DataError (code : Z) (error : string)
| DataSuccess (flow : string).

Section Poles.

Context `{Host}.

(** [Number(s)] for a string, as the comparison [voltage > 50] converts
    its left operand: a number or [NaN]. *)
Variable stringToNumber : string → JsVal.

(** [v > n] for a number literal [n]. *)
Definition greaterThan (v : JsVal) (n : Q) : bool :=
  let number :=
    match v with
    | JUndefined => JNaN
    | JNull => JNum 0
    | JBool b => JNum (if b then 1 else 0)
    | JStr s => stringToNumber s
    | _ => v
    end in
  match number with
  | JNum q => negb (Qle_bool q n)
  | _ => false
  end.

(** The [record] of the real-hardware flow. *)
Definition dataRecord (now : Z) (body : Obj) : Obj :=
  list_to_map
    [ ("poleId", get body "poleId");
      ("voltage", parseFloat (get body "voltage"));
      ("current", parseFloat (get body "current"));
      ("status", get body "status");
      ("timestamp", or_else (get body "timestamp") (JStr (toISOString now)));
      ("alert", JBool false) ].

(** [{ ...record, incomingCurrent: voltage > 50 ? 'HIGH' : 'LOW',
    nodeState: 'NORMAL' }], the snapshot handed to RealSystem. *)
Definition dataSnapshot (now : Z) (body : Obj) : Obj :=
  <["nodeState" := JStr "NORMAL"]>
    (<["incomingCurrent" :=
         JStr (if greaterThan (get body "voltage") (50 # 1)%Q then "HIGH" else "LOW")]>
       (dataRecord now body)).

(** POST /data. The history written to the persistent mirror and the
    [simPoleData] broadcast on the application socket are not part of the
    managers' state. *)
Definition postData (now : Z) (body : Obj) (srv : Server) : Server * DataResponse :=
  let isSimPayload := isTrue (get body "isSimulation") in
  match mode srv with
  | IDLE => (srv, DataError 403 "System is IDLE")
  | currentMode =>
      if match currentMode with SIM => negb isSimPayload | _ => false end
      then (srv, DataError 403 "SIM mode active")
      else
        let poleId := get body "poleId" in
        if negb (truthy poleId) || negb (validPole poleId)
        then (srv, DataError 400 "Invalid Pole ID")
        else if negb (truthy (get body "isSimulation"))
        then (mkServer (mode srv)
                (updatePole now (toPropertyKey poleId) (dataSnapshot now body) (RealSystem srv))
                (SimSystem srv),
              DataSuccess "REAL")
        else (srv, DataSuccess "SIM_LOGGING_ONLY")
  end.

End Poles.

(** ** Vocabulary of the further statements *)

(** A command as the engine queues it at [now]: one of the two outgoing
    relay actions, stamped [now], pending. *)
Definition relayCommand (now : Z) (cmd : Command) : Prop :=
  (action cmd = JStr "DISABLE_OUTGOING_RELAY" ∨ action cmd = JStr "ENABLE_OUTGOING_RELAY")
  ∧ createdAt cmd = now ∧ cmdStatus cmd = "PENDING".

(** The system state is coherent: no segment is isolated twice, every
    isolated segment is a segment of the chain, segments are isolated only
    under status FAULT or GRID_DOWN, and status FAULT has one isolated. *)
Definition coherent (c : Ctx) : Prop :=
  NoDup (isolated c)
  ∧ (∀ s, s ∈ isolated c → s ∈ segmentId <$> adjacentPairs POLE_ORDER)
  ∧ (isolated c ≠ [] → status (systemState c) = FAULT ∨ status (systemState c) = GRID_DOWN)
  ∧ (status (systemState c) = FAULT → isolated c ≠ []).

(** The staleness loop clears the pole: it is stale and still has a
    snapshot. *)
Definition expired (now : Z) (c : Ctx) (poleId : string) : Prop :=
  staleAt now c poleId ∧ is_Some (poleStates c !! poleId).

(** ** The node firmware: boot and cloud communication *)

Module NodeCloud.

Import Node NodeRun.

(** The globals as initialised at their declarations. *)
Definition initial : Globals :=
  mkGlobals STATE_NORMAL false false false false (0 # 1)%Q (0 # 1)%Q false false false 0 0 false.

(** The double-quote character of the JSON text. *)
Definition quote : string := String (ascii_of_nat 34) "".

Section Firmware.

Variable POLE_NUMBER : Z.

Definition POLE_ID : string :=
  if POLE_NUMBER =? 1 then "Pole1"
  else if POLE_NUMBER =? 2 then "Pole2"
  else if POLE_NUMBER =? 3 then "Pole3"
  else if POLE_NUMBER =? 4 then "Pole4"
  else "".

(** [setup()], given what the sensors show after the boot delay: the relay
    pins are driven low, then enabled as the pole's position allows. *)
Definition setup (s : Sensors) : Globals :=
  let g := set_buzzer false (enableRelay POLE_NUMBER false false
                               (enableRelay POLE_NUMBER true false initial)) in
  let g := readCurrentSensors POLE_NUMBER s g in
  if POLE_NUMBER =? 1 then
    if incomingCurrentHigh g then
      let g := enableRelay POLE_NUMBER true true g in
      let g := if negb (IS_TERMINAL POLE_NUMBER) then enableRelay POLE_NUMBER false true g else g in
      set_currentState STATE_NORMAL g
    else set_currentState STATE_GRID_DOWN g
  else
    let g := enableRelay POLE_NUMBER true true (set_currentState STATE_NORMAL g) in
    if negb (IS_TERMINAL POLE_NUMBER) then enableRelay POLE_NUMBER false true g else g.

Definition set_upstream (valid high : bool) (g : Globals) : Globals :=
  mkGlobals (currentState g) (incomingCurrentHigh g) (outgoingCurrentHigh g) (relayInEnabled g)
    (relayOutEnabled g) (measuredVoltage g) (measuredCurrent g) (faultFlag g)
    high valid (faultStartTime g) (recoveryStart g) (buzzer g).

(** [pollUpstreamState()], given the HTTP status and body of the answer to
    GET /state/UPSTREAM_ID. *)
Definition pollUpstreamState (httpStatus : Z) (body : string) (g : Globals) : Globals :=
  if 1 <? POLE_NUMBER then
    if httpStatus =? 200 then
      match String.index 0 (quote ++ "outgoingCurrent" ++ quote) body with
      | Some idx =>
          set_upstream true
            match String.index idx "HIGH" body with
            | Some high => (idx <? high)%nat && (high <? idx + 30)%nat
            | None => false
            end g
      | None => g
      end
    else set_upstream false (upstreamOutHigh g) g
  else g.

(** The name [publishState()] sends for the state. *)
Definition stateStr (s : NodeState) : string :=
  match s with
  | STATE_NORMAL => "NORMAL"
  | STATE_GRID_DOWN => "GRID_DOWN"
  | STATE_FAULT_UPSTREAM => "FAULT_UPSTREAM"
  | STATE_FAULT_DOWNSTREAM => "FAULT_DOWNSTREAM"
  | STATE_RECOVERY => "RECOVERY"
  end.

(** The short-code keys [(kRIn, kROut, kCIn, kCOut, kVIn)] of the pole. *)
Definition shortKeys : string * string * string * string * string :=
  if POLE_NUMBER =? 1 then ("par1", "par2", "pac1", "pac2", "pav1")
  else if POLE_NUMBER =? 2 then ("pbr1", "pbr2", "pbc1", "pbc2", "pbv1")
  else if POLE_NUMBER =? 3 then ("pcr1", "pcr2", "pcc1", "pcc2", "pcv1")
  else ("", "", "pdc", "", "pdv").

(** The number that [String(x, 2)] writes into the JSON text. *)
Variable twoDecimals : Q → Q.

Definition onOff (b : bool) : JsVal := JStr (if b then "ON" else "OFF").
Definition highLow (b : bool) : JsVal := JStr (if b then "HIGH" else "LOW").

(** The members of the JSON object [publishState()] builds, in the order
    it appends them. *)
Definition publishMembers (g : Globals) : list (string * JsVal) :=
  let '(kRIn, kROut, kCIn, kCOut, kVIn) := shortKeys in
  [("poleId", JStr POLE_ID)]
  ++ (if negb (POLE_NUMBER =? 4) then [(kRIn, onOff (relayInEnabled g))] else [])
  ++ [(kCIn, highLow (incomingCurrentHigh g)); (kVIn, JNum (twoDecimals (measuredVoltage g)))]
  ++ (if negb (IS_TERMINAL POLE_NUMBER) then
        let kVOut := if POLE_NUMBER =? 1 then "pav2"
                     else if POLE_NUMBER =? 2 then "pbv2" else "pcv2" in
        let vOut := if relayOutEnabled g then measuredVoltage g else (0 # 1)%Q in
        [(kROut, onOff (relayOutEnabled g)); (kCOut, highLow (outgoingCurrentHigh g));
         (kVOut, JNum (twoDecimals vOut))]
      else [])
  ++ [("nodeState", JStr (stateStr (currentState g))); ("faultFlag", JBool (faultFlag g));
      ("current", JNum (twoDecimals (measuredCurrent g)))].

(** The request body as the server parses it: the last member of a name
    wins. *)
Definition publishBody (g : Globals) : Obj :=
  fold_left (λ body member, <[fst member := snd member]> body) (publishMembers g) ∅.

(** What can happen to a node between two passes of [loop()]. *)
Inductive Event : Type :=
| Local (input : Input)
| UpstreamPoll (httpStatus : Z) (body : string).

Definition run (g : Globals) (e : Event) : Globals :=
  match e with
  | Local input => step POLE_NUMBER g input
  | UpstreamPoll httpStatus body => pollUpstreamState httpStatus body g
  end.

End Firmware.

End NodeCloud.

(** ** simulator.js: the cascading power simulator *)

Module Simulator.

(** [parseInt(s)] without a radix: white space, a sign, then decimal
    digits, or hexadecimal ones after [0x]; [None] is [NaN]. White space is
    the ASCII part of what the language skips. *)
Definition hexDigitOf (a : Ascii.ascii) : option Z :=
  let n := Z.of_nat (Ascii.nat_of_ascii a) in
  if (48 <=? n) && (n <=? 57) then Some (n - 48)
  else if (97 <=? n) && (n <=? 102) then Some (n - 87)
  else if (65 <=? n) && (n <=? 70) then Some (n - 55)
  else None.

Fixpoint readHexDigits (s : string) (acc : Z) (count : nat) : Z * nat :=
  match s with
  | String a rest =>
      match hexDigitOf a with
      | Some d => readHexDigits rest (acc * 16 + d) (S count)
      | None => (acc, count)
      end
  | EmptyString => (acc, count)
  end.

Definition parseInt (s : string) : option Z :=
  let s := ExampleHost.skipSpaces s in
  let '(negative, s) :=
    match s with
    | String "-"%char rest => (true, rest)
    | String "+"%char rest => (false, rest)
    | _ => (false, s)
    end in
  let '(n, count) :=
    match s with
    | String "0"%char (String "x"%char rest) | String "0"%char (String "X"%char rest) =>
        readHexDigits rest 0 O
    | _ => let '(n, count, _) := ExampleHost.readDigits s 0 O in (n, count)
    end in
  if (count =? 0)%nat then None else Some (if negative then - n else n).

(** [s.slice(4)]. *)
Definition slice4 (s : string) : string := String.substring 4 (String.length s - 4) s.

(** [`Pole${parseInt(poleId.slice(4)) - 1}`]. *)
Definition upstreamId (poleId : string) : string :=
  String.append "Pole"
    match parseInt (slice4 poleId) with
    | Some n => ExampleHost.decimal (n - 1)
    | None => "NaN"
    end.

(** [physics]. A wire without an entry in [wireCuts] reads as not cut. *)
Record Physics : Type := mkPhysics {
  gridPower : bool;
  wireCuts : gmap string bool
}.

(** An entry of [poles]. *)
Record Pole : Type := mkPole {
  baseVoltage : Q;
  baseCurrent : Q;
  relayIn : string;
  relayOut : string
}.

(** An entry of [readings]. *)
Record Reading : Type := mkReading {
  inCurrent : string;
  outCurrent : string;
  voltage : Q;
  current : Q;
  state : string
}.

(** The module's variables. *)
Record Sim : Type := mkSim {
  physics : Physics;
  poles : gmap string Pole;
  readings : gmap string Reading;
  tick : Z;
  activeFault : option string
}.

Definition initial : Sim :=
  mkSim (mkPhysics true
           (list_to_map [("Pole1-Pole2", false); ("Pole2-Pole3", false); ("Pole3-Pole4", false)]))
    (list_to_map
       [ ("Pole1", mkPole (230 # 1) (5 # 1) "ON" "ON");
         ("Pole2", mkPole (228 # 1) (62 # 10) "ON" "ON");
         ("Pole3", mkPole (225 # 1) (35 # 10) "ON" "ON");
         ("Pole4", mkPole (232 # 1) (78 # 10) "N/A" "N/A") ])
    (list_to_map
       [ ("Pole1", mkReading "LOW" "LOW" (0 # 1) (0 # 1) "NORMAL");
         ("Pole2", mkReading "LOW" "LOW" (0 # 1) (0 # 1) "NORMAL");
         ("Pole3", mkReading "LOW" "LOW" (0 # 1) (0 # 1) "NORMAL");
         ("Pole4", mkReading "LOW" "N/A" (0 # 1) (0 # 1) "NORMAL") ])
    0 None.

Definition set_physics (ph : Physics) (sim : Sim) : Sim :=
  mkSim ph (poles sim) (readings sim) (tick sim) (activeFault sim).

Definition set_poles (ps : gmap string Pole) (sim : Sim) : Sim :=
  mkSim (physics sim) ps (readings sim) (tick sim) (activeFault sim).

Definition set_readings (rs : gmap string Reading) (sim : Sim) : Sim :=
  mkSim (physics sim) (poles sim) rs (tick sim) (activeFault sim).

Definition set_activeFault (f : option string) (sim : Sim) : Sim :=
  mkSim (physics sim) (poles sim) (readings sim) (tick sim) f.

(** [physics.wireCuts[key]] as a condition. *)
Definition isCut (sim : Sim) (key : string) : bool :=
  default false (wireCuts (physics sim) !! key).

Definition highLow (b : bool) : string := if b then "HIGH" else "LOW".

(** [processPole(poleId, inputPowerAvailable, downstreamWire)]. [sample]
    holds the values of the two noisy expressions (base value plus random
    noise, rounded) in this call. [None] is the TypeError of reading a
    property of a missing entry. *)
Definition processPole (poleId : string) (inputPowerAvailable : bool) (sample : Q * Q)
    (sim : Sim) : option Sim :=
  p ← poles sim !! poleId;
  r ← readings sim !! poleId;
  let isTerminal := bool_decide (poleId = "Pole4") in
  let hasRelayOn := bool_decide (relayIn p = "ON") || isTerminal in
  let hasInputPower := inputPowerAvailable && hasRelayOn in
  let hasOutputPower :=
    if negb isTerminal then hasInputPower && bool_decide (relayOut p = "ON")
    else hasInputPower in
  let r :=
    mkReading (highLow hasInputPower)
      (if negb isTerminal then highLow hasOutputPower else outCurrent r)
      (if hasInputPower then fst sample else (0 # 1)%Q)
      (if hasInputPower then snd sample else (0 # 1)%Q)
      "NORMAL" in
  let state1 :=
    if bool_decide (poleId = "Pole1") && negb hasInputPower
    then (if negb (gridPower (physics sim)) then "GRID_DOWN" else state r)
    else state r in
  state2 ←
    (if negb (bool_decide (poleId = "Pole1")) && negb hasInputPower then
       let wireKey := String.append (upstreamId poleId) (String.append "-" poleId) in
       up ← <[poleId := r]> (readings sim) !! upstreamId poleId;
       let upstreamPowering := bool_decide (outCurrent up = "HIGH") in
       Some (if isCut sim wireKey && upstreamPowering then "FAULT_UPSTREAM"
             else if negb upstreamPowering then "NORMAL" else state1)
     else Some state1);
  let state3 :=
    if negb (gridPower (physics sim)) then
      let s := if bool_decide (inCurrent r = "LOW") then "GRID_DOWN" else state2 in
      if negb (bool_decide (poleId = "Pole1")) then "NORMAL" else s
    else state2 in
  Some (set_readings
          (<[poleId := mkReading (inCurrent r) (outCurrent r) (voltage r) (current r) state3]>
             (readings sim)) sim).

(** [readings[poleId].outCurrent === 'HIGH' && !physics.wireCuts[wire]]. *)
Definition powerAfter (poleId wire : string) (sim : Sim) : option bool :=
  r ← readings sim !! poleId;
  Some (bool_decide (outCurrent r = "HIGH") && negb (isCut sim wire)).

(** [calculatePhysics()]; [samples] gives the noisy values of each pole. *)
Definition calculatePhysics (samples : string → Q * Q) (sim : Sim) : option Sim :=
  sim ← processPole "Pole1" (gridPower (physics sim)) (samples "Pole1") sim;
  powerAvailable ← powerAfter "Pole1" "Pole1-Pole2" sim;
  sim ← processPole "Pole2" powerAvailable (samples "Pole2") sim;
  powerAvailable ← powerAfter "Pole2" "Pole2-Pole3" sim;
  sim ← processPole "Pole3" powerAvailable (samples "Pole3") sim;
  powerAvailable ← powerAfter "Pole3" "Pole3-Pole4" sim;
  processPole "Pole4" powerAvailable (samples "Pole4") sim.

(** The short-code keys [(kRIn, kROut, kCIn, kCOut, kVIn, kVOut)] of
    [sendCoordinationState]; a key left [undefined] names the property
    "undefined". *)
Definition shortKeys (poleId : string) : string * string * string * string * string * string :=
  if bool_decide (poleId = "Pole1") then ("par1", "par2", "pac1", "pac2", "pav1", "pav2")
  else if bool_decide (poleId = "Pole2") then ("pbr1", "pbr2", "pbc1", "pbc2", "pbv1", "pbv2")
  else if bool_decide (poleId = "Pole3") then ("pcr1", "pcr2", "pcc1", "pcc2", "pcv1", "pcv2")
  else ("undefined", "undefined", "pdc", "undefined", "pdv", "undefined").

Section Sending.

Context `{Host}.

(** The body [sendCoordinationState(poleId)] posts to /api/coordination/state. *)
Definition coordinationBody (now : Z) (poleId : string) (sim : Sim) : option Obj :=
  p ← poles sim !! poleId;
  r ← readings sim !! poleId;
  let '(kRIn, kROut, kCIn, kCOut, kVIn, kVOut) := shortKeys poleId in
  let body : Obj :=
    <["isSimulation" := JBool true]>
      (<[kVIn := JNum (voltage r)]>
         (<[kCIn := JStr (inCurrent r)]>
            (<[kCIn := JStr (inCurrent r)]>
               (list_to_map
                  [ ("poleId", JStr poleId);
                    ("nodeState", JStr (state r));
                    ("faultFlag", JBool (negb (bool_decide (state r = "NORMAL"))));
                    ("current", JNum (current r));
                    ("timestamp", JStr (toISOString now)) ])))) in
  Some
    (if negb (bool_decide (poleId = "Pole4")) then
       <[kVOut := JNum (if bool_decide (relayOut p = "ON") then voltage r else (0 # 1)%Q)]>
         (<[kCOut := JStr (outCurrent r)]>
            (<[kROut := JStr (relayOut p)]> (<[kRIn := JStr (relayIn p)]> body)))
     else body).

End Sending.

(** One command of the answer to GET /commands, executed on the pole. *)
Definition executeCommand (p : Pole) (cmd : Command) : Pole :=
  let p := if strictEq (action cmd) "DISABLE_OUTGOING_RELAY"
           then mkPole (baseVoltage p) (baseCurrent p) (relayIn p) "OFF" else p in
  let p := if strictEq (action cmd) "ENABLE_OUTGOING_RELAY"
           then mkPole (baseVoltage p) (baseCurrent p) (relayIn p) "ON" else p in
  let p := if strictEq (action cmd) "DISABLE_INCOMING_RELAY"
           then mkPole (baseVoltage p) (baseCurrent p) "OFF" (relayOut p) else p in
  if strictEq (action cmd) "ENABLE_INCOMING_RELAY"
  then mkPole (baseVoltage p) (baseCurrent p) "ON" (relayOut p) else p.

(** The command loop of [sendCoordinationState(poleId)]. *)
Definition executeCommands (poleId : string) (commands : list Command) (sim : Sim) : option Sim :=
  p ← poles sim !! poleId;
  Some (set_poles (<[poleId := fold_left executeCommand commands p]> (poles sim)) sim).

(** [simulateWireCut(idx)]. *)
Definition simulateWireCut (idx : Z) (sim : Sim) : Sim :=
  let key := String.append "Pole"
               (String.append (ExampleHost.decimal idx)
                  (String.append "-Pole" (ExampleHost.decimal (idx + 1)))) in
  set_activeFault (Some (String.append "CUT " key))
    (set_physics (mkPhysics (gridPower (physics sim)) (<[key := true]> (wireCuts (physics sim))))
       sim).

(** [simulateGridDown()]. *)
Definition simulateGridDown (sim : Sim) : Sim :=
  set_activeFault (Some "GRID_DOWN")
    (set_physics (mkPhysics false (wireCuts (physics sim))) sim).

(** [simulateRecovery()], on the simulator's own variables; the request it
    sends to POST /reset is the server's business. *)
Definition simulateRecovery (sim : Sim) : Sim :=
  let wires :=
    <["Pole3-Pole4" := false]>
      (<["Pole2-Pole3" := false]> (<["Pole1-Pole2" := false]> (wireCuts (physics sim)))) in
  let repaired (p : Pole) :=
    mkPole (baseVoltage p) (baseCurrent p) "ON"
      (if negb (bool_decide (relayOut p = "N/A")) then "ON" else relayOut p) in
  set_activeFault None
    (set_poles (repaired <$> poles sim) (set_physics (mkPhysics true wires) sim)).

(** The listener for commands sent by the parent process. *)
Definition onCommand (action : string) (sim : Sim) : Sim :=
  if bool_decide (action = "GRID_DOWN") then simulateGridDown sim
  else if bool_decide (action = "WIRE_CUT_1") then simulateWireCut 1 sim
  else if bool_decide (action = "WIRE_CUT_2") then simulateWireCut 2 sim
  else if bool_decide (action = "WIRE_CUT_3") then simulateWireCut 3 sim
  else if bool_decide (action = "RECOVER") then simulateRecovery sim
  else sim.

End Simulator.

(** ** Vocabulary of the statements about the simulator *)

Module SimulatorTerms.

Import Simulator.

(** The four poles have their entries, as in the initial state. *)
Definition wellFormed (sim : Sim) : Prop :=
  ∀ p, p ∈ POLE_ORDER → is_Some (poles sim !! p) ∧ is_Some (readings sim !! p).

(** The readings show incoming (outgoing) current at the pole. *)
Definition incoming (sim : Sim) (poleId : string) : bool :=
  bool_decide (inCurrent <$> readings sim !! poleId = Some "HIGH").

Definition outgoing (sim : Sim) (poleId : string) : bool :=
  bool_decide (outCurrent <$> readings sim !! poleId = Some "HIGH").

Definition relayInOn (sim : Sim) (poleId : string) : bool :=
  bool_decide (relayIn <$> poles sim !! poleId = Some "ON").

Definition relayOutOn (sim : Sim) (poleId : string) : bool :=
  bool_decide (relayOut <$> poles sim !! poleId = Some "ON").

Definition reported (sim : Sim) (poleId : string) : option string :=
  state <$> readings sim !! poleId.

(** The state [processPole] settles on for a pole, given whether it has
    input power and whether its upstream neighbour shows outgoing current. *)
Definition settledState (sim : Sim) (poleId : string) (hasInputPower upstreamPowering : bool)
    : string :=
  if negb (gridPower (physics sim)) then
    if bool_decide (poleId = "Pole1")
    then (if hasInputPower then "NORMAL" else "GRID_DOWN")
    else "NORMAL"
  else if negb (bool_decide (poleId = "Pole1")) && negb hasInputPower
          && isCut sim (String.append (upstreamId poleId) (String.append "-" poleId))
          && upstreamPowering
       then "FAULT_UPSTREAM" else "NORMAL".

(** The snapshots the arbiter holds once the four poles have published
    the readings of one pass. *)
Definition published `{Host} (now : Z) (sim : Sim) : gmap string (gmap string JsVal) :=
  list_to_map
    (omap (λ poleId, (λ body, (poleId, stateData now body)) <$> coordinationBody now poleId sim)
       POLE_ORDER).

End SimulatorTerms.

(** ** Sample data for the further closed examples *)

Module MoreSamples.

Import Node NodeRun NodeCloud.

(** The segment Pole1-Pole2 isolated while the wire is still cut. *)
Definition isolated12 : Ctx :=
  Samples.holding Samples.cut12 (Samples.withStatus FAULT ["Pole1-Pole2"] None).

(** Only Pole3 has published. *)
Definition lonePole3 : Ctx :=
  Samples.holding [("Pole3", Samples.snapshot "LOW" "LOW")] (baseline real).

(** Grid reported down earlier with Pole2-Pole3 isolated; Pole1 now shows
    incoming current. *)
Definition gridBack : Ctx :=
  Samples.holding Samples.healed12 (Samples.withStatus GRID_DOWN ["Pole2-Pole3"] None).

(** Pole2 published at 1000. *)
Definition seenAt1000 : Ctx :=
  updatePole 1000 "Pole2" (Samples.snapshot "HIGH" "HIGH") (newSystem real).

(** An admin command for Pole2. *)
Definition relayCommandBody : gmap string JsVal :=
  list_to_map [("poleId", JStr "Pole2"); ("action", JStr "DISABLE_OUTGOING_RELAY")].

(** Telemetry of Pole1 as POST /data receives it. *)
Definition telemetry : gmap string JsVal :=
  list_to_map [("poleId", JStr "Pole1"); ("voltage", JNum (230 # 1)); ("current", JNum (5 # 1));
               ("status", JStr "normal")].

(** The first node booted without grid power. *)
Definition darkBoot : Globals := setup 1 NodeSamples.unpowered.

(** A later node that knows its upstream neighbour to be feeding. *)
Definition fedFromUpstream : Globals := set_upstream true true NodeSamples.booted.

Definition overvoltage : Sensors := mkSensors 800 800 (Some (300 # 1)%Q) (Some (1 # 1)%Q).

(** A poll answer carrying both relay commands. *)
Definition bothCommands : string :=
  "{poleId:Pole2,commands:[{action:DISABLE_OUTGOING_RELAY},{action:ENABLE_OUTGOING_RELAY}]}".

(** A node two seconds into its recovery. *)
Definition recovering2s : Globals :=
  mkGlobals STATE_RECOVERY true true true true (0 # 1)%Q (0 # 1)%Q true false false 0 1000 true.

(** A node that senses no incoming current. *)
Definition dark : Globals :=
  mkGlobals STATE_NORMAL false false true true (0 # 1)%Q (0 # 1)%Q false false false 0 0 false.

(** Noise-free samples for the simulator. *)
Definition steady (poleId : string) : Q * Q := ((230 # 1)%Q, (5 # 1)%Q).

(** The simulator after the wire between Pole1 and Pole2 was cut, and the
    readings of the next pass. *)
Definition cutWire : Simulator.Sim := Simulator.simulateWireCut 1 Simulator.initial.

Definition cutPass : Simulator.Sim :=
  default Simulator.initial (Simulator.calculatePhysics steady cutWire).

End MoreSamples.
(** ** Property names every object inherits

    [poleStates], [pendingCommands] and [lastUpdateTime] are ordinary
    objects: besides their own properties, which the maps of [Ctx] hold, a
    read finds the members of [Object.prototype] under these names, and
    ["__proto__"] is an accessor, not a data property. A method called with
    one of these names as pole id is outside what the maps describe:
    [queueCommand] finds the inherited member instead of a queue and throws
    at [.push], and an assignment to [obj["__proto__"]] stores no property. *)
Definition objectPrototypeKeys : list string :=
  ["constructor"; "hasOwnProperty"; "isPrototypeOf"; "propertyIsEnumerable";
   "toLocaleString"; "toString"; "valueOf"; "__defineGetter__"; "__defineSetter__";
   "__lookupGetter__"; "__lookupSetter__"; "__proto__"].

(** All nodes of the context are silent at [now] and the staleness loop has
    something left to clear: no pole of the chain is fresh, and one that is
    stale still has its snapshot. *)
Definition allSilent (now : Z) (c : Ctx) : Prop :=
  (∃ p, p ∈ POLE_ORDER ∧ staleAt now c p ∧ is_Some (poleStates c !! p))
  ∧ (∀ p, p ∈ POLE_ORDER → ¬ freshAt now c p).

(** The context after a reset: baseline system state, no snapshot, empty
    queues. *)
Definition atBaseline (t : CtxType) (c : Ctx) : Prop :=
  systemState c = baseline t
  ∧ status (systemState c) = match t with real => WAITING | sim => SIM_IDLE end
  ∧ isolated c = []
  ∧ (∀ p, queueOf c p = [])
  ∧ poleStates c = ∅.

(** ** The staleness timers

    [startStalenessCheck()] arms [setInterval(callback, 5000)], which is
    never cleared; [ensureManagerIO(req)] calls it together with [setIO],
    the first time a request to routes/coordination.js finds the socket
    server. Time is the millisecond clock of [Date.now()]; a timer armed at
    [armed] fires at [armed + 5000], [armed + 10000], ... (its nominal
    schedule: what the event loop adds to a delay is not modelled). *)

Module Timers.

Definition SWEEP_INTERVAL_MS : Z := 5000.

(** The process with its timers: the server, and for each manager the
    clock readings at which [startStalenessCheck()] was called on it. *)
Record Process : Type := mkProcess {
  server : Server;
  realTimers : list Z;
  simTimers : list Z
}.

Definition manager (t : CtxType) (srv : Server) : Ctx :=
  match t with
  | real => RealSystem srv
  | sim => SimSystem srv
  end.

Definition timers (t : CtxType) (p : Process) : list Z :=
  match t with
  | real => realTimers p
  | sim => simTimers p
  end.

(** The process at start, in the given mode: both singletons as
    constructed, no timer armed. *)
Definition boot (m : Mode) : Process :=
  mkProcess (mkServer m (newSystem real) (newSystem sim)) [] [].

(** [ensureManagerIO(req)] at clock reading [now]: for each manager without
    [io], [setIO(io)] and [startStalenessCheck()]. *)
Definition ensureManagerIO (now : Z) (appIo : bool) (p : Process) : Process :=
  if appIo
  then mkProcess (ensureManagerIO appIo (server p))
         (if io (RealSystem (server p)) then realTimers p else realTimers p ++ [now])
         (if io (SimSystem (server p)) then simTimers p else simTimers p ++ [now])
  else p.

(** A request to routes/coordination.js handled at clock reading [now]:
    every handler of that file starts with [ensureManagerIO(req)].
    [handler] is the handler with its request. *)
Definition coordination {R : Type} (now : Z) (appIo : bool)
    (handler : bool → Server → Server * R) (p : Process) : Process * R :=
  let armed := ensureManagerIO now appIo p in
  let r := handler appIo (server p) in
  (mkProcess (fst r) (realTimers armed) (simTimers armed), snd r).

(** A request to one of the other routers (routes/poles.js,
    routes/settings.js), which do not call [ensureManagerIO]. *)
Definition elsewhere {R : Type} (handler : Server → Server * R) (p : Process) : Process * R :=
  let r := handler (server p) in
  (mkProcess (fst r) (realTimers p) (simTimers p), snd r).

(** The firings of the timer armed at [armed] that fall in the interval
    ([from], [to]], oldest first: [armed + 5000 * k] for k = 1, 2, ... *)
Definition firings (armed from to : Z) : list Z :=
  let first := Z.max 1 ((from - armed) / SWEEP_INTERVAL_MS + 1) in
  let final := (to - armed) / SWEEP_INTERVAL_MS in
  (λ k, armed + k * SWEEP_INTERVAL_MS) <$> seqZ first (final - first + 1).

(** The firings of all the timers of one manager in ([from], [to]], in the
    order of the clock. *)
Definition instants (armedAt : list Z) (from to : Z) : list Z :=
  merge_sort Z.le (armedAt ≫= λ armed, firings armed from to).

(** A manager left to its timers from clock reading [from] (excluded) to
    [to] (included): no request reaches it in between, each firing runs
    the callback. *)
Definition sweeps (armedAt : list Z) (from to : Z) (c : Ctx) : Ctx :=
  fold_left (λ c t, stalenessCheck t c) (instants armedAt from to) c.

(** The process left to its timers from [from] to [to]. *)
Definition elapse (from to : Z) (p : Process) : Process :=
  mkProcess
    (mkServer (mode (server p))
       (sweeps (realTimers p) from to (RealSystem (server p)))
       (sweeps (simTimers p) from to (SimSystem (server p))))
    (realTimers p) (simTimers p).

End Timers.

(** ** Further traces for the closed examples *)

Module TraceSamples.

Import Node NodeRun NodeSamples.





(** A publish of Pole1 from the real hardware. *)
Definition pole1Publish : gmap string JsVal :=
  list_to_map [("poleId", JStr "Pole1"); ("incomingCurrent", JStr "HIGH");
               ("outgoingCurrent", JStr "HIGH")].

(** The process in mode REAL after one publish of Pole1, handled at 1000
    with the socket server in place, and nothing since. *)
Definition onePublish : Timers.Process :=
  fst (Timers.coordination 1000 true
         (λ appIo, postState (H := ExampleHost.host) appIo 1000 pole1Publish)
         (Timers.boot REAL)).

(** The process in mode REAL after one telemetry record of Pole1 sent to
    POST /api/poles/data at 1000, and nothing since. *)
Definition oneRecord : Timers.Process :=
  fst (Timers.elsewhere
         (postData (H := ExampleHost.host) ExampleHost.parseDecimal 1000 MoreSamples.telemetry)
         (Timers.boot REAL)).

End TraceSamples.
(** ** Facts about one iteration of the engine's loop *)

Lemma strictEq_true v s : strictEq v s = true ↔ v = JStr s.
Proof.
  destruct v; simpl; try (split; [discriminate | intros; discriminate]).
  rewrite bool_decide_eq_true. split; congruence.
Qed.

Lemma fault_excludes_recovery cur up :
  faultCondition cur up = true → recoveryCondition cur up = false.
Proof.
  unfold faultCondition, recoveryCondition.
  rewrite andb_true_iff, !strictEq_true. intros [-> _]. reflexivity.
Qed.

Lemma mismatch_not_recovering store pr :
  mismatch store pr = true → recovering store pr = false.
Proof.
  unfold mismatch, recovering.
  destruct (store !! pr.2), (store !! pr.1); auto using fault_excludes_recovery.
Qed.

Lemma includes_true l s : includes l s = true ↔ s ∈ l.
Proof. apply bool_decide_eq_true. Qed.

Lemma includes_false l s : includes l s = false ↔ s ∉ l.
Proof. apply bool_decide_eq_false. Qed.

Lemma emit_systemState k s c : systemState (emit k s c) = systemState c.
Proof. unfold emit. destruct (io c); reflexivity. Qed.

Lemma emit_poleStates k s c : poleStates (emit k s c) = poleStates c.
Proof. unfold emit. destruct (io c); reflexivity. Qed.

Lemma emit_pendingCommands k s c : pendingCommands (emit k s c) = pendingCommands c.
Proof. unfold emit. destruct (io c); reflexivity. Qed.

Lemma emit_lastUpdateTime k s c : lastUpdateTime (emit k s c) = lastUpdateTime c.
Proof. unfold emit. destruct (io c); reflexivity. Qed.

Lemma emit_type k s c : type (emit k s c) = type c.
Proof. unfold emit. destruct (io c); reflexivity. Qed.

Lemma emit_io k s c : io (emit k s c) = io c.
Proof. unfold emit. destruct (io c) eqn:E; simpl; auto. Qed.

Lemma emit_emitted k s c :
  emitted (emit k s c) = emitted c ++ (if io c then [mkEmit (events (type c) k) s] else []).
Proof. unfold emit. destruct (io c); simpl; [reflexivity | by rewrite app_nil_r]. Qed.

Lemma queueOf_emit k s c p : queueOf (emit k s c) p = queueOf c p.
Proof. unfold queueOf. by rewrite emit_pendingCommands. Qed.

Lemma isolated_emit k s c : isolated (emit k s c) = isolated c.
Proof. unfold isolated. by rewrite emit_systemState. Qed.

Ltac ctx_simpl :=
  rewrite ?queueOf_emit, ?isolated_emit, ?emit_systemState, ?emit_poleStates,
    ?emit_pendingCommands, ?emit_lastUpdateTime, ?emit_type, ?emit_io.

Lemma queueOf_queueCommand t p q cmd c :
  queueOf (queueCommand t p cmd c) q =
    if decide (p = q) then queueOf c p ++ [mkCommand cmd.1 cmd.2 t "PENDING"] else queueOf c q.
Proof.
  unfold queueOf at 1, queueCommand. simpl.
  rewrite lookup_insert. destruct (decide (p = q)); reflexivity.
Qed.

Section EngineFacts.

Variable now : Z.

Abbreviation step := (checkPair (queueCommand now) now).
Abbreviation sweep := (fold_left (checkPair (queueCommand now) now)).

Implicit Types (st : Ctx * bool) (pr : string * string) (c : Ctx).

Abbreviation elapsed := (timerElapsed now).

Lemma step_unfold st pr :
  step st pr =
    if mismatch (poleStates st.1) pr && negb (includes (isolated st.1) (segmentId pr))
    then raiseFault (queueCommand now) now pr st
    else if recovering (poleStates st.1) pr && includes (isolated st.1) (segmentId pr)
         then tryRecover (queueCommand now) now pr st
         else st.
Proof.
  unfold checkPair, mismatch, recovering, isolated.
  destruct (poleStates st.1 !! pr.2) as [cur|]; [|reflexivity].
  destruct (poleStates st.1 !! pr.1) as [up|]; [|reflexivity].
  destruct (faultCondition cur up) eqn:Hf; simpl; [|reflexivity].
  rewrite (fault_excludes_recovery _ _ Hf). simpl.
  destruct (negb _); reflexivity.
Qed.

Lemma raiseFault_spec pr st :
  let r := raiseFault (queueCommand now) now pr st in
  poleStates r.1 = poleStates st.1
  ∧ isolated r.1 = isolated st.1 ++ [segmentId pr]
  ∧ status (systemState r.1) = FAULT
  ∧ faultLocation (systemState r.1) = Some (segmentId pr)
  ∧ recoveryStartTime (systemState r.1) = None
  ∧ (∀ p, queueOf r.1 p =
          if decide (pr.1 = p) then queueOf st.1 p ++ [disableCommand pr now] else queueOf st.1 p)
  ∧ r.2 = true.
Proof.
  cbv zeta. unfold raiseFault. cbn [fst snd]. ctx_simpl.
  repeat split; try reflexivity.
  intros p. rewrite queueOf_emit, queueOf_queueCommand. destruct (decide _) as [->|]; reflexivity.
Qed.

Lemma tryRecover_done pr st :
  elapsed st.1 = true →
  let r := tryRecover (queueCommand now) now pr st in
  poleStates r.1 = poleStates st.1
  ∧ isolated r.1 = filter (λ s, s ≠ segmentId pr) (isolated st.1)
  ∧ status (systemState r.1) =
      (if (length (isolated r.1) =? 0)%nat then NORMAL else status (systemState st.1))
  ∧ faultLocation (systemState r.1) =
      (if (length (isolated r.1) =? 0)%nat then None else faultLocation (systemState st.1))
  ∧ recoveryStartTime (systemState r.1) = None
  ∧ (∀ p, queueOf r.1 p =
          if decide (pr.1 = p) then queueOf st.1 p ++ [enableCommand pr now] else queueOf st.1 p)
  ∧ r.2 = true.
Proof.
  unfold timerElapsed. intros He. cbv zeta. unfold tryRecover. rewrite He.
  cbn [fst snd]. ctx_simpl. unfold isolated.
  split; [reflexivity|].
  split; [by destruct (length _ =? 0)%nat|].
  split; [by destruct (length _ =? 0)%nat eqn:E; simpl; rewrite ?E|].
  split; [by destruct (length _ =? 0)%nat eqn:E; simpl; rewrite ?E|].
  split; [by destruct (length _ =? 0)%nat|].
  split; [|reflexivity].
  intros p. rewrite queueOf_emit, queueOf_queueCommand. destruct (decide _) as [->|]; reflexivity.
Qed.

Lemma tryRecover_wait pr st :
  elapsed st.1 = false →
  let r := tryRecover (queueCommand now) now pr st in
  poleStates r.1 = poleStates st.1
  ∧ isolated r.1 = isolated st.1
  ∧ status (systemState r.1) = status (systemState st.1)
  ∧ faultLocation (systemState r.1) = faultLocation (systemState st.1)
  ∧ recoveryStartTime (systemState r.1)
      = Some (timerStart now (recoveryStartTime (systemState st.1)))
  ∧ pendingCommands r.1 = pendingCommands st.1
  ∧ r.2 = st.2.
Proof.
  unfold timerElapsed. intros He. cbv zeta. unfold tryRecover, isolated. rewrite He.
  repeat split; reflexivity.
Qed.

Lemma step_cases st pr :
  (mismatch (poleStates st.1) pr = true ∧ (segmentId pr ∉ isolated st.1)
     ∧ step st pr = raiseFault (queueCommand now) now pr st)
  ∨ (recovering (poleStates st.1) pr = true ∧ segmentId pr ∈ isolated st.1
     ∧ elapsed st.1 = true ∧ step st pr = tryRecover (queueCommand now) now pr st)
  ∨ (recovering (poleStates st.1) pr = true ∧ segmentId pr ∈ isolated st.1
     ∧ elapsed st.1 = false ∧ step st pr = tryRecover (queueCommand now) now pr st)
  ∨ ((mismatch (poleStates st.1) pr = true → segmentId pr ∈ isolated st.1)
     ∧ (recovering (poleStates st.1) pr = true → segmentId pr ∉ isolated st.1)
     ∧ step st pr = st).
Proof.
  rewrite step_unfold.
  destruct (mismatch (poleStates st.1) pr) eqn:Hm;
    destruct (includes (isolated st.1) (segmentId pr)) eqn:Hi; simpl.
  - rewrite (mismatch_not_recovering _ _ Hm). simpl.
    right; right; right. apply includes_true in Hi. repeat split; auto. discriminate.
  - left. apply includes_false in Hi. auto.
  - apply includes_true in Hi.
    destruct (recovering (poleStates st.1) pr) eqn:Hr; simpl.
    + destruct (elapsed st.1) eqn:He; [right; left | right; right; left]; auto.
    + right; right; right. repeat split; auto; discriminate.
  - apply includes_false in Hi. rewrite andb_false_r.
    right; right; right. repeat split; auto; discriminate.
Qed.

Lemma step_poleStates st pr : poleStates (step st pr).1 = poleStates st.1.
Proof.
  destruct (step_cases st pr) as [(_ & _ & ->)|[(_ & _ & He & ->)|[(_ & _ & He & ->)|(_ & _ & ->)]]].
  - apply raiseFault_spec.
  - by apply tryRecover_done.
  - by apply tryRecover_wait.
  - reflexivity.
Qed.

Lemma sweep_poleStates l st : poleStates (sweep l st).1 = poleStates st.1.
Proof.
  revert st. induction l as [|q l IH]; intros st; simpl; [reflexivity|].
  by rewrite IH, step_poleStates.
Qed.

(** A pair only adds or removes its own segment. *)
Lemma step_isolated_other st pr s :
  s ≠ segmentId pr → (s ∈ isolated (step st pr).1 ↔ s ∈ isolated st.1).
Proof.
  intros Hs.
  destruct (step_cases st pr) as [(_ & _ & ->)|[(_ & _ & He & ->)|[(_ & _ & He & ->)|(_ & _ & ->)]]].
  - destruct (raiseFault_spec pr st) as (_ & -> & _).
    rewrite elem_of_app, list_elem_of_singleton. tauto.
  - destruct (tryRecover_done pr st He) as (_ & -> & _).
    rewrite list_elem_of_filter. tauto.
  - by destruct (tryRecover_wait pr st He) as (_ & -> & _).
  - reflexivity.
Qed.

Lemma sweep_isolated_other l st s :
  (∀ q, q ∈ l → segmentId q ≠ s) → (s ∈ isolated (sweep l st).1 ↔ s ∈ isolated st.1).
Proof.
  revert st. induction l as [|q l IH]; intros st Hl; simpl; [reflexivity|].
  rewrite IH by (intros; apply Hl; by right).
  apply step_isolated_other. intros ->. eapply Hl; [left|reflexivity].
Qed.

(** A pair only queues commands for its own upstream pole. *)
Lemma step_queue_other st pr p : pr.1 ≠ p → queueOf (step st pr).1 p = queueOf st.1 p.
Proof.
  intros Hp.
  destruct (step_cases st pr) as [(_ & _ & ->)|[(_ & _ & He & ->)|[(_ & _ & He & ->)|(_ & _ & ->)]]].
  - destruct (raiseFault_spec pr st) as (_ & _ & _ & _ & _ & -> & _). by rewrite decide_False.
  - destruct (tryRecover_done pr st He) as (_ & _ & _ & _ & _ & -> & _). by rewrite decide_False.
  - unfold queueOf. by destruct (tryRecover_wait pr st He) as (_ & _ & _ & _ & _ & -> & _).
  - reflexivity.
Qed.

Lemma sweep_queue_other l st p :
  (∀ q, q ∈ l → q.1 ≠ p) → queueOf (sweep l st).1 p = queueOf st.1 p.
Proof.
  revert st. induction l as [|q l IH]; intros st Hl; simpl; [reflexivity|].
  rewrite IH by (intros; apply Hl; by right).
  apply step_queue_other. apply Hl. left.
Qed.

Lemma step_changed_mono st pr : st.2 = true → (step st pr).2 = true.
Proof.
  intros Hc.
  destruct (step_cases st pr) as [(_ & _ & ->)|[(_ & _ & He & ->)|[(_ & _ & He & ->)|(_ & _ & ->)]]].
  - apply raiseFault_spec.
  - by apply tryRecover_done.
  - by destruct (tryRecover_wait pr st He) as (_ & _ & _ & _ & _ & _ & ->).
  - done.
Qed.

Lemma sweep_changed_mono l st : st.2 = true → (sweep l st).2 = true.
Proof.
  revert st. induction l as [|q l IH]; intros st Hc; simpl; [done|].
  by apply IH, step_changed_mono.
Qed.

(** The loop never sets the status to GRID_DOWN. *)
Lemma step_status_grid_down st pr :
  status (systemState (step st pr).1) = GRID_DOWN → status (systemState st.1) = GRID_DOWN.
Proof.
  destruct (step_cases st pr) as [(_ & _ & ->)|[(_ & _ & He & ->)|[(_ & _ & He & ->)|(_ & _ & ->)]]].
  - destruct (raiseFault_spec pr st) as (_ & _ & -> & _). discriminate.
  - destruct (tryRecover_done pr st He) as (_ & _ & -> & _).
    by destruct (length _ =? 0)%nat.
  - by destruct (tryRecover_wait pr st He) as (_ & _ & -> & _).
  - done.
Qed.

Lemma sweep_status_grid_down l st :
  status (systemState (sweep l st).1) = GRID_DOWN → status (systemState st.1) = GRID_DOWN.
Proof.
  revert st. induction l as [|q l IH]; intros st; simpl; [done|].
  intros Hs. apply IH in Hs. by apply step_status_grid_down in Hs.
Qed.

(** After a sweep every pair that shows the mismatch is isolated. *)
Lemma step_mismatch_isolated st pr :
  mismatch (poleStates st.1) pr = true → segmentId pr ∈ isolated (step st pr).1.
Proof.
  intros Hm.
  destruct (step_cases st pr) as [(_ & _ & ->)|[(Hr & _)|[(Hr & _)|(Hi & _ & ->)]]].
  - destruct (raiseFault_spec pr st) as (_ & -> & _).
    rewrite elem_of_app, list_elem_of_singleton. by right.
  - rewrite (mismatch_not_recovering _ _ Hm) in Hr. discriminate.
  - rewrite (mismatch_not_recovering _ _ Hm) in Hr. discriminate.
  - by apply Hi.
Qed.

Lemma sweep_mismatch_isolated l st pr :
  NoDup (segmentId <$> l) → pr ∈ l → mismatch (poleStates st.1) pr = true →
  segmentId pr ∈ isolated (sweep l st).1.
Proof.
  revert st. induction l as [|q l IH]; intros st Hnd Hin Hm; [by apply elem_of_nil in Hin|].
  rewrite fmap_cons in Hnd. apply NoDup_cons in Hnd as [Hq Hnd]. simpl.
  apply elem_of_cons in Hin as [->|Hin].
  - apply sweep_isolated_other.
    + intros q' Hq' Heq. apply Hq. rewrite <- Heq. by apply list_elem_of_fmap_2.
    + by apply step_mismatch_isolated.
  - apply IH; auto. by rewrite step_poleStates.
Qed.

Abbreviation settled := (settledAt).
Abbreviation unhurried := (unhurriedAt now).

Lemma settled_step q l st :
  NoDup (segmentId <$> q :: l) → settled (q :: l) st → settled l (step st q).
Proof.
  rewrite fmap_cons. intros [Hq _]%NoDup_cons Hs q' Hq' Hm.
  rewrite step_poleStates in Hm.
  apply step_isolated_other.
  - intros Heq. apply Hq. rewrite <- Heq. by apply list_elem_of_fmap_2.
  - apply Hs; [by right | done].
Qed.

Lemma step_settled_shrinks q st s :
  settled [q] st → s ∈ isolated (step st q).1 → s ∈ isolated st.1.
Proof.
  intros Hs.
  destruct (step_cases st q) as [(Hm & Hn & _)|[(_ & _ & He & ->)|[(_ & _ & He & ->)|(_ & _ & ->)]]].
  - destruct Hn. apply Hs; [left | done].
  - destruct (tryRecover_done q st He) as (_ & -> & _).
    rewrite list_elem_of_filter. tauto.
  - by destruct (tryRecover_wait q st He) as (_ & -> & _).
  - done.
Qed.

Lemma step_settled_changed q st :
  settled [q] st → (step st q).2 = true →
  st.2 = true ∨ (segmentId q ∈ isolated st.1 ∧ segmentId q ∉ isolated (step st q).1).
Proof.
  intros Hs.
  destruct (step_cases st q) as [(Hm & Hn & _)|[(_ & Hi & He & ->)|[(_ & _ & He & ->)|(_ & _ & ->)]]].
  - destruct Hn. apply Hs; [left | done].
  - intros _. right. split; [done|].
    destruct (tryRecover_done q st He) as (_ & -> & _).
    rewrite list_elem_of_filter. tauto.
  - destruct (tryRecover_wait q st He) as (_ & _ & _ & _ & _ & _ & ->). auto.
  - auto.
Qed.

Lemma settled_head q l st : settled (q :: l) st → settled [q] st.
Proof. intros Hs q' ->%list_elem_of_singleton. apply Hs. left. Qed.

Lemma sweep_settled_shrinks l st s :
  NoDup (segmentId <$> l) → settled l st →
  s ∈ isolated (sweep l st).1 → s ∈ isolated st.1.
Proof.
  revert st. induction l as [|q l IH]; intros st Hnd Hs; simpl; [done|].
  intros Hin. apply (step_settled_shrinks q); [by eapply settled_head|].
  apply IH; [|by apply settled_step|done].
  rewrite fmap_cons in Hnd. by apply NoDup_cons in Hnd as [_ ?].
Qed.

Lemma sweep_settled_changed l st :
  NoDup (segmentId <$> l) → settled l st → (sweep l st).2 = true →
  st.2 = true ∨ ∃ s, s ∈ isolated st.1 ∧ s ∉ isolated (sweep l st).1.
Proof.
  revert st. induction l as [|q l IH]; intros st Hnd Hs; simpl; [auto|].
  assert (NoDup (segmentId <$> l)) as Hnd'.
  { rewrite fmap_cons in Hnd. by apply NoDup_cons in Hnd as [_ ?]. }
  intros Hc. destruct (IH _ Hnd' (settled_step _ _ _ Hnd Hs) Hc) as [Hc'|(s & Hin & Hout)].
  - destruct (step_settled_changed q st (settled_head _ _ _ Hs) Hc') as [?|[Hin Hout]]; [auto|].
    right. exists (segmentId q). split; [done|].
    intros Hfin. apply Hout.
    by apply (sweep_settled_shrinks l (step st q)); [|apply settled_step|].
  - right. exists s. split; [|done].
    by apply (step_settled_shrinks q); [eapply settled_head|].
Qed.

(** *** The recovery timer within one sweep *)

Lemma timerStart_idem t : timerStart now (Some (timerStart now t)) = timerStart now t.
Proof.
  unfold timerStart. destruct t as [v|]; simpl.
  - destruct (v =? 0) eqn:E; simpl; [|by rewrite E].
    destruct (now =? 0) eqn:E'; [done|reflexivity].
  - by destruct (now =? 0).
Qed.

Lemma elapsed_unset c : recoveryStartTime (systemState c) = None → elapsed c = false.
Proof.
  unfold timerElapsed. intros ->. unfold timerStart, RECOVERY_STABLE_MS. simpl.
  apply Z.leb_gt. lia.
Qed.

Lemma step_elapsed_false st q : elapsed st.1 = false → elapsed (step st q).1 = false.
Proof.
  intros Hf.
  destruct (step_cases st q) as [(_ & _ & ->)|[(_ & _ & He & _)|[(_ & _ & He & ->)|(_ & _ & ->)]]].
  - apply elapsed_unset, raiseFault_spec.
  - congruence.
  - destruct (tryRecover_wait q st He) as (_ & _ & _ & _ & Ht & _).
    unfold timerElapsed in *. by rewrite Ht, timerStart_idem.
  - done.
Qed.

Lemma sweep_elapsed_false l st : elapsed st.1 = false → elapsed (sweep l st).1 = false.
Proof.
  revert st. induction l as [|q l IH]; intros st Hf; simpl; [done|].
  by apply IH, step_elapsed_false.
Qed.

(** A pair that shows the recovery condition and is still isolated after
    its iteration has left a timer that has not run out. *)
Lemma step_recovering_fresh st q :
  recovering (poleStates st.1) q = true → segmentId q ∈ isolated (step st q).1 →
  elapsed (step st q).1 = false.
Proof.
  intros Hr.
  destruct (step_cases st q) as [(Hm & _)|[(_ & _ & He & ->)|[(_ & _ & He & ->)|(_ & Hn & ->)]]].
  - rewrite (mismatch_not_recovering _ _ Hm) in Hr. discriminate.
  - destruct (tryRecover_done q st He) as (_ & -> & _).
    rewrite list_elem_of_filter. tauto.
  - intros _. destruct (tryRecover_wait q st He) as (_ & _ & _ & _ & Ht & _).
    unfold timerElapsed in *. by rewrite Ht, timerStart_idem.
  - intros Hin. by destruct (Hn Hr).
Qed.

Lemma sweep_recovering_fresh l st pr :
  NoDup (segmentId <$> l) → pr ∈ l → recovering (poleStates st.1) pr = true →
  segmentId pr ∈ isolated (sweep l st).1 → elapsed (sweep l st).1 = false.
Proof.
  revert st. induction l as [|q l IH]; intros st Hnd Hin Hr; [by apply elem_of_nil in Hin|].
  rewrite fmap_cons in Hnd. apply NoDup_cons in Hnd as [Hq Hnd]. simpl.
  apply elem_of_cons in Hin as [->|Hin].
  - intros Hfin. apply sweep_elapsed_false, step_recovering_fresh; [done|].
    revert Hfin. apply sweep_isolated_other.
    intros q' Hq' Heq. apply Hq. rewrite <- Heq. by apply list_elem_of_fmap_2.
  - apply IH; auto. by rewrite step_poleStates.
Qed.

(** A sweep that has no fault to raise and no timer that has run out
    changes nothing but the timer. *)
Lemma step_idle q st :
  settled [q] st → unhurried [q] st →
  poleStates (step st q).1 = poleStates st.1
  ∧ isolated (step st q).1 = isolated st.1
  ∧ pendingCommands (step st q).1 = pendingCommands st.1
  ∧ (step st q).2 = st.2
  ∧ (elapsed st.1 = false → elapsed (step st q).1 = false).
Proof.
  intros Hs Hu.
  destruct (step_cases st q) as [(Hm & Hn & _)|[(Hr & Hi & He & _)|[(_ & _ & He & Heq)|(_ & _ & ->)]]].
  - destruct Hn. apply Hs; [left | done].
  - rewrite Hu in He; [discriminate|left|done|done].
  - split; [apply step_poleStates|]. rewrite Heq.
    destruct (tryRecover_wait q st He) as (_ & ? & _ & _ & Ht & ? & ?).
    repeat split; auto. intros _. unfold timerElapsed in *. by rewrite Ht, timerStart_idem.
  - auto.
Qed.

Lemma sweep_idle l st :
  settled l st → unhurried l st →
  isolated (sweep l st).1 = isolated st.1
  ∧ pendingCommands (sweep l st).1 = pendingCommands st.1
  ∧ (sweep l st).2 = st.2.
Proof.
  revert st. induction l as [|q l IH]; intros st Hs Hu; simpl; [auto|].
  destruct (step_idle q st) as (Hp & Hi & Hc & Hch & He).
  { intros q' ->%list_elem_of_singleton. apply Hs. left. }
  { intros q' ->%list_elem_of_singleton. apply Hu. left. }
  destruct (IH (step st q)) as (Hi' & Hc' & Hch').
  - intros q' Hq'. rewrite Hp, Hi. apply Hs. by right.
  - intros q' Hq'. rewrite Hp, Hi. intros Hr Hin. apply He. apply (Hu q'); [by right|done|done].
  - rewrite Hi', Hc', Hch'. auto.
Qed.

End EngineFacts.

(** ** The chain *)

Lemma adjacentPairs_POLE_ORDER :
  adjacentPairs POLE_ORDER = [("Pole1", "Pole2"); ("Pole2", "Pole3"); ("Pole3", "Pole4")].
Proof. reflexivity. Qed.

Lemma segments_NoDup : NoDup (segmentId <$> adjacentPairs POLE_ORDER).
Proof. compute_done. Qed.

Lemma upstreams_NoDup : NoDup (fst <$> adjacentPairs POLE_ORDER).
Proof. compute_done. Qed.

(** ** Runs of the engine *)

Lemma runEngine_grid_down now c :
  pole1Incoming (poleStates c) "LOW" = true →
  runEngine now c = gridDown now c.
Proof. unfold runEngine, runFaultEngine. by intros ->. Qed.

Lemma runEngine_sweep now c :
  pole1Incoming (poleStates c) "LOW" = false → gridRestoring c = false →
  runEngine now c =
    fold_left (checkPair (queueCommand now) now) (adjacentPairs POLE_ORDER) (c, false).
Proof. unfold runEngine, runFaultEngine, gridRestoring. by intros -> ->. Qed.

Lemma runEngine_poleStates now c : poleStates (runEngine now c).1 = poleStates c.
Proof.
  unfold runEngine, runFaultEngine.
  destruct (pole1Incoming _ "LOW").
  - unfold gridDown. case_bool_decide; simpl; by rewrite ?emit_poleStates.
  - destruct (_ && _).
    + unfold gridRestored. simpl. by rewrite emit_poleStates.
    + by rewrite sweep_poleStates.
Qed.

(** C2. When the snapshot of the first node exists and reports incoming
    current LOW, a run of the engine ends with status GRID_DOWN, reports a
    change and emits the grid-down event exactly when the status was not
    GRID_DOWN before, and returns without visiting any pair: the isolated
    segments and every command queue are as before, whatever the other
    snapshots show. *)
Theorem C2_grid_down_short_circuits (now : Z) (c : Ctx) (p1 : gmap string JsVal) :
  poleStates c !! "Pole1" = Some p1 →
  get p1 "incomingCurrent" = JStr "LOW" →
  let r := runEngine now c in
  status (systemState r.1) = GRID_DOWN
  ∧ isolated r.1 = isolated c
  ∧ pendingCommands r.1 = pendingCommands c
  ∧ r.2 = bool_decide (status (systemState c) ≠ GRID_DOWN)
  ∧ emitted r.1 =
      emitted c ++ (if io c && bool_decide (status (systemState c) ≠ GRID_DOWN)
                    then [mkEmit (events (type c) evGridDown) None] else [])
  ∧ (status (systemState c) = GRID_DOWN → r.1 = c).
Proof.
  intros Hp1 Hlow. cbv zeta.
  rewrite runEngine_grid_down by (unfold pole1Incoming; rewrite Hp1, Hlow; reflexivity).
  unfold gridDown, isolated. case_bool_decide as Hs; simpl.
  - rewrite emit_systemState, emit_pendingCommands, emit_emitted. simpl.
    rewrite andb_true_r. repeat split; try done.
  - rewrite andb_false_r, app_nil_r. repeat split; done.
Qed.

(** The grid is down at Pole1 and Pole2 shows the mismatch against Pole1's
    outgoing HIGH: the run still isolates nothing. *)
Lemma C2_witness :
  mismatch (poleStates (Samples.holding Samples.gridLost (baseline real))) ("Pole1", "Pole2") = true
  ∧ let r := runEngine 1000 (Samples.holding Samples.gridLost (baseline real)) in
    status (systemState r.1) = GRID_DOWN ∧ isolated r.1 = [] ∧ r.2 = true.
Proof.
  split; [reflexivity|].
  destruct (C2_grid_down_short_circuits 1000
              (Samples.holding Samples.gridLost (baseline real))
              (Samples.snapshot "LOW" "HIGH") eq_refl eq_refl) as (Hs & Hi & _ & Hc & _).
  split; [exact Hs|]. split; [exact Hi | exact Hc].
Defined.

(** *** Two runs on the same snapshots *)

Lemma gridDown_again now1 now2 c :
  runEngine now2 (gridDown now1 c).1 = ((gridDown now1 c).1, false)
  ∨ pole1Incoming (poleStates c) "LOW" = false.
Proof.
  destruct (pole1Incoming (poleStates c) "LOW") eqn:Hlow; [left | by right].
  assert (poleStates (gridDown now1 c).1 = poleStates c) as Hp.
  { unfold gridDown. case_bool_decide; simpl; by rewrite ?emit_poleStates. }
  rewrite runEngine_grid_down by (by rewrite Hp).
  assert (status (systemState (gridDown now1 c).1) = GRID_DOWN) as Hs.
  { unfold gridDown. case_bool_decide; simpl; by rewrite ?emit_systemState. }
  unfold gridDown at 1. by rewrite bool_decide_eq_false_2 by (by intros []).
Qed.

Lemma sweep_not_restoring now c :
  gridRestoring c = false →
  gridRestoring (fold_left (checkPair (queueCommand now) now) (adjacentPairs POLE_ORDER) (c, false)).1
  = false.
Proof.
  unfold gridRestoring. rewrite sweep_poleStates. cbn [fst].
  destruct (pole1Incoming (poleStates c) "HIGH"); [|done]. cbn [andb].
  intros Hs%bool_decide_eq_false. apply bool_decide_eq_false.
  intros Hs'. by apply sweep_status_grid_down in Hs'.
Qed.

(** C3 (amended). If the first of two runs on unchanged snapshots is not the
    one that finds the grid restored, the second run isolates no segment
    that was not isolated after the first; it reports a change only by
    completing a recovery, that is by removing a segment; and run at the
    same clock reading it reports no change. *)
Theorem C3_second_run_adds_nothing (now1 now2 : Z) (c : Ctx) :
  gridRestoring c = false →
  let c1 := (runEngine now1 c).1 in
  let r2 := runEngine now2 c1 in
  (∀ s, s ∈ isolated r2.1 → s ∈ isolated c1)
  ∧ (r2.2 = true → ∃ s, s ∈ isolated c1 ∧ s ∉ isolated r2.1)
  ∧ (now2 = now1 → r2.2 = false).
Proof.
  intros Hng. cbv zeta.
  destruct (pole1Incoming (poleStates c) "LOW") eqn:Hlow.
  - rewrite (runEngine_grid_down now1 c Hlow).
    destruct (gridDown_again now1 now2 c) as [->|Hf]; [|congruence].
    cbn [fst snd]. repeat split; [done | discriminate].
  - rewrite (runEngine_sweep now1 c Hlow Hng).
    set (st1 := fold_left _ _ _).
    assert (poleStates st1.1 = poleStates c) as Hp by apply sweep_poleStates.
    assert (settledAt (adjacentPairs POLE_ORDER) (st1.1, false)) as Hset.
    { intros q Hq Hm. cbn [fst] in *. rewrite Hp in Hm.
      by apply sweep_mismatch_isolated; [apply segments_NoDup | |]. }
    rewrite runEngine_sweep; [| by rewrite Hp | by apply sweep_not_restoring].
    split; [|split].
    + intros s. by apply (sweep_settled_shrinks now2 _ (st1.1, false)); [apply segments_NoDup|].
    + intros Hc.
      destruct (sweep_settled_changed now2 _ (st1.1, false) segments_NoDup Hset Hc) as [?|?];
        [discriminate | done].
    + intros ->.
      destruct (sweep_idle now1 (adjacentPairs POLE_ORDER) (st1.1, false)) as (_ & _ & ->);
        [done | | done].
      intros q Hq Hr Hin. cbn [fst] in *. rewrite Hp in Hr.
      by apply (sweep_recovering_fresh now1 _ (c, false) q segments_NoDup).
Qed.

Lemma C3_witness :
  let c := Samples.holding Samples.cut12 (baseline real) in
  gridRestoring c = false
  ∧ isolated (runEngine 1000 c).1 = ["Pole1-Pole2"]
  ∧ (∀ s, s ∈ isolated (runEngine 1000 (runEngine 1000 c).1).1 → s ∈ isolated (runEngine 1000 c).1)
  ∧ (runEngine 1000 (runEngine 1000 c).1).2 = false.
Proof.
  cbv zeta. split; [reflexivity|]. split; [reflexivity|].
  destruct (C3_second_run_adds_nothing 1000 1000
              (Samples.holding Samples.cut12 (baseline real)) eq_refl) as (Ha & _ & Hc).
  split; [exact Ha | exact (Hc eq_refl)].
Defined.

(** The claim as stated fails twice over. With the status GRID_DOWN and the
    grid back, the first run only restores the grid and it is the second run
    that isolates Pole1-Pole2; and with a recovery under way, a second run
    three seconds later completes it and reports a change. *)
Lemma C3_counterexample :
  (let c := Samples.holding Samples.cut12 (Samples.withStatus GRID_DOWN [] None) in
   let c1 := (runEngine 1000 c).1 in
   let r2 := runEngine 1000 c1 in
   poleStates c1 = poleStates c
   ∧ ("Pole1-Pole2" ∉ isolated c1) ∧ ("Pole1-Pole2" ∈ isolated r2.1) ∧ r2.2 = true)
  ∧ (let c := Samples.holding Samples.healed12
                (Samples.withStatus FAULT ["Pole1-Pole2"] None) in
     let c1 := (runEngine 1000 c).1 in
     let r2 := runEngine 4000 c1 in
     poleStates c1 = poleStates c ∧ r2.2 = true).
Proof.
  split; cbv zeta.
  - split; [reflexivity|]. split; [|split]; [| |reflexivity].
    + vm_compute. by intros ?%elem_of_nil.
    + vm_compute. left.
  - split; reflexivity.
Qed.

(** *** One fault in flight *)

Section SingleFault.

Variable now : Z.

Abbreviation step1 := (checkPair (queueCommand now) now).
Abbreviation sweep1 := (fold_left (checkPair (queueCommand now) now)).

Lemma step_inert st q :
  mismatch (poleStates st.1) q = false → segmentId q ∉ isolated st.1 → step1 st q = st.
Proof.
  intros Hm Hn. rewrite step_unfold, Hm. cbn [andb].
  apply includes_false in Hn. rewrite Hn. by rewrite andb_false_r.
Qed.

Lemma sweep_inert l st s0 :
  (∀ q, q ∈ l → mismatch (poleStates st.1) q = false ∧ segmentId q ≠ s0) →
  (∀ s, s ∈ isolated st.1 → s = s0) →
  sweep1 l st = st.
Proof.
  induction l as [|q l IH]; intros Hl Hiso; [reflexivity|].
  cbn [fold_left]. destruct (Hl q) as [Hm Hne]; [left|].
  rewrite step_inert; [| done | by intros ?%Hiso].
  apply IH; [|done]. intros q' Hq'. apply Hl. by right.
Qed.

Lemma sweep_only l st pr :
  NoDup (segmentId <$> l) → pr ∈ l →
  (∀ q, q ∈ l → q ≠ pr → mismatch (poleStates st.1) q = false) →
  (∀ s, s ∈ isolated st.1 → s = segmentId pr) →
  sweep1 l st = step1 st pr.
Proof.
  intros Hnd Hin Hcalm Hiso.
  apply list_elem_of_split in Hin as (pre & post & ->).
  rewrite fmap_app, fmap_cons in Hnd.
  apply NoDup_app in Hnd as (_ & Hpre & [Hpost _]%NoDup_cons).
  assert (∀ q, q ∈ pre → segmentId q ≠ segmentId pr) as Hpre'.
  { intros q Hq Heq. apply (Hpre (segmentId q)); [by apply list_elem_of_fmap_2|].
    rewrite Heq. left. }
  assert (∀ q, q ∈ post → segmentId q ≠ segmentId pr) as Hpost'.
  { intros q Hq Heq. apply Hpost. rewrite <- Heq. by apply list_elem_of_fmap_2. }
  rewrite fold_left_app. cbn [fold_left].
  rewrite (sweep_inert pre st (segmentId pr)); [| |done].
  - apply (sweep_inert post _ (segmentId pr)).
    + intros q Hq. split; [|by apply Hpost'].
      rewrite step_poleStates. apply Hcalm.
      * rewrite elem_of_app, elem_of_cons. auto.
      * intros ->. by apply (Hpost' pr).
    + intros s Hs. destruct (decide (s = segmentId pr)) as [|Hne]; [done|].
      apply Hiso. by apply (step_isolated_other now st pr s Hne).
  - intros q Hq. split; [|by apply Hpre'].
    apply Hcalm; [rewrite elem_of_app; auto|].
    intros ->. by apply (Hpre' pr).
Qed.

End SingleFault.

Lemma mismatch_intro store pr (up down : gmap string JsVal) :
  store !! pr.1 = Some up → store !! pr.2 = Some down →
  get up "outgoingCurrent" = JStr "HIGH" → get down "incomingCurrent" = JStr "LOW" →
  mismatch store pr = true.
Proof.
  intros Hu Hd Ho Hi. unfold mismatch, faultCondition. by rewrite Hu, Hd, Ho, Hi.
Qed.

Lemma recovering_intro store pr (up down : gmap string JsVal) :
  store !! pr.1 = Some up → store !! pr.2 = Some down →
  get up "outgoingCurrent" = JStr "HIGH" → get down "incomingCurrent" = JStr "HIGH" →
  recovering store pr = true.
Proof.
  intros Hu Hd Ho Hi. unfold recovering, recoveryCondition. by rewrite Hu, Hd, Ho, Hi.
Qed.

(** What observing one calm frame does to a context in which at most the
    segment of [pr] is isolated. *)
Lemma observe_single pr c f :
  pr ∈ adjacentPairs POLE_ORDER → calmFor pr f.2 →
  status (systemState c) ≠ GRID_DOWN →
  (∀ s, s ∈ isolated c → s = segmentId pr) →
  observe c f = (checkPair (queueCommand f.1) f.1 (set_poleStates f.2 c, false) pr).1.
Proof.
  intros Hin [Hlow Hcalm] Hs Hiso. unfold observe.
  rewrite runEngine_sweep; [|done|].
  - by rewrite (sweep_only f.1 _ _ pr segments_NoDup Hin).
  - unfold gridRestoring. cbn [systemState set_poleStates].
    by rewrite bool_decide_eq_false_2, andb_false_r.
Qed.

Lemma filter_out_only (s : string) : filter (λ x, x ≠ s) [s] = [].
Proof. rewrite filter_cons_False by (intros Hne; by apply Hne). apply filter_nil. Qed.

Lemma observe_recovering pr c f :
  pr ∈ adjacentPairs POLE_ORDER → calmFor pr f.2 → recovering f.2 pr = true →
  status (systemState c) ≠ GRID_DOWN → isolated c = [segmentId pr] →
  let start := timerStart f.1 (recoveryStartTime (systemState c)) in
  if RECOVERY_STABLE_MS <=? f.1 - start
  then isolated (observe c f) = []
       ∧ status (systemState (observe c f)) = NORMAL
       ∧ queueOf (observe c f) pr.1 = queueOf c pr.1 ++ [enableCommand pr f.1]
  else isolated (observe c f) = [segmentId pr]
       ∧ status (systemState (observe c f)) = status (systemState c)
       ∧ recoveryStartTime (systemState (observe c f)) = Some start
       ∧ queueOf (observe c f) pr.1 = queueOf c pr.1.
Proof.
  intros Hin Hcalm Hr Hs Hiso. cbv zeta.
  rewrite (observe_single pr c f Hin Hcalm Hs) by (rewrite Hiso; by intros s ->%list_elem_of_singleton).
  set (st := (set_poleStates f.2 c, false)).
  assert (segmentId pr ∈ isolated st.1) as Hseg by (unfold st, isolated in *; cbn; rewrite Hiso; left).
  destruct (step_cases f.1 st pr) as [(Hm & _)|[(_ & _ & He & ->)|[(_ & _ & He & ->)|(_ & Hn & _)]]].
  - apply mismatch_not_recovering in Hm. unfold st in Hm. cbn in Hm. congruence.
  - pose proof He as He'. unfold timerElapsed in He'. cbn in He'. rewrite He'.
    destruct (tryRecover_done f.1 pr st He) as (_ & Hi & Hst & _ & _ & Hq & _).
    assert (isolated (tryRecover (queueCommand f.1) f.1 pr st).1 = []) as Hnil.
    { rewrite Hi. unfold st, isolated in *. cbn. rewrite Hiso. apply filter_out_only. }
    split; [done|]. split; [by rewrite Hst, Hnil|].
    rewrite Hq, decide_True by done. reflexivity.
  - pose proof He as He'. unfold timerElapsed in He'. cbn in He'. rewrite He'.
    destruct (tryRecover_wait f.1 pr st He) as (_ & Hi & Hst & _ & Ht & Hq & _).
    split; [by rewrite Hi|]. split; [done|]. split; [done|].
    unfold queueOf. by rewrite Hq.
  - destruct Hn; [|done]. unfold st. by cbn.
Qed.

Lemma observe_quiet pr c f :
  pr ∈ adjacentPairs POLE_ORDER → calmFor pr f.2 →
  status (systemState c) ≠ GRID_DOWN →
  (∀ s, s ∈ isolated c → s = segmentId pr) →
  (mismatch f.2 pr = true → segmentId pr ∈ isolated c) →
  (recovering f.2 pr = true → segmentId pr ∉ isolated c) →
  observe c f = set_poleStates f.2 c.
Proof.
  intros Hin Hcalm Hs Hiso Hm Hr.
  rewrite (observe_single pr c f Hin Hcalm Hs Hiso).
  set (st := (set_poleStates f.2 c, false)).
  destruct (step_cases f.1 st pr) as [(Hm' & Hn & _)|[(Hr' & Hi & _)|[(Hr' & Hi & _)|(_ & _ & ->)]]].
  - destruct Hn. by apply Hm.
  - by destruct (Hr Hr').
  - by destruct (Hr Hr').
  - reflexivity.
Qed.

Lemma observeAll_cons c f frames : observeAll c (f :: frames) = observeAll (observe c f) frames.
Proof. reflexivity. Qed.

Lemma observeAll_app c frames frames' :
  observeAll c (frames ++ frames') = observeAll (observeAll c frames) frames'.
Proof. apply fold_left_app. Qed.

Section RoundTrip.

Variable pr : string * string.
Hypothesis Hpr : pr ∈ adjacentPairs POLE_ORDER.

Implicit Types (c : Ctx) (frames : list (Z * gmap string (gmap string JsVal))).

(** Once released, the segment stays out and nothing more is queued. *)
Lemma released_stays frames c :
  isolated c = [] → status (systemState c) ≠ GRID_DOWN →
  (∀ f, f ∈ frames → calmFor pr f.2 ∧ recovering f.2 pr = true) →
  isolated (observeAll c frames) = []
  ∧ queueOf (observeAll c frames) pr.1 = queueOf c pr.1.
Proof.
  revert c. induction frames as [|f frames IH]; intros c Hiso Hs Hfr; [done|].
  rewrite observeAll_cons.
  destruct (Hfr f) as [Hcalm Hr]; [left|].
  rewrite (observe_quiet pr c f Hpr Hcalm Hs).
  - destruct (IH (set_poleStates f.2 c)) as [Hi Hq]; [done | done | | done].
    intros f' Hf'. apply Hfr. by right.
  - rewrite Hiso. by intros s ?%elem_of_nil.
  - intros Hm. apply mismatch_not_recovering in Hm. congruence.
  - rewrite Hiso. by intros _ ?%elem_of_nil.
Qed.

(** While the recovery condition holds with the timer running since
    [t0], the first frame read at [t0 + 3000] or later releases the
    segment and queues the one enable command. *)
Lemma held_until_released frames c t0 :
  isolated c = [segmentId pr] → status (systemState c) ≠ GRID_DOWN →
  recoveryStartTime (systemState c) = Some t0 → t0 ≠ 0 →
  (∀ f, f ∈ frames → calmFor pr f.2 ∧ recovering f.2 pr = true) →
  (∃ f, f ∈ frames ∧ t0 + RECOVERY_STABLE_MS ≤ f.1) →
  isolated (observeAll c frames) = []
  ∧ ∃ t, t0 + RECOVERY_STABLE_MS ≤ t
         ∧ queueOf (observeAll c frames) pr.1 = queueOf c pr.1 ++ [enableCommand pr t].
Proof.
  revert c. induction frames as [|f frames IH]; intros c Hiso Hs Ht Ht0 Hfr Hex.
  { destruct Hex as (f & []%elem_of_nil & _). }
  rewrite observeAll_cons.
  destruct (Hfr f) as [Hcalm Hr]; [left|].
  pose proof (observe_recovering pr c f Hpr Hcalm Hr Hs Hiso) as Hobs. cbv zeta in Hobs.
  assert (timerStart f.1 (recoveryStartTime (systemState c)) = t0) as Hst.
  { rewrite Ht. unfold timerStart. cbn. by rewrite (proj2 (Z.eqb_neq _ _) Ht0). }
  rewrite Hst in Hobs.
  destruct (RECOVERY_STABLE_MS <=? f.1 - t0) eqn:Hel.
  - destruct Hobs as (Hi & Hn & Hq).
    destruct (released_stays frames (observe c f)) as [Hi' Hq'].
    + done.
    + rewrite Hn. discriminate.
    + intros f' Hf'. apply Hfr. by right.
    + split; [done|]. exists f.1. apply Z.leb_le in Hel. split; [lia|].
      by rewrite Hq', Hq.
  - destruct Hobs as (Hi & Hn & Ht' & Hq).
    destruct (IH (observe c f)) as (Hi' & t & Hle & Hq'); try done.
    + by rewrite Hn.
    + intros f' Hf'. apply Hfr. by right.
    + destruct Hex as (f' & [->|Hf']%elem_of_cons & Hle); [|by eauto].
      apply Z.leb_gt in Hel. lia.
    + split; [done|]. exists t. split; [done|]. by rewrite Hq', Hq.
Qed.

(** While every frame is read less than 3000 ms after [t0], nothing is
    released. *)
Lemma held_short frames c t0 :
  isolated c = [segmentId pr] → status (systemState c) ≠ GRID_DOWN →
  recoveryStartTime (systemState c) = Some t0 → t0 ≠ 0 →
  (∀ f, f ∈ frames →
        calmFor pr f.2 ∧ recovering f.2 pr = true ∧ f.1 < t0 + RECOVERY_STABLE_MS) →
  isolated (observeAll c frames) = [segmentId pr]
  ∧ status (systemState (observeAll c frames)) ≠ GRID_DOWN
  ∧ queueOf (observeAll c frames) pr.1 = queueOf c pr.1.
Proof.
  revert c. induction frames as [|f frames IH]; intros c Hiso Hs Ht Ht0 Hfr; [done|].
  rewrite observeAll_cons.
  destruct (Hfr f) as (Hcalm & Hr & Hlt); [left|].
  pose proof (observe_recovering pr c f Hpr Hcalm Hr Hs Hiso) as Hobs. cbv zeta in Hobs.
  assert (timerStart f.1 (recoveryStartTime (systemState c)) = t0) as Hst.
  { rewrite Ht. unfold timerStart. cbn. by rewrite (proj2 (Z.eqb_neq _ _) Ht0). }
  rewrite Hst in Hobs.
  rewrite (proj2 (Z.leb_gt _ _)) in Hobs by lia.
  destruct Hobs as (Hi & Hn & Ht' & Hq).
  destruct (IH (observe c f)) as (Hi' & Hs' & Hq'); try done.
  - by rewrite Hn.
  - intros f' Hf'. apply Hfr. by right.
  - by rewrite Hq', Hq.
Qed.

End RoundTrip.

(** *** Raising a fault *)

Section Raise.

Variable now : Z.

Lemma step_keeps_fault st q s :
  s ∈ isolated st.1 → s ≠ segmentId q → status (systemState st.1) = FAULT →
  status (systemState (checkPair (queueCommand now) now st q).1) = FAULT.
Proof.
  intros Hin Hne Hs.
  destruct (step_cases now st q) as [(_ & _ & ->)|[(_ & _ & He & ->)|[(_ & _ & He & ->)|(_ & _ & ->)]]].
  - apply raiseFault_spec.
  - destruct (tryRecover_done now q st He) as (_ & Hi & -> & _).
    assert (s ∈ isolated (tryRecover (queueCommand now) now q st).1) as Hf
      by (rewrite Hi; by apply list_elem_of_filter).
    destruct (isolated (tryRecover (queueCommand now) now q st).1);
      [by apply elem_of_nil in Hf | exact Hs].
  - by destruct (tryRecover_wait now q st He) as (_ & _ & -> & _).
  - done.
Qed.

Lemma sweep_keeps_fault l st s :
  s ∈ isolated st.1 → (∀ q, q ∈ l → segmentId q ≠ s) → status (systemState st.1) = FAULT →
  status (systemState (fold_left (checkPair (queueCommand now) now) l st).1) = FAULT.
Proof.
  revert st. induction l as [|q l IH]; intros st Hin Hl Hs; [done|].
  cbn [fold_left].
  assert (s ≠ segmentId q) as Hne by (intros ->; by apply (Hl q); [left|]).
  apply IH.
  - by apply step_isolated_other.
  - intros q' Hq'. apply Hl. by right.
  - by apply (step_keeps_fault st q s).
Qed.

Lemma step_keeps_location st q s :
  settledAt [q] st → s ∈ isolated st.1 → s ≠ segmentId q →
  faultLocation (systemState (checkPair (queueCommand now) now st q).1)
  = faultLocation (systemState st.1).
Proof.
  intros Hset Hin Hne.
  destruct (step_cases now st q) as [(Hm & Hn & _)|[(_ & _ & He & ->)|[(_ & _ & He & ->)|(_ & _ & ->)]]].
  - destruct Hn. apply Hset; [left | done].
  - destruct (tryRecover_done now q st He) as (_ & Hi & _ & -> & _).
    assert (s ∈ isolated (tryRecover (queueCommand now) now q st).1) as Hf
      by (rewrite Hi; by apply list_elem_of_filter).
    destruct (isolated (tryRecover (queueCommand now) now q st).1);
      [by apply elem_of_nil in Hf | reflexivity].
  - by destruct (tryRecover_wait now q st He) as (_ & _ & _ & -> & _).
  - done.
Qed.

Lemma sweep_keeps_location l st s :
  NoDup (segmentId <$> l) → settledAt l st →
  s ∈ isolated st.1 → (∀ q, q ∈ l → segmentId q ≠ s) →
  faultLocation (systemState (fold_left (checkPair (queueCommand now) now) l st).1)
  = faultLocation (systemState st.1).
Proof.
  revert st. induction l as [|q l IH]; intros st Hnd Hset Hin Hl; [done|].
  cbn [fold_left].
  assert (s ≠ segmentId q) as Hne by (intros ->; by apply (Hl q); [left|]).
  rewrite IH.
  - apply (step_keeps_location st q s); [by eapply settled_head | done | done].
  - rewrite fmap_cons in Hnd. by apply NoDup_cons in Hnd as [_ ?].
  - by apply settled_step.
  - by apply step_isolated_other.
  - intros q' Hq'. apply Hl. by right.
Qed.

(** A run that reaches the loop and finds an unisolated mismatch. *)
Lemma runEngine_raises c pre pr post :
  adjacentPairs POLE_ORDER = pre ++ pr :: post →
  pole1Incoming (poleStates c) "LOW" = false → gridRestoring c = false →
  mismatch (poleStates c) pr = true → segmentId pr ∉ isolated c →
  let r := runEngine now c in
  segmentId pr ∈ isolated r.1
  ∧ status (systemState r.1) = FAULT
  ∧ queueOf r.1 pr.1 = queueOf c pr.1 ++ [disableCommand pr now]
  ∧ r.2 = true
  ∧ ((∀ q, q ∈ post → mismatch (poleStates c) q = true → segmentId q ∈ isolated c) →
     faultLocation (systemState r.1) = Some (segmentId pr)).
Proof.
  intros Hsplit Hlow Hng Hm Hn. cbv zeta.
  rewrite (runEngine_sweep now c Hlow Hng).
  pose proof segments_NoDup as Hnd. pose proof upstreams_NoDup as Hnu.
  rewrite Hsplit in *. clear Hsplit.
  rewrite fmap_app, fmap_cons in Hnd, Hnu.
  apply NoDup_app in Hnd as (_ & Hpre & [Hpost Hndpost]%NoDup_cons).
  apply NoDup_app in Hnu as (_ & Hupre & [Hupost _]%NoDup_cons).
  assert (∀ q, q ∈ pre → segmentId q ≠ segmentId pr) as Hpre1.
  { intros q Hq Heq. apply (Hpre (segmentId q)); [by apply list_elem_of_fmap_2|].
    rewrite Heq. left. }
  assert (∀ q, q ∈ post → segmentId q ≠ segmentId pr) as Hpost1.
  { intros q Hq Heq. apply Hpost. rewrite <- Heq. by apply list_elem_of_fmap_2. }
  assert (∀ q, q ∈ pre → q.1 ≠ pr.1) as Hupre1.
  { intros q Hq Heq. apply (Hupre q.1); [by apply list_elem_of_fmap_2|].
    rewrite Heq. left. }
  assert (∀ q, q ∈ post → q.1 ≠ pr.1) as Hupost1.
  { intros q Hq Heq. apply Hupost. rewrite <- Heq. by apply list_elem_of_fmap_2. }
  rewrite fold_left_app. cbn [fold_left].
  set (st0 := fold_left _ pre _).
  assert (poleStates st0.1 = poleStates c) as Hp0 by apply sweep_poleStates.
  assert (segmentId pr ∉ isolated st0.1) as Hn0.
  { intros Hin. apply Hn. by apply (sweep_isolated_other now pre (c, false)). }
  assert (queueOf st0.1 pr.1 = queueOf c pr.1) as Hq0
    by (by apply (sweep_queue_other now pre (c, false))).
  destruct (step_cases now st0 pr) as [(_ & _ & Heq)|[(_ & Hi & _)|[(_ & Hi & _)|(Hi & _)]]];
    [| done | done | destruct Hn0; apply Hi; by rewrite Hp0].
  destruct (raiseFault_spec now pr st0) as (Hp1 & Hi1 & Hs1 & Hl1 & _ & Hq1 & Hc1).
  rewrite <- Heq in *. set (st1 := checkPair _ _ st0 pr) in *.
  assert (segmentId pr ∈ isolated st1.1) as Hin1.
  { rewrite Hi1, elem_of_app, list_elem_of_singleton. by right. }
  split; [by apply sweep_isolated_other|].
  split; [by apply (sweep_keeps_fault post st1 (segmentId pr))|].
  split.
  { rewrite sweep_queue_other by done. rewrite Hq1, decide_True by done. by rewrite Hq0. }
  split; [by apply sweep_changed_mono|].
  intros Hquiet.
  rewrite (sweep_keeps_location post st1 (segmentId pr)); try done.
  intros q Hq Hmq. rewrite Hp1, Hp0 in Hmq.
  rewrite Hi1, elem_of_app. left.
  apply (sweep_isolated_other now pre (c, false)); [|by apply Hquiet].
  intros q' Hq' Heq'. apply (Hpre (segmentId q')); [by apply list_elem_of_fmap_2|].
  rewrite Heq'. right. by apply list_elem_of_fmap_2.
Qed.

End Raise.

Lemma observe_first pr c t0 s0 :
  pr ∈ adjacentPairs POLE_ORDER → calmFor pr s0 → recovering s0 pr = true →
  status (systemState c) ≠ GRID_DOWN → isolated c = [segmentId pr] →
  recoveryStartTime (systemState c) = None →
  isolated (observe c (t0, s0)) = [segmentId pr]
  ∧ status (systemState (observe c (t0, s0))) ≠ GRID_DOWN
  ∧ recoveryStartTime (systemState (observe c (t0, s0))) = Some t0
  ∧ queueOf (observe c (t0, s0)) pr.1 = queueOf c pr.1.
Proof.
  intros Hpr Hcalm Hr Hs Hiso Ht.
  pose proof (observe_recovering pr c (t0, s0) Hpr Hcalm Hr Hs Hiso) as Hobs.
  cbv zeta in Hobs. rewrite Ht in Hobs. unfold timerStart in Hobs. cbn in Hobs.
  rewrite Z.sub_diag in Hobs. cbn in Hobs.
  destruct Hobs as (? & Hst & ? & ?). rewrite Hst. repeat split; done.
Qed.

(** C1 (amended). A run that reaches the pair sweep (Pole1 does not report
    incoming LOW and the run is not the one that finds the grid restored)
    and finds a pair with upstream outgoing HIGH, downstream incoming LOW and
    its segment not isolated adds the segment, sets the status to FAULT,
    appends exactly one DISABLE_OUTGOING_RELAY command to the upstream pole's
    queue and reports a change; the fault location is that segment when no
    later pair is newly isolated in the same run. Then, with that segment the
    only isolated one, the timer unset, and every later run calm (Pole1 not
    LOW, no other pair mismatching): if the recovery condition holds in the
    runs from a first one at [t0] and one of them is read at [t0 + 3000] or
    later, the segment is released and exactly one ENABLE_OUTGOING_RELAY
    command is appended to the upstream pole's queue; if it holds only in
    runs read up to [t0 + 2999] and then no longer holds, the segment stays
    isolated and nothing is queued. *)
Theorem C1_isolation_round_trip :
  (∀ now c pre pr post,
     adjacentPairs POLE_ORDER = pre ++ pr :: post →
     pole1Incoming (poleStates c) "LOW" = false → gridRestoring c = false →
     mismatch (poleStates c) pr = true → segmentId pr ∉ isolated c →
     let r := runEngine now c in
     segmentId pr ∈ isolated r.1
     ∧ status (systemState r.1) = FAULT
     ∧ queueOf r.1 pr.1 = queueOf c pr.1 ++ [disableCommand pr now]
     ∧ r.2 = true
     ∧ ((∀ q, q ∈ post → mismatch (poleStates c) q = true → segmentId q ∈ isolated c) →
        faultLocation (systemState r.1) = Some (segmentId pr)))
  ∧ (∀ pr c t0 s0 rest,
       pr ∈ adjacentPairs POLE_ORDER →
       isolated c = [segmentId pr] → recoveryStartTime (systemState c) = None →
       status (systemState c) ≠ GRID_DOWN → 0 < t0 →
       (∀ f, f ∈ (t0, s0) :: rest → calmFor pr f.2 ∧ recovering f.2 pr = true) →
       (∃ f, f ∈ rest ∧ t0 + 3000 ≤ f.1) →
       let c' := observeAll c ((t0, s0) :: rest) in
       isolated c' = []
       ∧ ∃ t, t0 + 3000 ≤ t ∧ queueOf c' pr.1 = queueOf c pr.1 ++ [enableCommand pr t])
  ∧ (∀ pr c t0 s0 rest reverted,
       pr ∈ adjacentPairs POLE_ORDER →
       isolated c = [segmentId pr] → recoveryStartTime (systemState c) = None →
       status (systemState c) ≠ GRID_DOWN → 0 < t0 →
       (∀ f, f ∈ (t0, s0) :: rest →
             calmFor pr f.2 ∧ recovering f.2 pr = true ∧ f.1 ≤ t0 + 2999) →
       calmFor pr reverted.2 → recovering reverted.2 pr = false →
       let c' := observeAll c ((t0, s0) :: rest ++ [reverted]) in
       isolated c' = [segmentId pr] ∧ queueOf c' pr.1 = queueOf c pr.1).
Proof.
  split; [|split].
  - intros now c pre pr post. apply runEngine_raises.
  - intros pr c t0 s0 rest Hpr Hiso Ht Hs Ht0 Hfr Hex. cbv zeta.
    destruct (Hfr (t0, s0)) as [Hcalm Hr]; [left|].
    destruct (observe_first pr c t0 s0 Hpr Hcalm Hr Hs Hiso Ht) as (Hi1 & Hs1 & Ht1 & Hq1).
    rewrite observeAll_cons.
    destruct (held_until_released pr Hpr rest (observe c (t0, s0)) t0) as (Hi & t & Hle & Hq);
      try done; [lia | intros f Hf; apply Hfr; by right |].
    split; [done|]. exists t. split; [done|]. by rewrite Hq, Hq1.
  - intros pr c t0 s0 rest reverted Hpr Hiso Ht Hs Ht0 Hfr Hcalm' Hr'. cbv zeta.
    destruct (Hfr (t0, s0)) as (Hcalm & Hr & _); [left|].
    destruct (observe_first pr c t0 s0 Hpr Hcalm Hr Hs Hiso Ht) as (Hi1 & Hs1 & Ht1 & Hq1).
    rewrite observeAll_cons, observeAll_app.
    destruct (held_short pr Hpr rest (observe c (t0, s0)) t0) as (Hi & Hs2 & Hq);
      try done; [lia | |].
    { intros f Hf. destruct (Hfr f) as (? & ? & ?); [by right|].
      split; [done|]. split; [done|]. unfold RECOVERY_STABLE_MS. lia. }
    set (c2 := observeAll _ rest) in *.
    change (observeAll c2 [reverted]) with (observe c2 reverted).
    rewrite (observe_quiet pr c2 reverted Hpr Hcalm' Hs2).
    + split; [done|]. change (queueOf c2 pr.1 = queueOf c pr.1). by rewrite Hq, Hq1.
    + rewrite Hi. by intros s ->%list_elem_of_singleton.
    + intros _. rewrite Hi. left.
    + rewrite Hr'. discriminate.
Qed.

(** Calm stores are checked pair by pair. *)
Ltac calm :=
  split;
  [ reflexivity
  | let q := fresh "q" in
    let Hq := fresh "Hq" in
    let Hne := fresh "Hne" in
    intros q Hq Hne; rewrite adjacentPairs_POLE_ORDER in Hq;
    repeat (apply elem_of_cons in Hq as [->|Hq]);
    first [ reflexivity | by destruct Hne | by apply elem_of_nil in Hq ] ].

Lemma healed12_calm : calmFor ("Pole1", "Pole2") (list_to_map Samples.healed12).
Proof. calm. Qed.

Lemma cut12_calm : calmFor ("Pole1", "Pole2") (list_to_map Samples.cut12).
Proof. calm. Qed.

Lemma pair12_adjacent : ("Pole1", "Pole2") ∈ adjacentPairs POLE_ORDER.
Proof. rewrite adjacentPairs_POLE_ORDER. left. Qed.

(** The wire between Pole1 and Pole2 is cut at 1000; power is back from
    2000; the run at 5000 releases the segment, while a relapse at 5000
    after runs at 2000 and 4999 leaves it isolated. *)
Lemma C1_witness :
  let c := Samples.holding Samples.cut12 (baseline real) in
  let pr := ("Pole1", "Pole2") in
  let c1 := (runEngine 1000 c).1 in
  let healed := list_to_map Samples.healed12 in
  let cut := list_to_map Samples.cut12 in
  (segmentId pr ∈ isolated c1
   ∧ status (systemState c1) = FAULT
   ∧ queueOf c1 "Pole1" = [disableCommand pr 1000]
   ∧ faultLocation (systemState c1) = Some "Pole1-Pole2")
  ∧ (isolated (observeAll c1 [(2000, healed); (5000, healed)]) = []
     ∧ ∃ t, 5000 ≤ t
            ∧ queueOf (observeAll c1 [(2000, healed); (5000, healed)]) "Pole1"
              = [disableCommand pr 1000; enableCommand pr t])
  ∧ (isolated (observeAll c1 [(2000, healed); (4999, healed); (5000, cut)]) = ["Pole1-Pole2"]
     ∧ queueOf (observeAll c1 [(2000, healed); (4999, healed); (5000, cut)]) "Pole1"
       = [disableCommand pr 1000]).
Proof.
  cbv zeta.
  destruct C1_isolation_round_trip as (Hraise & Hrelease & Hshort).
  split; [|split].
  - destruct (Hraise 1000 (Samples.holding Samples.cut12 (baseline real))
                [] ("Pole1", "Pole2") [("Pole2", "Pole3"); ("Pole3", "Pole4")]
                eq_refl eq_refl eq_refl eq_refl (not_elem_of_nil _))
      as (Hin & Hst & Hq & _ & Hloc).
    split; [exact Hin|]. split; [exact Hst|]. split; [exact Hq|].
    apply Hloc. intros q Hq'.
    repeat (apply elem_of_cons in Hq' as [->|Hq']); try discriminate.
    by apply elem_of_nil in Hq'.
  - apply (Hrelease ("Pole1", "Pole2")
             (runEngine 1000 (Samples.holding Samples.cut12 (baseline real))).1
             2000 (list_to_map Samples.healed12) [(5000, list_to_map Samples.healed12)]
             pair12_adjacent eq_refl eq_refl).
    + discriminate.
    + lia.
    + intros f Hf. repeat (apply elem_of_cons in Hf as [->|Hf]);
        [split; [apply healed12_calm | reflexivity] ..| by apply elem_of_nil in Hf].
    + exists (5000, list_to_map Samples.healed12). split; [left | simpl; lia].
  - apply (Hshort ("Pole1", "Pole2")
             (runEngine 1000 (Samples.holding Samples.cut12 (baseline real))).1
             2000 (list_to_map Samples.healed12) [(4999, list_to_map Samples.healed12)]
             (5000, list_to_map Samples.cut12)
             pair12_adjacent eq_refl eq_refl).
    + discriminate.
    + lia.
    + intros f Hf. repeat (apply elem_of_cons in Hf as [->|Hf]);
        [split; [apply healed12_calm | split; [reflexivity | simpl; lia]] ..
        | by apply elem_of_nil in Hf].
    + apply cut12_calm.
    + reflexivity.
Defined.

(** The claim as stated fails where the code takes another path by design.
    With the grid reported down at Pole1 the run returns before the loop:
    the pair Pole1-Pole2 shows the mismatch, yet nothing is isolated and
    nothing is queued. With two wires cut at once the fault location left
    by the run is the later segment, not Pole1-Pole2. And with two segments
    isolated and both healed, three seconds of recovery release only the
    first: the second shares the timer and starts over. *)
Lemma C1_counterexample :
  (let c := Samples.holding Samples.gridLost (baseline real) in
   mismatch (poleStates c) ("Pole1", "Pole2") = true
   ∧ isolated c = []
   ∧ isolated (runEngine 1000 c).1 = []
   ∧ queueOf (runEngine 1000 c).1 "Pole1" = [])
  ∧ (let c := Samples.holding Samples.cut12and23 (baseline real) in
     mismatch (poleStates c) ("Pole1", "Pole2") = true
     ∧ isolated c = []
     ∧ faultLocation (systemState (runEngine 1000 c).1) = Some "Pole2-Pole3")
  ∧ (let c := Samples.holding Samples.cut12and23
                (Samples.withStatus FAULT ["Pole1-Pole2"; "Pole2-Pole3"] None) in
     let healed := list_to_map Samples.healed12and23 in
     recovering healed ("Pole2", "Pole3") = true
     ∧ isolated (observeAll c [(1000, healed); (2500, healed); (4000, healed)])
       = ["Pole2-Pole3"]).
Proof. repeat split; reflexivity. Qed.

(** ** The staleness sweep *)

Section Staleness.

Variable now : Z.

Implicit Types (c : Ctx) (p q : string) (l : list string).

Lemma stalePole_spec c a w q :
  let r := stalePole now (c, a, w) q in
  systemState r.1.1 = systemState c
  ∧ pendingCommands r.1.1 = pendingCommands c
  ∧ type r.1.1 = type c ∧ io r.1.1 = io c ∧ emitted r.1.1 = emitted c
  ∧ (r.1.2 = true ↔ a = true ∨ freshAt now c q)
  ∧ (r.2 = true ↔ w = true ∨ (staleAt now c q ∧ is_Some (poleStates c !! q)))
  ∧ (staleAt now c q → poleStates r.1.1 !! q = None)
  ∧ (∀ p, poleStates c !! p = None → poleStates r.1.1 !! p = None)
  ∧ (∀ p, p ≠ q → poleStates r.1.1 !! p = poleStates c !! p ∧ lastSeen r.1.1 p = lastSeen c p).
Proof.
  cbv zeta. unfold stalePole, staleAt, freshAt, lastSeen.
  destruct (0 <? default 0 (lastUpdateTime c !! q)) eqn:Hseen;
    [apply Z.ltb_lt in Hseen | apply Z.ltb_ge in Hseen];
    [destruct (STALE_TIMEOUT_MS <? now - default 0 (lastUpdateTime c !! q)) eqn:Hold;
      [apply Z.ltb_lt in Hold | apply Z.ltb_ge in Hold];
      [destruct (poleStates c !! q) as [snap|] eqn:Hsnap|] |];
    cbn; repeat split; try done; intros;
    rewrite ?lookup_delete_ne, ?lookup_insert_ne by done; try done.
  all: try (destruct (decide (p = q)) as [->|Hne];
            [apply lookup_delete_eq | by rewrite lookup_delete_ne]).
  all: try apply lookup_delete_eq.
  all: try (intuition (try discriminate; try lia; eauto)).
  match goal with H : is_Some None |- _ => by destruct H end.
Qed.

Lemma stale_fold l : NoDup l → ∀ c a w,
  let r := fold_left (stalePole now) l (c, a, w) in
  systemState r.1.1 = systemState c
  ∧ pendingCommands r.1.1 = pendingCommands c
  ∧ type r.1.1 = type c ∧ io r.1.1 = io c ∧ emitted r.1.1 = emitted c
  ∧ (r.1.2 = true ↔ a = true ∨ ∃ p, p ∈ l ∧ freshAt now c p)
  ∧ (r.2 = true ↔ w = true ∨ ∃ p, p ∈ l ∧ staleAt now c p ∧ is_Some (poleStates c !! p))
  ∧ (∀ p, p ∈ l → staleAt now c p → poleStates r.1.1 !! p = None)
  ∧ (∀ p, poleStates c !! p = None → poleStates r.1.1 !! p = None)
  ∧ (∀ p, p ∉ l → poleStates r.1.1 !! p = poleStates c !! p ∧ lastSeen r.1.1 p = lastSeen c p).
Proof.
  induction l as [|q l IH]; intros Hnd c a w; cbv zeta.
  { cbn. repeat split; try done; try tauto.
    - intros [?|(p & []%elem_of_nil & _)]. done.
    - intros [?|(p & []%elem_of_nil & _)]. done.
    - by intros p ?%elem_of_nil. }
  apply NoDup_cons in Hnd as [Hq Hnd]. cbn [fold_left].
  destruct (stalePole now (c, a, w) q) as [[c1 a1] w1] eqn:Hstep.
  pose proof (stalePole_spec c a w q) as Hs. cbv zeta in Hs. rewrite Hstep in Hs.
  cbn [fst snd] in Hs.
  destruct Hs as (Hss & Hpc & Hty & Hio & Hem & Ha & Hw & Hst & Hnone & Hoth).
  specialize (IH Hnd c1 a1 w1). cbv zeta in IH.
  destruct IH as (Hss' & Hpc' & Hty' & Hio' & Hem' & Ha' & Hw' & Hst' & Hnone' & Hoth').
  assert (∀ p, p ∈ l → lastSeen c1 p = lastSeen c p ∧ poleStates c1 !! p = poleStates c !! p)
    as Hsame.
  { intros p Hp. destruct (Hoth p) as [? ?]; [by intros -> | done]. }
  split; [congruence|]. split; [congruence|]. split; [congruence|].
  split; [congruence|]. split; [congruence|].
  split; [|split; [|split; [|split]]].
  - rewrite Ha', Ha. split.
    + intros [[?|?]|(p & Hp & Hf)]; [by left | right; exists q; split; [left|done] |].
      right. exists p. split; [by right|]. unfold freshAt in *.
      by destruct (Hsame p Hp) as [<- _].
    + intros [?|(p & [->|Hp]%elem_of_cons & Hf)]; [by left; left | by left; right |].
      right. exists p. split; [done|]. unfold freshAt in *.
      by destruct (Hsame p Hp) as [-> _].
  - rewrite Hw', Hw. split.
    + intros [[?|?]|(p & Hp & Hf)]; [by left | right; exists q; split; [left|done] |].
      right. exists p. split; [by right|]. unfold staleAt in *.
      by destruct (Hsame p Hp) as [<- <-].
    + intros [?|(p & [->|Hp]%elem_of_cons & Hf)]; [by left; left | by left; right |].
      right. exists p. split; [done|]. unfold staleAt in *.
      by destruct (Hsame p Hp) as [-> ->].
  - intros p [->|Hp]%elem_of_cons Hstale.
    + by apply Hnone', Hst.
    + apply Hst'; [done|]. unfold staleAt in *. by destruct (Hsame p Hp) as [-> _].
  - intros p Hp. by apply Hnone', Hnone.
  - intros p [Hne Hp]%not_elem_of_cons.
    destruct (Hoth' p Hp) as [-> ->]. by apply Hoth.
Qed.

End Staleness.

Lemma queueOf_reset c p : queueOf (reset c) p = [].
Proof.
  unfold reset. rewrite !queueOf_emit. unfold queueOf. cbn [pendingCommands].
  destruct (emptyQueues !! p) as [l|] eqn:Hl; [|reflexivity].
  apply elem_of_list_to_map_2 in Hl. cbn in Hl.
  repeat (apply elem_of_cons in Hl as [[= _ <-]|Hl]; [reflexivity|]).
  by apply elem_of_nil in Hl.
Qed.

Lemma poleStates_broadcast c l :
  poleStates (fold_left (λ acc poleId, emit evPoleUpdate (Some poleId) acc) l c) = poleStates c.
Proof.
  revert c. induction l as [|q l IH]; intros c; [reflexivity|].
  cbn [fold_left]. by rewrite IH, emit_poleStates.
Qed.

(** One firing of the callback. A staleness sweep nulls the snapshot of
    every pole of the chain last seen more than 15 s ago; and if the sweep
    nulled at least one snapshot and no pole is fresh (seen within the last
    15 s), that same sweep resets the system state to the baseline of the
    context (status WAITING for the real context, SIM_IDLE for the
    simulation, nothing isolated), empties every command queue and leaves
    no snapshot. *)
Lemma stalenessCheck_guard (now : Z) (c : Ctx) :
  let c' := stalenessCheck now c in
  (∀ p, p ∈ POLE_ORDER → staleAt now c p → poleStates c' !! p = None)
  ∧ ((∃ p, p ∈ POLE_ORDER ∧ staleAt now c p ∧ is_Some (poleStates c !! p)) →
     (∀ p, p ∈ POLE_ORDER → ¬ freshAt now c p) →
     systemState c' = baseline (type c)
     ∧ status (systemState c') = match type c with real => WAITING | sim => SIM_IDLE end
     ∧ isolated c' = []
     ∧ (∀ p, queueOf c' p = [])
     ∧ poleStates c' = ∅).
Proof.
  cbv zeta. unfold stalenessCheck.
  assert (NoDup POLE_ORDER) as Hnd by compute_done.
  pose proof (stale_fold now POLE_ORDER Hnd c false false) as Hf. cbv zeta in Hf.
  destruct (fold_left (stalePole now) POLE_ORDER (c, false, false)) as [[c1 anyActive] anyWentStale].
  cbn [fst snd] in Hf.
  destruct Hf as (Hss & Hpc & Hty & Hio & Hem & Ha & Hw & Hst & _ & _).
  split.
  - intros p Hp Hstale.
    destruct (anyWentStale && negb anyActive); [|destruct (anyWentStale && io c1)].
    + unfold reset. by rewrite !emit_poleStates.
    + rewrite poleStates_broadcast, emit_poleStates. by apply Hst.
    + by apply Hst.
  - intros Hstale Hnofresh.
    assert (anyWentStale = true) as -> by (apply Hw; by right).
    assert (anyActive = false) as ->.
    { destruct anyActive; [|done]. destruct Ha as [[?|(p & Hp & Hfr)] _]; [done | done |].
      by destruct (Hnofresh p Hp). }
    cbn [andb negb].
    assert (systemState (reset c1) = baseline (type c)) as Hbase.
    { unfold reset. rewrite !emit_systemState. cbn. by rewrite Hty. }
    split; [done|]. unfold isolated. rewrite Hbase.
    split; [by destruct (type c)|]. split; [done|].
    split; [apply queueOf_reset|].
    unfold reset. by rewrite !emit_poleStates.
Qed.

(** The claim as stated fails when no pole is fresh but none went stale in
    the sweep either: the guard [anyWentStale && !anyActive] does not fire
    and the queued command stays. *)
Lemma C6_counterexample :
  let c := StaleSamples.neverSeen in
  (∀ p, p ∈ POLE_ORDER → ¬ freshAt 100000 c p)
  ∧ poleStates (stalenessCheck 100000 c) = ∅
  ∧ queueOf (stalenessCheck 100000 c) "Pole2"
    = [mkCommand (JStr "DISABLE_OUTGOING_RELAY") (JStr "Manual command") 1000 "PENDING"].
Proof.
  cbv zeta. split; [|split; reflexivity].
  intros p _ [Hseen _]. unfold lastSeen in Hseen.
  change (lastUpdateTime StaleSamples.neverSeen) with (∅ : gmap string Z) in Hseen.
  rewrite lookup_empty in Hseen. cbn in Hseen. lia.
Qed.

(** ** The coordination routes *)

Lemma isTrue_true v : isTrue v = true ↔ v = JBool true.
Proof. destruct v as [| |[]| | |]; cbn; split; congruence. Qed.

Lemma sameData_attachIO c : sameData c (attachIO c).
Proof. unfold attachIO, sameData. by destruct (io c). Qed.

Lemma ensureManagerIO_data appIo srv :
  mode (ensureManagerIO appIo srv) = mode srv
  ∧ sameData (RealSystem srv) (RealSystem (ensureManagerIO appIo srv))
  ∧ sameData (SimSystem srv) (SimSystem (ensureManagerIO appIo srv)).
Proof.
  unfold ensureManagerIO. destruct appIo; cbn.
  - split; [reflexivity|]. split; apply sameData_attachIO.
  - unfold sameData. repeat split; reflexivity.
Qed.

Lemma updatePole_poleStates now p d c :
  poleStates (updatePole now p d c) = <[p := d]> (poleStates c).
Proof.
  unfold updatePole. destruct (runEngine now _).2;
    by rewrite ?emit_poleStates, runEngine_poleStates.
Qed.

Section RouteFacts.

Context `{Host}.

(** The gate as the handler tests it: any publish in mode IDLE,
    [isSimulation === true] in mode REAL, anything else in mode SIM is
    answered with a 403 error, and the snapshots, command queues, last-seen
    times and system state of both contexts are as before. *)
Lemma strict_flag_gate (appIo : bool) (now : Z) (body : gmap string JsVal) (srv : Server) :
  mode srv = IDLE
  ∨ (mode srv = REAL ∧ get body "isSimulation" = JBool true)
  ∨ (mode srv = SIM ∧ get body "isSimulation" ≠ JBool true) →
  let r := postState appIo now body srv in
  (∃ message, r.2 = RError 403 message)
  ∧ mode r.1 = mode srv
  ∧ sameData (RealSystem srv) (RealSystem r.1)
  ∧ sameData (SimSystem srv) (SimSystem r.1).
Proof.
  intros Hmis. cbv zeta. unfold postState.
  destruct (ensureManagerIO_data appIo srv) as (Hmode & Hreal & Hsim).
  rewrite Hmode.
  assert (∃ message, modeGate (mode srv) (isTrue (get body "isSimulation"))
                     = Some (RError 403 message)) as [message ->].
  { destruct Hmis as [->|[[-> Hsimflag]|[-> Hsimflag]]]; cbn.
    - eauto.
    - rewrite Hsimflag. cbn. eauto.
    - destruct (isTrue _) eqn:E; [by apply isTrue_true in E|]. cbn. eauto. }
  cbn. eauto.
Qed.

(** C10. An accepted publish stores [stateData], in which every property
    of the request body, canonical or not, has the body's value: the
    spread comes last and overrides the sanitised field. *)
Theorem C10_body_overrides (appIo : bool) (now : Z) (body : gmap string JsVal)
    (srv : Server) (k : string) (v : JsVal) :
  modeGate (mode srv) (isTrue (get body "isSimulation")) = None →
  body !! k = Some v →
  let r := postState appIo now body srv in
  let manager := if truthy (get body "isSimulation") then SimSystem r.1 else RealSystem r.1 in
  r.2 = RSuccess None
  ∧ poleStates manager !! toPropertyKey (get body "poleId") = Some (stateData now body)
  ∧ stateData now body !! k = Some v.
Proof.
  intros Hgate Hk. cbv zeta. unfold postState.
  destruct (ensureManagerIO_data appIo srv) as (Hmode & _). rewrite Hmode, Hgate.
  assert (stateData now body !! k = Some v) as Hstored
    by (unfold stateData, spread; by apply lookup_union_Some_l).
  destruct (truthy (get body "isSimulation")); cbn;
    rewrite updatePole_poleStates, lookup_insert_eq; auto.
Qed.

End RouteFacts.

(** In mode REAL a simulator publish is refused and leaves both contexts
    alone. *)
Lemma strict_flag_gate_example :
  let r := postState (H := ExampleHost.host) true 1000 RouteSamples.simPublish
             (RouteSamples.fresh REAL) in
  r.2 = RError 403 "REAL mode active"
  ∧ poleStates (SimSystem r.1) = ∅ ∧ poleStates (RealSystem r.1) = ∅.
Proof.
  cbv zeta.
  destruct (strict_flag_gate (H := ExampleHost.host) true 1000 RouteSamples.simPublish
              (RouteSamples.fresh REAL) (or_intror (or_introl (conj eq_refl eq_refl))))
    as (_ & _ & (Hreal & _) & (Hsim & _)).
  split; [reflexivity|]. split; [exact Hsim | exact Hreal].
Defined.

(** A Pole4 publish that carries [outgoingCurrent] and an arbitrary
    [nodeState]: the sanitised fields say N/A and would default the state,
    the stored snapshot has the body's values. *)
Lemma C10_witness :
  let body := RouteSamples.overridingPublish in
  let r := postState (H := ExampleHost.host) false 1000 body (RouteSamples.fresh REAL) in
  sanitized (H := ExampleHost.host) 1000 body !! "outgoingCurrent" = Some (JStr "N/A")
  ∧ (∃ snap, poleStates (RealSystem r.1) !! "Pole4" = Some snap
             ∧ snap !! "outgoingCurrent" = Some (JStr "HIGH")
             ∧ snap !! "nodeState" = Some (JStr "BANANA")
             ∧ snap !! "incomingCurrent" = Some (JStr "HIGH")).
Proof.
  cbv zeta. split; [reflexivity|].
  destruct (C10_body_overrides (H := ExampleHost.host) false 1000
              RouteSamples.overridingPublish (RouteSamples.fresh REAL)
              "outgoingCurrent" (JStr "HIGH") eq_refl eq_refl) as (_ & Hstored & Hout).
  exists (stateData (H := ExampleHost.host) 1000 RouteSamples.overridingPublish).
  split; [exact Hstored|]. split; [exact Hout|]. split; reflexivity.
Defined.

(** C9, the code at the failing input. A publish and an admin command that
    name "Pole9" are both answered with success: the publish creates a
    snapshot and a last-seen entry under that name, the command creates a
    queue for it. The two GET routes of the same file refuse the name. *)
Lemma C9_unknown_pole_accepted :
  let srv := RouteSamples.fresh REAL in
  let published := postState (H := ExampleHost.host) false 1000 RouteSamples.strayPublish srv in
  let commanded := postCommand (H := ExampleHost.host) false 1000 RouteSamples.strayCommand srv in
  ("Pole9" ∉ POLE_ORDER)
  ∧ published.2 = RSuccess None
  ∧ is_Some (poleStates (RealSystem published.1) !! "Pole9")
  ∧ lastUpdateTime (RealSystem published.1) !! "Pole9" = Some 1000
  ∧ commanded.2 = RSuccess (Some "Command queued")
  ∧ pendingCommands (RealSystem commanded.1) !! "Pole9"
    = Some [mkCommand (JStr "DISABLE_OUTGOING_RELAY") (JStr "Manual command") 1000 "PENDING"]
  ∧ (getState false "Pole9" false srv).2 = RError 400 "Invalid poleId"
  ∧ (getCommandsRoute false "Pole9" false srv).2 = RError 400 "Invalid poleId".
Proof.
  cbv zeta. split; [compute_done|].
  split; [reflexivity|]. split; [by eexists|]. repeat split; reflexivity.
Qed.

(** C7, the code at the failing input. In mode REAL a publish whose
    [isSimulation] is the string "yes" declares the simulation context (the
    handler picks the manager by the truthiness of the flag) and so does not
    match the mode, but the gate tests [isSimulation === true]: the publish
    passes, is answered with success, and its snapshot and last-seen time
    are written to the simulation context. *)
Lemma C7_loose_flag_passes_gate :
  let body := RouteSamples.looseFlagPublish in
  let srv := RouteSamples.fresh REAL in
  let r := postState (H := ExampleHost.host) false 1000 body srv in
  get body "isSimulation" = JStr "yes"
  ∧ truthy (get body "isSimulation") = true
  ∧ modeGate (mode srv) (isTrue (get body "isSimulation")) = None
  ∧ r.2 = RSuccess None
  ∧ mode r.1 = REAL
  ∧ poleStates (RealSystem r.1) = ∅
  ∧ poleStates (SimSystem srv) = ∅
  ∧ (∃ snap, poleStates (SimSystem r.1) !! "Pole2" = Some snap
             ∧ get snap "incomingCurrent" = JStr "HIGH")
  ∧ lastUpdateTime (SimSystem r.1) !! "Pole2" = Some 1000.
Proof.
  cbv zeta. repeat (split; [reflexivity|]).
  split; [|reflexivity]. eexists. split; reflexivity.
Qed.

(** C4, the code at the failing input. The segment Pole1-Pole2 is isolated;
    the recovery condition holds in the run at 1000, is broken in the run at
    2000 (Pole2 incoming LOW again) and holds again in the run at 4000. The
    timer started at 1000 is still there after the interruption, so the run
    at 4000 releases the segment and queues the enable command. *)
Lemma C4_timer_survives_interruption :
  let c := Samples.holding Samples.healed12 (Samples.withStatus FAULT ["Pole1-Pole2"] None) in
  let healed := list_to_map Samples.healed12 in
  let cut := list_to_map Samples.cut12 in
  let interrupted := observeAll c [(1000, healed); (2000, cut)] in
  let c' := observeAll c [(1000, healed); (2000, cut); (4000, healed)] in
  recovering cut ("Pole1", "Pole2") = false
  ∧ isolated interrupted = ["Pole1-Pole2"]
  ∧ recoveryStartTime (systemState interrupted) = Some 1000
  ∧ isolated c' = []
  ∧ queueOf c' "Pole1" = [enableCommand ("Pole1", "Pole2") 4000].
Proof. repeat split; reflexivity. Qed.

(** ** The node state machine *)

Section NodeFacts.

Import Node NodeRun NodeSamples.

Lemma ulong_sub_small a b : 0 ≤ a - b < 2 ^ 32 → ulong_sub a b = a - b.
Proof. intros Hr. unfold ulong_sub. by apply Z.mod_small. Qed.

(** *** The first node in NORMAL *)

Lemma normal_low_tick g t s :
  currentState g = STATE_NORMAL → inVal s ≤ CURRENT_THRESHOLD →
  let start := if faultStartTime g =? 0 then t else faultStartTime g in
  let g' := controlTick 1 g (t, s) in
  relayInEnabled g' = relayInEnabled g ∧ relayOutEnabled g' = relayOutEnabled g
  ∧ if DEBOUNCE_MS <=? ulong_sub t start
    then currentState g' = STATE_GRID_DOWN ∧ faultStartTime g' = 0
    else currentState g' = STATE_NORMAL ∧ faultStartTime g' = start.
Proof.
  intros Hs Hlow. cbv zeta.
  unfold controlTick, runStateMachine, readVoltageCurrent, readCurrentSensors. cbn.
  rewrite Hs. unfold handleNormalState. cbn.
  rewrite (proj2 (Z.ltb_ge _ _) Hlow). cbn. unfold debounce. cbn.
  destruct (faultStartTime g =? 0) eqn:E; cbn;
    (destruct (DEBOUNCE_MS <=? ulong_sub t _) eqn:E'; cbn; rewrite ?E'; auto).
Qed.

Lemma normal_high_tick g t s :
  currentState g = STATE_NORMAL → CURRENT_THRESHOLD < inVal s →
  let g' := controlTick 1 g (t, s) in
  currentState g' = STATE_NORMAL ∧ faultStartTime g' = 0.
Proof.
  intros Hs Hhigh. cbv zeta.
  unfold controlTick, runStateMachine, readVoltageCurrent, readCurrentSensors. cbn.
  rewrite Hs. unfold handleNormalState. cbn.
  rewrite (proj2 (Z.ltb_lt _ _) Hhigh). cbn.
  destruct (_ || _); cbn; auto.
Qed.

Lemma grid_down_low_tick g t s :
  currentState g = STATE_GRID_DOWN → inVal s ≤ CURRENT_THRESHOLD →
  let g' := controlTick 1 g (t, s) in
  currentState g' = STATE_GRID_DOWN
  ∧ relayInEnabled g' = relayInEnabled g ∧ relayOutEnabled g' = relayOutEnabled g.
Proof.
  intros Hs Hlow. cbv zeta.
  unfold controlTick, runStateMachine, readVoltageCurrent, readCurrentSensors. cbn.
  rewrite Hs. unfold handleGridDownState. cbn.
  rewrite (proj2 (Z.ltb_ge _ _) Hlow). cbn. auto.
Qed.

Lemma grid_down_stays ticks g :
  currentState g = STATE_GRID_DOWN →
  (∀ tk, tk ∈ ticks → inVal tk.2 ≤ CURRENT_THRESHOLD) →
  let g' := fold_left (controlTick 1) ticks g in
  currentState g' = STATE_GRID_DOWN
  ∧ relayInEnabled g' = relayInEnabled g ∧ relayOutEnabled g' = relayOutEnabled g.
Proof.
  revert g. induction ticks as [|[t s] ticks IH]; intros g Hs Hlow; cbv zeta; [done|].
  cbn [fold_left].
  destruct (grid_down_low_tick g t s Hs) as (Hs' & Hin & Hout); [by apply (Hlow (t, s)); left|].
  destruct (IH (controlTick 1 g (t, s)) Hs') as (? & ? & ?);
    [intros tk Htk; apply Hlow; by right|].
  repeat split; congruence.
Qed.

(** With the timer running since [t0]: the first tick read 500 ms or more
    after [t0] trips, and the state is GRID_DOWN from then on. *)
Lemma debounce_trips ticks g t0 :
  currentState g = STATE_NORMAL → faultStartTime g = t0 → 0 < t0 →
  (∀ tk, tk ∈ ticks → inVal tk.2 ≤ CURRENT_THRESHOLD ∧ t0 ≤ tk.1 < 2 ^ 32) →
  (∃ tk, tk ∈ ticks ∧ t0 + DEBOUNCE_MS ≤ tk.1) →
  let g' := fold_left (controlTick 1) ticks g in
  currentState g' = STATE_GRID_DOWN
  ∧ relayInEnabled g' = relayInEnabled g ∧ relayOutEnabled g' = relayOutEnabled g.
Proof.
  revert g. induction ticks as [|[t s] ticks IH]; intros g Hs Ht Ht0 Hticks Hex; cbv zeta.
  { destruct Hex as (tk & []%elem_of_nil & _). }
  cbn [fold_left].
  destruct (Hticks (t, s)) as [Hlow Hrange]; [left|]. cbn [fst snd] in *.
  pose proof (normal_low_tick g t s Hs Hlow) as Hstep. cbv zeta in Hstep.
  rewrite Ht, (proj2 (Z.eqb_neq _ _)) in Hstep by lia.
  rewrite ulong_sub_small in Hstep by (change (2 ^ 32) with 4294967296 in *; lia).
  destruct Hstep as (Hin & Hout & Hstep).
  destruct (DEBOUNCE_MS <=? t - t0) eqn:Htrip.
  - destruct Hstep as [Hs' _].
    destruct (grid_down_stays ticks (controlTick 1 g (t, s)) Hs') as (? & ? & ?).
    + intros tk Htk. apply Hticks. by right.
    + repeat split; congruence.
  - destruct Hstep as [Hs' Ht'].
    destruct (IH (controlTick 1 g (t, s)) Hs' Ht' Ht0) as (? & ? & ?).
    + intros tk Htk. apply Hticks. by right.
    + destruct Hex as (tk & [->|Htk]%elem_of_cons & Hle); [|by eauto].
      apply Z.leb_gt in Htrip. cbn in Hle. lia.
    + repeat split; congruence.
Qed.

(** With the timer running since [t0]: ticks read less than 500 ms after
    [t0] leave the node in NORMAL with the timer as it is. *)
Lemma debounce_holds ticks g t0 :
  currentState g = STATE_NORMAL → faultStartTime g = t0 → 0 < t0 →
  (∀ tk, tk ∈ ticks → inVal tk.2 ≤ CURRENT_THRESHOLD ∧ t0 ≤ tk.1 < t0 + DEBOUNCE_MS) →
  let g' := fold_left (controlTick 1) ticks g in
  currentState g' = STATE_NORMAL ∧ faultStartTime g' = t0.
Proof.
  revert g. induction ticks as [|[t s] ticks IH]; intros g Hs Ht Ht0 Hticks; cbv zeta; [done|].
  cbn [fold_left].
  destruct (Hticks (t, s)) as [Hlow Hrange]; [left|]. cbn [fst snd] in *.
  pose proof (normal_low_tick g t s Hs Hlow) as Hstep. cbv zeta in Hstep.
  rewrite Ht, (proj2 (Z.eqb_neq _ _)) in Hstep by lia.
  rewrite ulong_sub_small in Hstep
    by (unfold DEBOUNCE_MS in *; change (2 ^ 32) with 4294967296; lia).
  destruct Hstep as (_ & _ & Hstep).
  rewrite (proj2 (Z.leb_gt _ _)) in Hstep by lia.
  destruct Hstep as [Hs' Ht'].
  apply IH; try done. intros tk Htk. apply Hticks. by right.
Qed.

(** The first node in NORMAL with an idle debounce timer, ticked from
    [t0]: while the incoming current reads low in every tick, the tick
    read 500 ms or more after [t0] puts it in GRID_DOWN and both relays
    are as they were; if it reads low only in ticks up to [t0 + 499] and
    then reads high, the node is in NORMAL throughout and the timer is
    back at zero (times are [millis()] readings, positive and below
    2^32). *)
Lemma debounce_from_idle_timer :
  (∀ g t0 s0 rest,
     currentState g = STATE_NORMAL → faultStartTime g = 0 → 0 < t0 →
     (∀ tk, tk ∈ (t0, s0) :: rest →
            inVal tk.2 ≤ CURRENT_THRESHOLD ∧ t0 ≤ tk.1 < 2 ^ 32) →
     (∃ tk, tk ∈ rest ∧ t0 + 500 ≤ tk.1) →
     let g' := fold_left (controlTick 1) ((t0, s0) :: rest) g in
     currentState g' = STATE_GRID_DOWN
     ∧ relayInEnabled g' = relayInEnabled g ∧ relayOutEnabled g' = relayOutEnabled g)
  ∧ (∀ g t0 s0 rest back,
       currentState g = STATE_NORMAL → faultStartTime g = 0 → 0 < t0 →
       (∀ tk, tk ∈ (t0, s0) :: rest →
              inVal tk.2 ≤ CURRENT_THRESHOLD ∧ t0 ≤ tk.1 ≤ t0 + 499) →
       CURRENT_THRESHOLD < inVal back.2 →
       let low := fold_left (controlTick 1) ((t0, s0) :: rest) g in
       let g' := controlTick 1 low back in
       currentState low = STATE_NORMAL
       ∧ currentState g' = STATE_NORMAL ∧ faultStartTime g' = 0).
Proof.
  assert (∀ g t0 s0, currentState g = STATE_NORMAL → faultStartTime g = 0 → 0 < t0 →
            inVal s0 ≤ CURRENT_THRESHOLD →
            let g1 := controlTick 1 g (t0, s0) in
            currentState g1 = STATE_NORMAL ∧ faultStartTime g1 = t0
            ∧ relayInEnabled g1 = relayInEnabled g
            ∧ relayOutEnabled g1 = relayOutEnabled g) as Hfirst.
  { intros g t0 s0 Hs Ht Ht0 Hlow. cbv zeta.
    pose proof (normal_low_tick g t0 s0 Hs Hlow) as Hstep. cbv zeta in Hstep.
    rewrite Ht in Hstep. cbn [Z.eqb] in Hstep.
    replace (ulong_sub t0 t0) with 0 in Hstep
      by (unfold ulong_sub; rewrite Z.sub_diag; reflexivity).
    change (DEBOUNCE_MS <=? 0) with false in Hstep. cbv iota in Hstep. tauto. }
  split.
  - intros g t0 s0 rest Hs Ht Ht0 Hticks Hex. cbv zeta. cbn [fold_left].
    destruct (Hticks (t0, s0)) as [Hlow _]; [left|].
    destruct (Hfirst g t0 s0 Hs Ht Ht0 Hlow) as (Hs1 & Ht1 & Hin1 & Hout1).
    destruct (debounce_trips rest (controlTick 1 g (t0, s0)) t0 Hs1 Ht1 Ht0) as (? & ? & ?).
    + intros tk Htk. apply Hticks. by right.
    + done.
    + repeat split; congruence.
  - intros g t0 s0 rest back Hs Ht Ht0 Hticks Hback. cbv zeta. cbn [fold_left].
    destruct (Hticks (t0, s0)) as [Hlow _]; [left|].
    destruct (Hfirst g t0 s0 Hs Ht Ht0 Hlow) as (Hs1 & Ht1 & _).
    destruct (debounce_holds rest (controlTick 1 g (t0, s0)) t0 Hs1 Ht1 Ht0) as [Hs2 _].
    + intros tk Htk. destruct (Hticks tk) as [? ?]; [by right|].
      unfold DEBOUNCE_MS. split; [done | lia].
    + split; [done|]. destruct back as [t s]. by apply normal_high_tick.
Qed.

(** Low from 1000: the tick at 1500 trips. Low at 1000 and 1499, high at
    1500: nothing trips. *)
Lemma debounce_from_idle_timer_example :
  (let g' := fold_left (controlTick 1)
               [(1000, unpowered); (1250, unpowered); (1500, unpowered)] booted in
   currentState g' = STATE_GRID_DOWN
   ∧ relayInEnabled g' = true ∧ relayOutEnabled g' = true)
  ∧ (let low := fold_left (controlTick 1) [(1000, unpowered); (1499, unpowered)] booted in
     let g' := controlTick 1 low (1500, powered) in
     currentState low = STATE_NORMAL
     ∧ currentState g' = STATE_NORMAL ∧ faultStartTime g' = 0).
Proof.
  destruct debounce_from_idle_timer as [Htrip Hhold].
  split.
  - apply (Htrip booted 1000 unpowered [(1250, unpowered); (1500, unpowered)]
             eq_refl eq_refl); [lia | |].
    + intros tk Htk. repeat (apply elem_of_cons in Htk as [->|Htk]);
        [cbn; unfold CURRENT_THRESHOLD; lia .. | by apply elem_of_nil in Htk].
    + exists (1500, unpowered). split; [right; left | cbn; lia].
  - apply (Hhold booted 1000 unpowered [(1499, unpowered)] (1500, powered)
             eq_refl eq_refl); [lia | |].
    + intros tk Htk. repeat (apply elem_of_cons in Htk as [->|Htk]);
        [cbn; unfold CURRENT_THRESHOLD; lia .. | by apply elem_of_nil in Htk].
    + cbn. unfold CURRENT_THRESHOLD. lia.
Defined.


(** *** Entering FAULT_DOWNSTREAM *)






End NodeFacts.
(** ** Further properties of the engine *)

Section EngineMore.

Variable now : Z.

Implicit Types (st : Ctx * bool) (pr : string * string) (c : Ctx).

Abbreviation step := (checkPair (queueCommand now) now).
Abbreviation sweep := (fold_left (checkPair (queueCommand now) now)).

Lemma step_queue_appends st pr p :
  ∃ added, queueOf (step st pr).1 p = queueOf st.1 p ++ added
           ∧ Forall (relayCommand now) added
           ∧ (length added ≤ 1)%nat
           ∧ (pr.1 ≠ p → added = []).
Proof.
  destruct (step_cases now st pr)
    as [(_ & _ & ->)|[(_ & _ & He & ->)|[(_ & _ & He & ->)|(_ & _ & ->)]]].
  - destruct (raiseFault_spec now pr st) as (_ & _ & _ & _ & _ & Hq & _). rewrite Hq.
    destruct (decide (pr.1 = p)) as [->|Hne].
    + eexists; split; [reflexivity|]. split; [|split; [simpl; lia|done]].
      apply Forall_singleton. unfold relayCommand, disableCommand. simpl. auto.
    + exists []. rewrite app_nil_r. auto.
  - destruct (tryRecover_done now pr st He) as (_ & _ & _ & _ & _ & Hq & _). rewrite Hq.
    destruct (decide (pr.1 = p)) as [->|Hne].
    + eexists; split; [reflexivity|]. split; [|split; [simpl; lia|done]].
      apply Forall_singleton. unfold relayCommand, enableCommand. simpl. auto.
    + exists []. rewrite app_nil_r. auto.
  - destruct (tryRecover_wait now pr st He) as (_ & _ & _ & _ & _ & Hq & _).
    exists []. unfold queueOf. rewrite Hq, app_nil_r. auto.
  - exists []. rewrite app_nil_r. auto.
Qed.

Lemma sweep_queue_appends l st p :
  NoDup (fst <$> l) →
  ∃ added, queueOf (sweep l st).1 p = queueOf st.1 p ++ added
           ∧ Forall (relayCommand now) added
           ∧ (length added ≤ 1)%nat
           ∧ (p ∉ fst <$> l → added = []).
Proof.
  revert st. induction l as [|q l IH]; intros st Hnd.
  - exists []. simpl. rewrite app_nil_r. auto.
  - rewrite fmap_cons in Hnd. apply NoDup_cons in Hnd as [Hq Hnd]. simpl.
    destruct (decide (q.1 = p)) as [<-|Hne].
    + rewrite sweep_queue_other.
      * destruct (step_queue_appends st q q.1) as (added & ? & ? & ? & _).
        exists added. repeat split; auto. intros Hn. exfalso. apply Hn. apply elem_of_cons. by left.
      * intros q' Hq' Heq. apply Hq. rewrite <- Heq. by apply list_elem_of_fmap_2.
    + destruct (IH (step st q) Hnd) as (added & Ha & Hf & Hl & Hn).
      exists added. rewrite Ha, step_queue_other by done. repeat split; auto.
      intros Hp. apply Hn. intros Hin. apply Hp. apply elem_of_cons. by right.
Qed.

Lemma step_keeps_isolated st pr q :
  segmentId pr ∈ isolated st.1 → recovering (poleStates st.1) pr = false →
  (q = pr ∨ segmentId q ≠ segmentId pr) →
  segmentId pr ∈ isolated (step st q).1.
Proof.
  intros Hin Hr [->|Hne]; [|by apply step_isolated_other].
  destruct (step_cases now st pr)
    as [(_ & Hn & _)|[(Hr' & _)|[(Hr' & _)|(_ & _ & ->)]]]; try congruence; done.
Qed.

Lemma sweep_keeps_isolated l st pr :
  NoDup (segmentId <$> l) → pr ∈ l ∨ (∀ q, q ∈ l → segmentId q ≠ segmentId pr) →
  segmentId pr ∈ isolated st.1 → recovering (poleStates st.1) pr = false →
  segmentId pr ∈ isolated (sweep l st).1.
Proof.
  revert st. induction l as [|q l IH]; intros st Hnd Hpr Hin Hr; [done|].
  rewrite fmap_cons in Hnd. apply NoDup_cons in Hnd as [Hq Hnd]. simpl.
  assert (q = pr ∨ segmentId q ≠ segmentId pr) as Hcase.
  { destruct Hpr as [Hpr|Hpr].
    - apply elem_of_cons in Hpr as [->|Hpr]; [by left|].
      right. intros Heq. apply Hq. rewrite Heq. by apply list_elem_of_fmap_2.
    - right. apply Hpr. by left. }
  apply IH; [done| |by apply step_keeps_isolated|by rewrite step_poleStates].
  destruct Hcase as [->|Hne].
  - right. intros q' Hq' Heq. apply Hq. rewrite <- Heq. by apply list_elem_of_fmap_2.
  - destruct Hpr as [Hpr|Hpr].
    + apply elem_of_cons in Hpr as [->|Hpr]; [done|by left].
    + right. intros q' Hq'. apply Hpr. by right.
Qed.

Lemma step_absent st pr :
  poleStates st.1 !! pr.1 = None ∨ poleStates st.1 !! pr.2 = None → step st pr = st.
Proof.
  unfold checkPair. intros [->| ->]; [by destruct (poleStates st.1 !! pr.2)|done].
Qed.

Lemma sweep_absent l st :
  (∀ pr, pr ∈ l → poleStates st.1 !! pr.1 = None ∨ poleStates st.1 !! pr.2 = None) →
  sweep l st = st.
Proof.
  induction l as [|q l IH]; intros Hl; [done|]. simpl.
  rewrite step_absent by (apply Hl; by left). apply IH. intros pr Hpr. apply Hl. by right.
Qed.

Lemma step_coherent st pr :
  pr ∈ adjacentPairs POLE_ORDER → coherent st.1 → coherent (step st pr).1.
Proof.
  intros Hpr (Hnd & Hsub & Hst & Hfault).
  destruct (step_cases now st pr)
    as [(_ & Hn & ->)|[(_ & Hi & He & ->)|[(_ & _ & He & ->)|(_ & _ & ->)]]].
  - destruct (raiseFault_spec now pr st) as (_ & Hiso & Hs & _).
    unfold coherent. rewrite Hiso, Hs. repeat split.
    + apply NoDup_app. repeat split; [done| |apply NoDup_singleton].
      intros s Hs1 Hs2. apply list_elem_of_singleton in Hs2 as ->. done.
    + intros s Hs'. apply elem_of_app in Hs' as [Hs'|Hs']; [by apply Hsub|].
      apply list_elem_of_singleton in Hs' as ->. by apply list_elem_of_fmap_2.
    + by left.
    + intros _. by destruct (isolated st.1).
  - destruct (tryRecover_done now pr st He) as (_ & Hiso & Hs & _).
    unfold coherent. rewrite Hs, Hiso. repeat split.
    + by apply NoDup_filter.
    + intros s Hs'. apply list_elem_of_filter in Hs' as [_ Hs']. by apply Hsub.
    + intros Hne. destruct (filter _ _) eqn:E; [done|]. simpl.
      apply Hst. intros Hnil. rewrite Hnil in E. done.
    + destruct (filter _ _) eqn:E; simpl; [done|]. intros _. done.
  - destruct (tryRecover_wait now pr st He) as (_ & Hiso & Hs & _).
    unfold coherent. rewrite Hs, Hiso. done.
  - done.
Qed.

Lemma sweep_coherent l st :
  (∀ pr, pr ∈ l → pr ∈ adjacentPairs POLE_ORDER) → coherent st.1 → coherent (sweep l st).1.
Proof.
  revert st. induction l as [|q l IH]; intros st Hl Hc; [done|]. simpl.
  apply IH; [intros pr Hpr; apply Hl; by right|]. apply step_coherent; [apply Hl; by left|done].
Qed.

End EngineMore.

Lemma runEngine_cases now c :
  (pole1Incoming (poleStates c) "LOW" = true ∧ runEngine now c = gridDown now c)
  ∨ (pole1Incoming (poleStates c) "LOW" = false ∧ gridRestoring c = true
     ∧ runEngine now c = gridRestored now c)
  ∨ (pole1Incoming (poleStates c) "LOW" = false ∧ gridRestoring c = false
     ∧ runEngine now c
       = fold_left (checkPair (queueCommand now) now) (adjacentPairs POLE_ORDER) (c, false)).
Proof.
  unfold runEngine, runFaultEngine, gridRestoring.
  destruct (pole1Incoming (poleStates c) "LOW"); [by left|right].
  destruct (_ && _); [left|right]; done.
Qed.

Lemma gridDown_spec now c :
  let r := gridDown now c in
  poleStates r.1 = poleStates c ∧ pendingCommands r.1 = pendingCommands c
  ∧ lastUpdateTime r.1 = lastUpdateTime c
  ∧ isolated r.1 = isolated c
  ∧ (status (systemState r.1) = GRID_DOWN).
Proof.
  cbv zeta. unfold gridDown. case_bool_decide as Hs; cbn [fst]; ctx_simpl; [done|].
  repeat split. by destruct (decide (status (systemState c) = GRID_DOWN)).
Qed.

Lemma gridRestored_spec now c :
  let r := gridRestored now c in
  poleStates r.1 = poleStates c ∧ pendingCommands r.1 = pendingCommands c
  ∧ lastUpdateTime r.1 = lastUpdateTime c
  ∧ isolated r.1 = []
  ∧ status (systemState r.1) = NORMAL
  ∧ faultLocation (systemState r.1) = None ∧ faultType (systemState r.1) = None
  ∧ recoveryStartTime (systemState r.1) = recoveryStartTime (systemState c)
  ∧ r.2 = true.
Proof. cbv zeta. unfold gridRestored. cbn [fst snd]. ctx_simpl. done. Qed.

(** X1. A run of the engine only appends to a pole's command queue: what was
    pending stays, in order; it appends at most one command per pole, an
    outgoing relay command (DISABLE_OUTGOING_RELAY or ENABLE_OUTGOING_RELAY)
    stamped with the time of the run and pending; and it appends nothing
    to a pole other than Pole1, Pole2 and Pole3. *)
Theorem engine_appends_relay_commands (now : Z) (c : Ctx) (p : string) :
  ∃ added, queueOf (runEngine now c).1 p = queueOf c p ++ added
           ∧ Forall (relayCommand now) added
           ∧ (length added ≤ 1)%nat
           ∧ (p ∉ ["Pole1"; "Pole2"; "Pole3"] → added = []).
Proof.
  destruct (runEngine_cases now c) as [(_ & ->)|[(_ & _ & ->)|(_ & _ & ->)]].
  - exists []. destruct (gridDown_spec now c) as (_ & Hq & _).
    unfold queueOf. rewrite Hq, app_nil_r. auto.
  - exists []. destruct (gridRestored_spec now c) as (_ & Hq & _).
    unfold queueOf. rewrite Hq, app_nil_r. auto.
  - destruct (sweep_queue_appends now (adjacentPairs POLE_ORDER) (c, false) p upstreams_NoDup)
      as (added & ? & ? & ? & Hn).
    exists added. repeat split; auto.
Qed.

Lemma runEngine_keeps_isolated (now : Z) (c : Ctx) (pr : string * string) :
  pr ∈ adjacentPairs POLE_ORDER → segmentId pr ∈ isolated c →
  recovering (poleStates c) pr = false → gridRestoring c = false →
  segmentId pr ∈ isolated (runEngine now c).1.
Proof.
  intros Hpr Hin Hr Hg.
  destruct (runEngine_cases now c) as [(_ & ->)|[(_ & Hg' & _)|(_ & _ & ->)]]; [|congruence|].
  - destruct (gridDown_spec now c) as (_ & _ & _ & -> & _). done.
  - apply sweep_keeps_isolated; auto using segments_NoDup.
Qed.

(** X2. A segment of the chain that is isolated stays isolated through every
    run of the engine in which its recovery condition does not hold (the
    snapshots of its two poles are not both there with downstream incoming
    HIGH and upstream outgoing HIGH), unless the run is the grid-restored
    one. *)
Theorem isolation_persists (now : Z) (c : Ctx) (pr : string * string) :
  pr ∈ adjacentPairs POLE_ORDER → segmentId pr ∈ isolated c →
  recovering (poleStates c) pr = false → gridRestoring c = false →
  segmentId pr ∈ isolated (runEngine now c).1.
Proof. apply runEngine_keeps_isolated. Qed.

(** X3. When Pole1 does not report incoming LOW, the run is not the
    grid-restored one and no two adjacent poles both have a snapshot, a run
    of the engine changes nothing and returns false. *)
Theorem engine_needs_adjacent_snapshots (now : Z) (c : Ctx) :
  pole1Incoming (poleStates c) "LOW" = false → gridRestoring c = false →
  (∀ pr, pr ∈ adjacentPairs POLE_ORDER →
         poleStates c !! pr.1 = None ∨ poleStates c !! pr.2 = None) →
  runEngine now c = (c, false).
Proof.
  intros Hl Hg Habs. rewrite runEngine_sweep by done. by apply sweep_absent.
Qed.

(** X4. The grid-restored run (status GRID_DOWN, Pole1 incoming HIGH) sets the
    status to NORMAL, empties isolatedSegments and clears the fault
    location, returns true, and queues no command (no ENABLE_OUTGOING_RELAY for the
    segments it drops). recoveryStartTime is left as it was. *)
Theorem grid_restored_clears_isolation (now : Z) (c : Ctx) :
  gridRestoring c = true →
  let r := runEngine now c in
  status (systemState r.1) = NORMAL
  ∧ isolated r.1 = []
  ∧ faultLocation (systemState r.1) = None
  ∧ pendingCommands r.1 = pendingCommands c
  ∧ recoveryStartTime (systemState r.1) = recoveryStartTime (systemState c)
  ∧ r.2 = true.
Proof.
  intros Hg. cbv zeta.
  destruct (runEngine_cases now c) as [(Hl & _)|[(_ & _ & ->)|(_ & Hg' & _)]]; [| |congruence].
  - exfalso. unfold gridRestoring in Hg. apply andb_true_iff in Hg as [Hh _].
    unfold pole1Incoming in *. destruct (poleStates c !! "Pole1"); [|done].
    apply strictEq_true in Hl. apply strictEq_true in Hh. congruence.
  - destruct (gridRestored_spec now c) as (_ & ? & _ & ? & ? & ? & _ & ? & ?). done.
Qed.

Lemma coherent_same c c' : systemState c' = systemState c → coherent c → coherent c'.
Proof. unfold coherent, isolated. by intros ->. Qed.

Lemma runEngine_coherent now c : coherent c → coherent (runEngine now c).1.
Proof.
  intros Hc.
  destruct (runEngine_cases now c) as [(_ & ->)|[(_ & _ & ->)|(_ & _ & ->)]].
  - destruct (gridDown_spec now c) as (_ & _ & _ & Hi & Hs).
    destruct Hc as (Hnd & Hsub & _ & _). unfold coherent. rewrite Hi, Hs.
    split; [done|]. split; [done|]. split; [by right|discriminate].
  - destruct (gridRestored_spec now c) as (_ & _ & _ & Hi & Hs & _).
    unfold coherent. rewrite Hi, Hs. split; [apply NoDup_nil_2|].
    split; [intros s Hs'; by apply elem_of_nil in Hs'|]. split; [done|discriminate].
  - by apply sweep_coherent.
Qed.

Lemma checkPair_lastUpdateTime now st pr :
  lastUpdateTime (checkPair (queueCommand now) now st pr).1 = lastUpdateTime st.1.
Proof.
  destruct (step_cases now st pr)
    as [(_ & _ & ->)|[(_ & _ & He & ->)|[(_ & _ & He & ->)|(_ & _ & ->)]]]; try done.
  - unfold raiseFault. cbn [fst]. by ctx_simpl.
  - unfold tryRecover. destruct (_ <=? _); cbn [fst]; by ctx_simpl.
  - unfold tryRecover. destruct (_ <=? _); cbn [fst]; by ctx_simpl.
Qed.

Lemma sweep_lastUpdateTime now l st :
  lastUpdateTime (fold_left (checkPair (queueCommand now) now) l st).1 = lastUpdateTime st.1.
Proof.
  revert st. induction l as [|q l IH]; intros st; [done|].
  simpl. by rewrite IH, checkPair_lastUpdateTime.
Qed.

Lemma runEngine_lastUpdateTime now c : lastUpdateTime (runEngine now c).1 = lastUpdateTime c.
Proof.
  destruct (runEngine_cases now c) as [(_ & ->)|[(_ & _ & ->)|(_ & _ & ->)]].
  - apply gridDown_spec.
  - apply gridRestored_spec.
  - apply sweep_lastUpdateTime.
Qed.

(** ** Further properties of the managers *)

Section StalenessMore.

Variable now : Z.

Implicit Types (c : Ctx) (p q : string) (l : list string).

Lemma expired_dec c p : expired now c p ∨ ¬ expired now c p.
Proof.
  unfold expired, staleAt.
  destruct (decide (0 < lastSeen c p)); [|right; tauto].
  destruct (decide (STALE_TIMEOUT_MS < now - lastSeen c p)); [|right; tauto].
  destruct (poleStates c !! p); [left; eauto|right]. intros (_ & []). done.
Qed.

Lemma stalePole_expired c a w q :
  expired now c q →
  (stalePole now (c, a, w) q).1.1
  = set_lastUpdateTime (<[q := 0]> (lastUpdateTime c)) (set_poleStates (delete q (poleStates c)) c).
Proof.
  unfold expired, staleAt, lastSeen, stalePole. intros ((Hs & Ho) & [snap Hsnap]).
  apply Z.ltb_lt in Hs. apply Z.ltb_lt in Ho. by rewrite Hs, Ho, Hsnap.
Qed.

Lemma stalePole_kept c a w q :
  ¬ expired now c q → ∃ a', stalePole now (c, a, w) q = (c, a', w).
Proof.
  unfold expired, staleAt, lastSeen, stalePole. intros Hn.
  destruct (0 <? default 0 (lastUpdateTime c !! q)) eqn:Hs; [|by eexists].
  destruct (STALE_TIMEOUT_MS <? now - default 0 (lastUpdateTime c !! q)) eqn:Ho; [|by eexists].
  destruct (poleStates c !! q) eqn:Hsnap; [|by eexists].
  exfalso. apply Hn. apply Z.ltb_lt in Hs. apply Z.ltb_lt in Ho. eauto.
Qed.

Lemma stale_fold_kept l c a w :
  (∀ p, p ∈ l → ¬ expired now c p) → ∃ a', fold_left (stalePole now) l (c, a, w) = (c, a', w).
Proof.
  revert a. induction l as [|q l IH]; intros a Hl; [by eexists|]. cbn [fold_left].
  destruct (stalePole_kept c a w q) as [a1 ->]; [apply Hl; by left|].
  apply IH. intros p Hp. apply Hl. by right.
Qed.

Lemma stale_fold_at l : NoDup l → ∀ c a w p,
  let r := fold_left (stalePole now) l (c, a, w) in
  (p ∈ l → expired now c p →
   poleStates r.1.1 !! p = None ∧ lastUpdateTime r.1.1 !! p = Some 0)
  ∧ (¬ (p ∈ l ∧ expired now c p) →
     poleStates r.1.1 !! p = poleStates c !! p
     ∧ lastUpdateTime r.1.1 !! p = lastUpdateTime c !! p).
Proof.
  induction l as [|q l IH]; intros Hnd c a w p; cbv zeta.
  { cbn. split; [by intros ?%elem_of_nil|done]. }
  apply NoDup_cons in Hnd as [Hq Hnd]. cbn [fold_left].
  destruct (stalePole now (c, a, w) q) as [[c1 a1] w1] eqn:Hstep.
  specialize (IH Hnd c1 a1 w1 p). cbv zeta in IH. destruct IH as [IHe IHk].
  assert (c1 = (stalePole now (c, a, w) q).1.1) as Hc1 by by rewrite Hstep.
  destruct (decide (p = q)) as [->|Hne].
  - destruct IHk as [Hps Hlu]; [by intros [? _]|]. rewrite Hps, Hlu.
    split.
    + intros _ He. rewrite Hc1, stalePole_expired by done. cbn.
      by rewrite lookup_delete_eq, lookup_insert_eq.
    + intros Hn. destruct (stalePole_kept c a w q) as [a' Hk].
      { intros He. apply Hn. split; [by left|done]. }
      rewrite Hstep in Hk. by injection Hk as -> _ _.
  - assert (poleStates c1 !! p = poleStates c !! p
            ∧ lastUpdateTime c1 !! p = lastUpdateTime c !! p) as [Hps Hlu].
    { destruct (expired_dec c q) as [He|He].
      - rewrite Hc1, stalePole_expired by done. cbn.
        by rewrite lookup_delete_ne, lookup_insert_ne.
      - destruct (stalePole_kept c a w q He) as [a' Hk].
        rewrite Hstep in Hk. by injection Hk as -> _ _. }
    assert (expired now c1 p ↔ expired now c p) as Hiff.
    { unfold expired, staleAt, lastSeen. by rewrite Hps, Hlu. }
    split.
    + intros [?|Hp]%elem_of_cons He; [done|]. apply IHe; [done|by apply Hiff].
    + intros Hn. rewrite <- Hps, <- Hlu. apply IHk.
      intros [Hp He]. apply Hn. split; [by right|by apply Hiff].
Qed.

End StalenessMore.

Lemma broadcast_data c l :
  sameData c (fold_left (λ acc poleId, emit evPoleUpdate (Some poleId) acc) l c).
Proof.
  revert c. induction l as [|q l IH]; intros c; [done|].
  cbn [fold_left]. destruct (IH (emit evPoleUpdate (Some q) c)) as (H1 & H2 & H3 & H4).
  unfold sameData. rewrite H1, H2, H3, H4. by ctx_simpl.
Qed.

Lemma POLE_ORDER_NoDup : NoDup POLE_ORDER.
Proof. compute_done. Qed.

Lemma fresh_not_expired now c p : freshAt now c p → ¬ expired now c p.
Proof. unfold freshAt, expired, staleAt. lia. Qed.

(** X5. While a pole of the chain is fresh (seen within the last 15 s) a
    staleness sweep keeps that pole's snapshot and last-seen time and leaves
    the system state and the command queues alone: it does not reset. *)
Theorem fresh_pole_survives_sweep (now : Z) (c : Ctx) (p : string) :
  p ∈ POLE_ORDER → freshAt now c p →
  let c' := stalenessCheck now c in
  poleStates c' !! p = poleStates c !! p
  ∧ lastUpdateTime c' !! p = lastUpdateTime c !! p
  ∧ systemState c' = systemState c
  ∧ pendingCommands c' = pendingCommands c.
Proof.
  intros Hp Hfresh. cbv zeta. unfold stalenessCheck.
  pose proof (stale_fold now POLE_ORDER POLE_ORDER_NoDup c false false) as Hf.
  pose proof (stale_fold_at now POLE_ORDER POLE_ORDER_NoDup c false false p) as Hat.
  cbv zeta in Hf, Hat.
  destruct (fold_left (stalePole now) POLE_ORDER (c, false, false)) as [[c1 anyActive] anyWentStale].
  cbn [fst snd] in Hf, Hat.
  destruct Hf as (Hss & Hpc & _ & _ & _ & Ha & _).
  destruct Hat as [_ [Hps Hlu]]; [intros [_ He]; by apply (fresh_not_expired now c p)|].
  assert (anyActive = true) as -> by (apply Ha; right; eauto).
  rewrite andb_false_r.
  destruct (anyWentStale && io c1); [|done].
  destruct (broadcast_data (emit evUpdate None c1) POLE_ORDER) as (-> & -> & -> & ->).
  by ctx_simpl.
Qed.

(** X6. A second staleness sweep at the same instant changes nothing at all. *)
Theorem staleness_sweep_idempotent (now : Z) (c : Ctx) :
  stalenessCheck now (stalenessCheck now c) = stalenessCheck now c.
Proof.
  assert (∀ p, p ∈ POLE_ORDER → ¬ expired now (stalenessCheck now c) p) as Hnone.
  { intros p Hp. unfold stalenessCheck.
    pose proof (stale_fold_at now POLE_ORDER POLE_ORDER_NoDup c false false p) as Hat.
    cbv zeta in Hat.
    destruct (fold_left (stalePole now) POLE_ORDER (c, false, false))
      as [[c1 anyActive] anyWentStale].
    cbn [fst snd] in Hat.
    assert (¬ expired now c1 p) as Hc1.
    { destruct (expired_dec now c p) as [He|He].
      - destruct Hat as [[_ Hlu] _]; [done|done|].
        unfold expired, staleAt, lastSeen. rewrite Hlu. simpl. lia.
      - destruct Hat as [_ [Hps Hlu]]; [tauto|].
        unfold expired, staleAt, lastSeen in *. by rewrite Hps, Hlu. }
    destruct (anyWentStale && negb anyActive); [|destruct (anyWentStale && io c1)]; [| |done].
    - unfold reset, expired. ctx_simpl. cbn. rewrite lookup_empty. by intros [_ []].
    - destruct (broadcast_data (emit evUpdate None c1) POLE_ORDER) as (Hps & _ & Hlu & _).
      unfold expired, staleAt, lastSeen in *. rewrite Hps, Hlu. by ctx_simpl. }
  unfold stalenessCheck at 1.
  destruct (stale_fold_kept now POLE_ORDER (stalenessCheck now c) false false Hnone) as [a' ->].
  done.
Qed.

(** ** The staleness timers *)

Lemma allSilent_later T t c : allSilent T c → T ≤ t → allSilent t c.
Proof.
  intros [(p & Hp & [Hseen Hold] & Hsnap) Hnofresh] Hle. split.
  - exists p. split; [done|]. split; [|done]. split; [done|lia].
  - intros q Hq [Hseen' Hfresh]. apply (Hnofresh q Hq). split; [done|lia].
Qed.

Lemma stalenessCheck_resets T t c :
  allSilent T c → T ≤ t → atBaseline (type c) (stalenessCheck t c).
Proof.
  intros Hsilent Hle. destruct (allSilent_later T t c Hsilent Hle) as [Hstale Hnofresh].
  by apply stalenessCheck_guard.
Qed.

(** With no snapshot left the callback changes nothing. *)
Lemma stalenessCheck_settled t c : poleStates c = ∅ → stalenessCheck t c = c.
Proof.
  intros Hempty. unfold stalenessCheck.
  destruct (stale_fold_kept t POLE_ORDER c false false) as [a' ->]; [|done].
  intros p _ [_ [snap Hsnap]]. by rewrite Hempty, lookup_empty in Hsnap.
Qed.

Section TimerFacts.

(** The context [c0] in which all nodes are silent from [T] on. *)
Variable c0 : Ctx.
Variable T : Z.
Hypothesis Hsilent : allSilent T c0.

Lemma callback_resets t c :
  T ≤ t → c = c0 ∨ atBaseline (type c0) c → atBaseline (type c0) (stalenessCheck t c).
Proof.
  intros Hle [->|Hbase]; [by apply (stalenessCheck_resets T)|].
  rewrite stalenessCheck_settled; [done|]. by destruct Hbase as (_ & _ & _ & _ & ?).
Qed.

(** Any firings after [T], at least one of them: the context is at its
    baseline afterwards. *)
Lemma callbacks_reset (fired : list Z) c :
  (∀ t, t ∈ fired → T ≤ t) → fired ≠ [] → c = c0 ∨ atBaseline (type c0) c →
  atBaseline (type c0) (fold_left (λ c t, stalenessCheck t c) fired c).
Proof.
  revert c. induction fired as [|t l IH]; intros c Hl Hne Hc; [done|].
  cbn [fold_left].
  assert (atBaseline (type c0) (stalenessCheck t c)) as Hbase
    by (apply callback_resets; [apply Hl; by left|done]).
  destruct l as [|t' l]; [done|].
  apply IH; [intros t'' Ht''; apply Hl; by right|done|by right].
Qed.

End TimerFacts.

(** The firings of a timer, spelled out. *)
Lemma elem_of_firings armed from to t :
  t ∈ Timers.firings armed from to
  ↔ from < t ≤ to ∧ ∃ k, 1 ≤ k ∧ t = armed + k * 5000.
Proof.
  unfold Timers.firings, Timers.SWEEP_INTERVAL_MS. cbv zeta.
  rewrite list_elem_of_fmap. split.
  - intros (k & -> & Hk). apply elem_of_seqZ in Hk.
    split; [|exists k; split; [lia|done]].
    revert Hk. Z.div_mod_to_equations. lia.
  - intros (Hrange & k & Hk & ->). exists k. split; [done|].
    apply elem_of_seqZ. revert Hrange. Z.div_mod_to_equations. lia.
Qed.

Lemma elem_of_instants armedAt from to t :
  t ∈ Timers.instants armedAt from to
  ↔ ∃ armed, armed ∈ armedAt ∧ t ∈ Timers.firings armed from to.
Proof.
  unfold Timers.instants. rewrite merge_sort_Permutation, list_elem_of_bind.
  split; intros (armed & ? & ?); eauto.
Qed.

(** The next firing of a timer armed at or before [T] comes within one
    interval after [T]. *)
Lemma next_firing armed T :
  armed ≤ T →
  let t := armed + ((T - armed) / 5000 + 1) * 5000 in
  T < t ≤ T + 5000 ∧ ∀ upto, t ≤ upto → t ∈ Timers.firings armed T upto.
Proof.
  intros Hle. cbv zeta.
  assert (T < armed + ((T - armed) / 5000 + 1) * 5000 ≤ T + 5000
          ∧ 1 ≤ (T - armed) / 5000 + 1) as [Hrange Hk]
    by (Z.div_mod_to_equations; lia).
  split; [done|]. intros upto Hupto. apply elem_of_firings. split; [lia|]. eauto.
Qed.

Lemma sweeps_settle armedAt armed T t upto c :
  armed ∈ armedAt → allSilent T c → t ∈ Timers.firings armed T upto →
  atBaseline (type c) (Timers.sweeps armedAt T upto c).
Proof.
  intros Harmed Hsilent Ht. unfold Timers.sweeps.
  apply (callbacks_reset c T Hsilent); [| |by left].
  - intros t' (a & _ & Ht')%elem_of_instants. apply elem_of_firings in Ht'. lia.
  - intros Hnil. assert (t ∈ Timers.instants armedAt T upto) as Hin
      by (apply elem_of_instants; eauto).
    rewrite Hnil in Hin. by apply elem_of_nil in Hin.
Qed.

(** C6 (amended). A staleness sweep nulls the snapshot of every pole of the
    chain last seen more than 15 s ago; and if the sweep nulled at least one
    snapshot and no pole is fresh (seen within the last 15 s), that same
    sweep resets the system state to the baseline of the context (status
    WAITING for the real context, SIM_IDLE for the simulation, nothing
    isolated), empties every command queue and leaves no snapshot. The
    sweep is the callback of the interval timer that [ensureManagerIO] arms
    for the context and that fires every 5 s from then on: once no pole is
    fresh while a stale one still has its snapshot, the timer fires within
    the next 5 s, and from that firing on the context, left to its timers,
    is at its baseline. *)
Theorem C6_staleness_sweep :
  (∀ (now : Z) (c : Ctx),
     let c' := stalenessCheck now c in
     (∀ p, p ∈ POLE_ORDER → staleAt now c p → poleStates c' !! p = None)
     ∧ ((∃ p, p ∈ POLE_ORDER ∧ staleAt now c p ∧ is_Some (poleStates c !! p)) →
        (∀ p, p ∈ POLE_ORDER → ¬ freshAt now c p) →
        systemState c' = baseline (type c)
        ∧ status (systemState c') = match type c with real => WAITING | sim => SIM_IDLE end
        ∧ isolated c' = []
        ∧ (∀ p, queueOf c' p = [])
        ∧ poleStates c' = ∅))
  ∧ (∀ (k : CtxType) (p : Timers.Process) (armed T : Z),
       let c := Timers.manager k (Timers.server p) in
       armed ∈ Timers.timers k p → armed ≤ T → allSilent T c →
       ∃ t, T < t ≤ T + 5000 ∧ t ∈ Timers.firings armed T (T + 5000)
            ∧ ∀ upto, t ≤ upto →
                atBaseline (type c) (Timers.manager k (Timers.server (Timers.elapse T upto p))))
  ∧ (∀ (k : CtxType) (now : Z) (p : Timers.Process),
       let p' := Timers.ensureManagerIO now true p in
       io (Timers.manager k (Timers.server p')) = true
       ∧ (io (Timers.manager k (Timers.server p)) = false →
          Timers.timers k p' = Timers.timers k p ++ [now])
       ∧ (io (Timers.manager k (Timers.server p)) = true →
          Timers.timers k p' = Timers.timers k p)).
Proof.
  split; [intros now c; apply stalenessCheck_guard|]. split.
  - intros k p armed T. cbv zeta. intros Harmed Hle Hsilent.
    destruct (next_firing armed T Hle) as [Hrange Hfires].
    eexists. split; [exact Hrange|]. split; [apply Hfires; lia|]. intros upto Hupto.
    destruct k; cbn [Timers.manager Timers.elapse Timers.server RealSystem SimSystem] in *;
      apply (sweeps_settle _ armed T _ upto _ Harmed Hsilent (Hfires upto Hupto)).
  - intros k now p. cbv zeta. unfold Timers.ensureManagerIO, ensureManagerIO, attachIO.
    destruct k; cbn [Timers.manager Timers.timers Timers.server Timers.realTimers
                       Timers.simTimers RealSystem SimSystem];
      [destruct (io (RealSystem (Timers.server p))) eqn:Hio
      |destruct (io (SimSystem (Timers.server p))) eqn:Hio];
      cbn; rewrite ?Hio;
      (split; [reflexivity|]; split; intros Hflag; first [reflexivity | discriminate]).
Qed.

(** A publish of Pole1 handled at 1000 arms the timer of the real context.
    From 16001 on the pole is stale; the timer fires at 21000 and at 21001
    the context is at its baseline. *)
Lemma C6_witness :
  let c := StaleSamples.silentAfterFault in
  let c' := stalenessCheck 20000 c in
  let p := TraceSamples.onePublish in
  (isolated c = ["Pole1-Pole2"]
   ∧ poleStates c' !! "Pole1" = None
   ∧ status (systemState c') = WAITING ∧ isolated c' = [] ∧ queueOf c' "Pole1" = [])
  ∧ (Timers.realTimers p = [1000]
     ∧ is_Some (poleStates (RealSystem (Timers.server p)) !! "Pole1")
     ∧ atBaseline real (RealSystem (Timers.server (Timers.elapse 16001 21001 p)))).
Proof.
  cbv zeta. destruct C6_staleness_sweep as (Hsweep & Htimer & _). split.
  - split; [reflexivity|].
    destruct (Hsweep 20000 StaleSamples.silentAfterFault) as [Hnull Hreset].
    split.
    + apply Hnull; [left | split; reflexivity].
    + destruct Hreset as (_ & Hst & Hiso & Hq & _).
      * exists "Pole1". split; [left|]. split; [split; reflexivity | by eexists].
      * intros p Hp [Hseen Hle]. unfold POLE_ORDER in Hp.
        repeat (apply elem_of_cons in Hp as [->|Hp]);
          [vm_compute in Hseen, Hle; first [discriminate | by apply Hle] .. |].
        by apply elem_of_nil in Hp.
      * split; [exact Hst|]. split; [exact Hiso | apply Hq].
  - split; [reflexivity|]. split; [by eexists|].
    destruct (Htimer real TraceSamples.onePublish 1000 16001) as (t & Ht & _ & Hbase).
    + left.
    + lia.
    + split.
      * exists "Pole1". split; [left|]. split; [split; reflexivity | by eexists].
      * intros q Hq [Hseen Hle]. unfold POLE_ORDER in Hq.
        repeat (apply elem_of_cons in Hq as [->|Hq]);
          [vm_compute in Hseen, Hle; first [discriminate | by apply Hle] .. |].
        by apply elem_of_nil in Hq.
    + apply (Hbase 21001). lia.
Defined.

(** A context fed through POST /api/poles/data only has no timer: however
    long its nodes are silent, nothing is swept. *)
Remark silent_context_without_timer :
  let p := TraceSamples.oneRecord in
  Timers.realTimers p = []
  ∧ allSilent 16001 (RealSystem (Timers.server p))
  ∧ ∀ upto, RealSystem (Timers.server (Timers.elapse 16001 upto p)) = RealSystem (Timers.server p).
Proof.
  cbv zeta. split; [reflexivity|]. split.
  - split.
    + exists "Pole1". split; [left|]. split; [split; reflexivity | by eexists].
    + intros q Hq [Hseen Hle]. unfold POLE_ORDER in Hq.
      repeat (apply elem_of_cons in Hq as [->|Hq]);
        [vm_compute in Hseen, Hle; first [discriminate | by apply Hle] .. |].
      by apply elem_of_nil in Hq.
  - intros upto. reflexivity.
Qed.

Lemma coherent_baseline c t : systemState c = baseline t → coherent c.
Proof.
  unfold coherent, isolated. intros ->. cbn. split; [apply NoDup_nil_2|].
  split; [intros s Hs; by apply elem_of_nil in Hs|]. split; [done|by destruct t].
Qed.

Lemma updatePole_systemState now p d c :
  ∃ seen, systemState (updatePole now p d c)
          = systemState (runEngine now (set_lastUpdateTime seen
                                          (set_poleStates (<[p := d]> (poleStates c)) c))).1.
Proof. eexists. unfold updatePole. cbv zeta. destruct (_.2); by ctx_simpl. Qed.

(** X7. Coherence of the system state (no segment isolated twice, only
    segments of the chain isolated, segments isolated only under status
    FAULT or GRID_DOWN, status FAULT only with a segment isolated) holds for
    a new manager and is kept by the engine, by updatePole, by the staleness
    sweep, by reset and by the queue operations. *)
Theorem coherent_invariant :
  (∀ t, coherent (newSystem t))
  ∧ (∀ now c, coherent c → coherent (runEngine now c).1)
  ∧ (∀ now p d c, coherent c → coherent (updatePole now p d c))
  ∧ (∀ now c, coherent c → coherent (stalenessCheck now c))
  ∧ (∀ c, coherent (reset c))
  ∧ (∀ now p cmd c, coherent c → coherent (queueCommand now p cmd c))
  ∧ (∀ p c, coherent c → coherent (getCommands p c).1).
Proof.
  split; [intros t; by apply (coherent_baseline _ t)|].
  split; [apply runEngine_coherent|].
  split.
  { intros now p d c Hc. destruct (updatePole_systemState now p d c) as [seen Hss].
    eapply coherent_same; [exact Hss|].
    apply runEngine_coherent. by eapply coherent_same; [|exact Hc]. }
  split.
  { intros now c Hc. unfold stalenessCheck.
    pose proof (stale_fold now POLE_ORDER POLE_ORDER_NoDup c false false) as Hf. cbv zeta in Hf.
    destruct (fold_left (stalePole now) POLE_ORDER (c, false, false))
      as [[c1 anyActive] anyWentStale].
    cbn [fst snd] in Hf. destruct Hf as (Hss & _).
    destruct (anyWentStale && negb anyActive); [|destruct (anyWentStale && io c1)].
    - apply (coherent_baseline _ (type c1)). unfold reset. by ctx_simpl.
    - eapply coherent_same; [|exact Hc].
      destruct (broadcast_data (emit evUpdate None c1) POLE_ORDER) as (_ & _ & _ & ->).
      by ctx_simpl.
    - by eapply coherent_same; [|exact Hc]. }
  split; [intros c; apply (coherent_baseline _ (type c)); unfold reset; by ctx_simpl|].
  split; intros; by eapply coherent_same; [|eassumption].
Qed.

(** X8. For a pole id other than '__proto__' (under which an assignment
    stores no property), updatePole stores the snapshot under the given
    pole id and the arrival time as its last-seen time, and leaves every
    other pole's snapshot and last-seen time as they were, whatever the
    engine then does. *)
Theorem updatePole_stores (now : Z) (p : string) (d : gmap string JsVal) (c : Ctx) :
  p ≠ "__proto__" →
  let c' := updatePole now p d c in
  poleStates c' !! p = Some d
  ∧ lastUpdateTime c' !! p = Some now
  ∧ (∀ q, q ≠ p → poleStates c' !! q = poleStates c !! q
                  ∧ lastUpdateTime c' !! q = lastUpdateTime c !! q).
Proof.
  intros Hp. cbv zeta.
  assert (lastUpdateTime (updatePole now p d c) = <[p := now]> (lastUpdateTime c)) as Hlu.
  { unfold updatePole. cbv zeta. rewrite (bool_decide_eq_false_2 (p = "__proto__")) by done.
    destruct (_.2); ctx_simpl; by rewrite runEngine_lastUpdateTime. }
  rewrite updatePole_poleStates, Hlu.
  split; [apply lookup_insert_eq|]. split; [apply lookup_insert_eq|].
  intros q Hq. by rewrite !lookup_insert_ne.
Qed.

(** X9. For a pole id that is not the name of a member of Object.prototype
    (where queueCommand finds the inherited member instead of a queue and
    throws), a queued command is appended after the ones already pending,
    with status PENDING; getCommands returns the whole queue, oldest first,
    and leaves it empty, so a second call returns nothing; other poles'
    queues are untouched. *)
Theorem queue_round_trip (now : Z) (poleId : string) (command : JsVal * JsVal) (c : Ctx) :
  poleId ∉ objectPrototypeKeys →
  let queued := queueCommand now poleId command c in
  let fetched := getCommands poleId queued in
  fetched.2 = queueOf c poleId ++ [mkCommand command.1 command.2 now "PENDING"]
  ∧ (getCommands poleId fetched.1).2 = []
  ∧ (∀ q, q ≠ poleId → queueOf fetched.1 q = queueOf c q).
Proof.
  intros _. cbv zeta. unfold getCommands. cbn [fst snd].
  split; [rewrite queueOf_queueCommand; by destruct (decide _)|].
  split.
  - unfold queueOf. cbn. by rewrite lookup_insert_eq.
  - intros q Hq. unfold queueOf at 1. cbn [pendingCommands set_pendingCommands].
    rewrite lookup_insert_ne by done.
    change (default [] (pendingCommands (queueCommand now poleId command c) !! q))
      with (queueOf (queueCommand now poleId command c) q).
    rewrite queueOf_queueCommand. by destruct (decide _).
Qed.

(** ** Further properties of the routes *)

Lemma sameData_refl c : sameData c c.
Proof. done. Qed.

Lemma sameData_trans c1 c2 c3 : sameData c1 c2 → sameData c2 c3 → sameData c1 c3.
Proof. unfold sameData. intros (-> & -> & -> & ->) (-> & -> & -> & ->). done. Qed.

Lemma getSummary_poles c p :
  summaryPoles (getSummary c) !! p
  = if bool_decide (p ∈ POLE_ORDER) then Some (poleSummary (poleStates c !! p)) else None.
Proof.
  unfold getSummary, POLE_ORDER. cbn [summaryPoles fold_left].
  case_bool_decide as Hp.
  - repeat (apply elem_of_cons in Hp as [->|Hp]);
      [ | | | | by apply elem_of_nil in Hp];
      repeat first [ apply lookup_insert_eq | rewrite lookup_insert_ne by done ].
  - rewrite !lookup_insert_ne, lookup_empty; [done|..];
      intros <-; apply Hp; repeat first [ by left | right ].
Qed.

(** X10. What is stored under an id outside the chain cannot be read back: GET
    /state/:poleId and GET /commands/:poleId answer 400 'Invalid poleId'
    (the latter without draining any queue) and the summary of GET /system
    has no entry for it. *)
Theorem stray_pole_unreachable (appIo isSim : bool) (p : string) (srv : Server) :
  p ∉ POLE_ORDER →
  (getState appIo p isSim srv).2 = RError 400 "Invalid poleId"
  ∧ (getCommandsRoute appIo p isSim srv).2 = RError 400 "Invalid poleId"
  ∧ (getCommandsRoute appIo p isSim srv).1 = ensureManagerIO appIo srv
  ∧ summaryPoles (getSystem appIo isSim srv).2 !! p = None.
Proof.
  intros Hp. unfold getState, getCommandsRoute, getSystem. cbv zeta.
  rewrite bool_decide_eq_false_2 by done. cbn [negb fst snd].
  repeat split. rewrite getSummary_poles. by rewrite bool_decide_eq_false_2.
Qed.

Section RouteMore.

Context `{Host}.

Lemma modeGate_passes m flag :
  modeGate m (isTrue flag) = None →
  (m = REAL ∧ isTrue flag = false) ∨ (m = SIM ∧ flag = JBool true).
Proof.
  destruct m; cbn; [done| |].
  - destruct (isTrue flag); [done|]. by left.
  - destruct (isTrue flag) eqn:E; [|done]. right. by apply isTrue_true in E.
Qed.

Lemma queueOf_ensure appIo srv p :
  queueOf (RealSystem (ensureManagerIO appIo srv)) p = queueOf (RealSystem srv) p
  ∧ queueOf (SimSystem (ensureManagerIO appIo srv)) p = queueOf (SimSystem srv) p.
Proof.
  destruct (ensureManagerIO_data appIo srv) as (_ & (_ & Hr & _) & (_ & Hs & _)).
  unfold queueOf. by rewrite Hr, Hs.
Qed.

(** X11. In mode REAL an admin command for a pole of the chain, not flagged as
    simulation, is answered with success; the next GET /commands for that
    pole returns the commands pending before it followed by the new one
    (reason 'Manual command' when none is given), and the GET after that
    returns an empty list. *)
Theorem command_delivered_once (appIo appIo' appIo'' : bool) (now : Z)
    (body : gmap string JsVal) (srv : Server) (p : string) :
  mode srv = REAL → truthy (get body "isSimulation") = false →
  get body "poleId" = JStr p → p ∈ POLE_ORDER → truthy (get body "action") = true →
  let posted := postCommand appIo now body srv in
  let polled := getCommandsRoute appIo' p false posted.1 in
  let again := getCommandsRoute appIo'' p false polled.1 in
  posted.2 = RSuccess (Some "Command queued")
  ∧ polled.2 = RCommands p
      (queueOf (RealSystem srv) p
       ++ [mkCommand (get body "action") (or_else (get body "reason") (JStr "Manual command"))
             now "PENDING"])
  ∧ again.2 = RCommands p [].
Proof.
  intros Hm Hsim Hid Hp Hact. cbv zeta.
  assert (isTrue (get body "isSimulation") = false) as Hst.
  { destruct (get body "isSimulation") as [| |[]| | |]; done. }
  assert (p ≠ "") as Hne.
  { intros ->. repeat (apply elem_of_cons in Hp as [?|Hp]; [done|]). by apply elem_of_nil in Hp. }
  unfold postCommand. cbv zeta.
  destruct (ensureManagerIO_data appIo srv) as (Hmode & _).
  rewrite Hmode, Hm, Hst, Hid, Hact, Hsim. cbn [modeGate truthy toPropertyKey negb orb].
  rewrite (bool_decide_eq_false_2 (p = "")) by done. cbn [negb orb fst snd].
  split; [done|].
  unfold getCommandsRoute. cbv zeta.
  rewrite !(bool_decide_eq_true_2 (p ∈ POLE_ORDER)) by done. cbn [negb fst snd RealSystem].
  split; f_equal.
  - unfold getCommands. cbn [snd]. rewrite (proj1 (queueOf_ensure _ _ _)). cbn [RealSystem].
    rewrite queueOf_emit, queueOf_queueCommand. destruct (decide (p = p)); [|done].
    by rewrite (proj1 (queueOf_ensure _ _ _)).
  - unfold getCommands at 1. cbn [snd]. rewrite (proj1 (queueOf_ensure _ _ _)). cbn [RealSystem].
    unfold getCommands, queueOf. cbn. by rewrite lookup_insert_eq.
Qed.

End RouteMore.

Section ContextsApart.

Context `{Host}.

Variable stringToNumber : string → JsVal.

Lemma ensure_real appIo srv : sameData (RealSystem srv) (RealSystem (ensureManagerIO appIo srv)).
Proof. apply ensureManagerIO_data. Qed.

Lemma ensure_sim appIo srv : sameData (SimSystem srv) (SimSystem (ensureManagerIO appIo srv)).
Proof. apply ensureManagerIO_data. Qed.

(** X12. A publish or an admin command whose isSimulation is true leaves the
    data of the real context as it was; one whose isSimulation is falsy
    leaves the data of the simulation context as it was. *)
Theorem contexts_stay_apart (appIo : bool) (now : Z) (body : gmap string JsVal) (srv : Server) :
  (get body "isSimulation" = JBool true →
   sameData (RealSystem srv) (RealSystem (postState appIo now body srv).1)
   ∧ sameData (RealSystem srv) (RealSystem (postCommand appIo now body srv).1))
  ∧ (truthy (get body "isSimulation") = false →
     sameData (SimSystem srv) (SimSystem (postState appIo now body srv).1)
     ∧ sameData (SimSystem srv) (SimSystem (postCommand appIo now body srv).1)).
Proof.
  unfold postState, postCommand. cbv zeta.
  split; intros Hflag; rewrite ?Hflag; cbn [truthy isTrue];
    [|replace (isTrue (get body "isSimulation")) with false
        by (by destruct (get body "isSimulation") as [| |[]| | |])];
    destruct (modeGate _ _); cbn [fst]; repeat case_match; cbn [fst RealSystem SimSystem];
    auto using ensure_real, ensure_sim.
Qed.

(** X13. Whenever POST /state, POST /command, GET /state/:poleId or GET
    /commands/:poleId answers with an error, the mode and the data of both
    contexts are as before the request. *)
Theorem rejected_requests_change_nothing (appIo : bool) (now : Z) (body : gmap string JsVal)
    (p : string) (isSim : bool) (srv : Server) :
  let unchanged (r : Server * Response) :=
    (∃ code error, r.2 = RError code error) →
    mode r.1 = mode srv
    ∧ sameData (RealSystem srv) (RealSystem r.1) ∧ sameData (SimSystem srv) (SimSystem r.1) in
  unchanged (postState appIo now body srv)
  ∧ unchanged (postCommand appIo now body srv)
  ∧ unchanged (getState appIo p isSim srv)
  ∧ unchanged (getCommandsRoute appIo p isSim srv).
Proof.
  cbv beta zeta. unfold postState, postCommand, getState, getCommandsRoute. cbv zeta.
  pose proof (ensureManagerIO_data appIo srv) as (Hm & Hr & Hs).
  split; [|split; [|split]]; intros (code & error & Herr); revert Herr;
    repeat case_match; cbn [fst snd]; try discriminate; intros _; auto.
Qed.

(** X14. POST /reset is not gated by the operating mode: in every mode,
    including IDLE, it resets the context chosen by the truthiness of
    isSimulation to its baseline (no snapshot, empty queues), keeps that
    context's last-seen times, and leaves the other context's data alone. *)
Theorem postReset_ignores_mode (appIo : bool) (body : gmap string JsVal) (srv : Server) :
  let r := postReset appIo body srv in
  let target (s : Server) := if truthy (get body "isSimulation") then SimSystem s else RealSystem s in
  let other (s : Server) := if truthy (get body "isSimulation") then RealSystem s else SimSystem s in
  mode r.1 = mode srv
  ∧ systemState (target r.1) = baseline (type (target srv))
  ∧ poleStates (target r.1) = ∅
  ∧ (∀ p, queueOf (target r.1) p = [])
  ∧ lastUpdateTime (target r.1) = lastUpdateTime (target srv)
  ∧ sameData (other srv) (other r.1).
Proof.
  cbv beta zeta. unfold postReset. cbv zeta.
  pose proof (ensureManagerIO_data appIo srv) as (Hm & (_ & _ & Hrl & _) & (_ & _ & Hsl & _)).
  assert (type (RealSystem (ensureManagerIO appIo srv)) = type (RealSystem srv)
          ∧ type (SimSystem (ensureManagerIO appIo srv)) = type (SimSystem srv)) as [Htr Hts].
  { unfold ensureManagerIO, attachIO. by repeat case_match. }
  destruct (truthy (get body "isSimulation")); cbn [fst RealSystem SimSystem mode].
  all: split; [done|]; unfold reset at 1 2 4; ctx_simpl; cbn.
  all: rewrite ?Htr, ?Hts, ?Hrl, ?Hsl.
  all: repeat split; auto using queueOf_reset, ensure_real, ensure_sim.
  all: first [apply (ensure_real appIo srv) | apply (ensure_sim appIo srv)].
Qed.

(** X15. None of the coordination routes and not POST /api/poles/data changes
    the operating mode. POST /mode never touches the managers; it sets the
    mode and answers with it exactly when the body's mode is one of the
    strings IDLE, REAL and SIM, and otherwise answers 400 and leaves the
    mode. *)
Theorem mode_changes_only_by_postMode (appIo : bool) (now : Z) (body : gmap string JsVal)
    (p : string) (isSim : bool) (srv : Server) :
  mode (postState appIo now body srv).1 = mode srv
  ∧ mode (postCommand appIo now body srv).1 = mode srv
  ∧ mode (postReset appIo body srv).1 = mode srv
  ∧ mode (getState appIo p isSim srv).1 = mode srv
  ∧ mode (getCommandsRoute appIo p isSim srv).1 = mode srv
  ∧ mode (getSystem appIo isSim srv).1 = mode srv
  ∧ mode (postData stringToNumber now body srv).1 = mode srv
  ∧ (let r := postMode body srv in
     RealSystem r.1 = RealSystem srv ∧ SimSystem r.1 = SimSystem srv
     ∧ match r.2 with
       | ModeSet m =>
           mode r.1 = m
           ∧ get body "mode" = JStr (match m with IDLE => "IDLE" | REAL => "REAL" | SIM => "SIM" end)
       | ModeInvalid code _ => code = 400 ∧ mode r.1 = mode srv
       end
     ∧ (∀ m, get body "mode" = JStr (match m with IDLE => "IDLE" | REAL => "REAL" | SIM => "SIM" end) →
             r.2 = ModeSet m)).
Proof.
  pose proof (ensureManagerIO_data appIo srv) as (Hm & _).
  unfold postState, postCommand, postReset, getState, getCommandsRoute, getSystem, postData,
    postMode, setMode, parseMode.
  cbv zeta. split; [|split; [|split; [|split; [|split; [|split; [|split]]]]]];
    try (repeat case_match; simpl; done).
  destruct (get body "mode") as [| | | | |s]; simpl;
    try (repeat split; try done; intros []; discriminate).
  repeat (case_bool_decide; [subst; simpl; repeat split; try done; intros []; by intros [=]|]).
  simpl. repeat split; try done. intros [] [=]; congruence.
Qed.

End ContextsApart.

Section PolesFacts.

Context `{Host}.

Variable stringToNumber : string → JsVal.

(** X16. POST /api/poles/data never changes the simulation context; a payload
    whose isSimulation is truthy changes nothing; a pole id that is not one
    of the strings Pole1..Pole4 is answered with an error and changes
    nothing; and in mode REAL a payload flagged isSimulation: true with a
    valid pole id is accepted as 'SIM_LOGGING_ONLY' (this route does not
    reject it). *)
Theorem postData_keeps_simulation_out (now : Z) (body : gmap string JsVal) (srv : Server) :
  let r := postData stringToNumber now body srv in
  SimSystem r.1 = SimSystem srv
  ∧ (truthy (get body "isSimulation") = true → r.1 = srv)
  ∧ (validPole (get body "poleId") = false →
     r.1 = srv ∧ ∃ code error, r.2 = DataError code error)
  ∧ (mode srv = REAL → get body "isSimulation" = JBool true →
     validPole (get body "poleId") = true → r.2 = DataSuccess "SIM_LOGGING_ONLY").
Proof.
  cbv zeta. unfold postData. cbv zeta. split; [|split; [|split]].
  - repeat case_match; done.
  - intros ->. repeat case_match; done.
  - intros ->. rewrite orb_true_r. repeat case_match; cbn [fst snd]; eauto.
  - intros -> -> Hv. rewrite Hv. cbn [isTrue truthy negb orb].
    destruct (get body "poleId") as [| | | | |s]; try done. cbn [truthy].
    case_bool_decide as Hs; [|done]. subst. by vm_compute in Hv.
Qed.

Lemma dataSnapshot_outgoing now body :
  get (dataSnapshot stringToNumber now body) "outgoingCurrent" = JUndefined.
Proof. reflexivity. Qed.

(** X17. In mode REAL a telemetry record with a valid pole id and a falsy
    isSimulation is stored as that pole's snapshot with nodeState NORMAL
    and without any outgoingCurrent, so neither the fault condition nor the
    recovery condition holds on a segment whose upstream end is that
    pole. *)
Theorem postData_snapshot_never_feeds (now : Z) (body : gmap string JsVal) (srv : Server)
    (p : string) :
  mode srv = REAL → truthy (get body "isSimulation") = false →
  get body "poleId" = JStr p → p ∈ VALID_POLES →
  let r := postData stringToNumber now body srv in
  r.2 = DataSuccess "REAL"
  ∧ poleStates (RealSystem r.1) !! p = Some (dataSnapshot stringToNumber now body)
  ∧ get (dataSnapshot stringToNumber now body) "nodeState" = JStr "NORMAL"
  ∧ (∀ q, mismatch (poleStates (RealSystem r.1)) (p, q) = false
          ∧ recovering (poleStates (RealSystem r.1)) (p, q) = false).
Proof.
  intros Hm Hsim Hid Hp. cbv zeta. unfold postData. cbv zeta.
  assert (p ≠ "") as Hne.
  { intros ->. repeat (apply elem_of_cons in Hp as [?|Hp]; [done|]). by apply elem_of_nil in Hp. }
  rewrite Hm, Hid, Hsim. cbn [truthy validPole toPropertyKey].
  rewrite (bool_decide_eq_false_2 (p = "")), (bool_decide_eq_true_2 (p ∈ VALID_POLES)) by done.
  cbn [negb orb fst snd RealSystem].
  rewrite updatePole_poleStates.
  split; [done|]. split; [apply lookup_insert_eq|]. split; [done|].
  intros q. unfold mismatch, recovering. cbn [fst snd]. rewrite (lookup_insert_eq _ p).
  destruct (_ !! q); [|done].
  unfold faultCondition, recoveryCondition. rewrite dataSnapshot_outgoing. cbn [strictEq].
  by rewrite !andb_false_r.
Qed.

End PolesFacts.

(** ** Further properties of the node firmware *)

Section NodeMore.

Import Node NodeRun NodeCloud.

Variable POLE_NUMBER : Z.

Ltac node_unfold :=
  unfold run, step, controlTick, pollCommands, pollUpstreamState, runStateMachine,
    handleNormalState, handleGridDownState, handleFaultUpstreamState,
    handleFaultDownstreamState, handleRecoveryState, debounce, enableRelay,
    readVoltageCurrent, readCurrentSensors, IS_TERMINAL.

Lemma run_relayIn g e :
  relayInEnabled (run POLE_NUMBER g e) = relayInEnabled g
  ∨ relayInEnabled (run POLE_NUMBER g e) = false.
Proof.
  destruct e as [[now s|httpStatus body millis]|httpStatus body]; node_unfold; cbn [fst snd].
  - destruct (currentState g); cbn; repeat case_match; cbn; auto.
  - repeat case_match; cbn; auto.
  - repeat case_match; cbn; auto.
Qed.

Lemma relayIn_stays_off events g :
  relayInEnabled g = false → relayInEnabled (fold_left (run POLE_NUMBER) events g) = false.
Proof.
  revert g. induction events as [|e events IH]; intros g Hoff; [done|]. cbn [fold_left].
  apply IH. destruct (run_relayIn g e) as [->|Hoff']; congruence.
Qed.

(** X18. No control tick, command poll or upstream poll enables the incoming
    relay: once it is off it stays off, whatever follows. *)
Theorem incoming_relay_stays_off (events : list Event) (g : Globals) :
  relayInEnabled g = false → relayInEnabled (fold_left (run POLE_NUMBER) events g) = false.
Proof. apply relayIn_stays_off. Qed.

(** X19. After setup(): the first node without grid power is in GRID_DOWN with
    both relays off, and its incoming relay stays off through every later
    event; the first node with grid power, and nodes 2 and 3 in any case,
    are in NORMAL with both relays on; node 4 is in NORMAL with no relay
    flag set. *)
Theorem setup_fail_safe (s : Sensors) (events : list Event) :
  let g := setup POLE_NUMBER s in
  (POLE_NUMBER = 1 → inVal s ≤ CURRENT_THRESHOLD →
   currentState g = STATE_GRID_DOWN ∧ relayInEnabled g = false ∧ relayOutEnabled g = false
   ∧ relayInEnabled (fold_left (run POLE_NUMBER) events g) = false)
  ∧ (POLE_NUMBER = 1 → CURRENT_THRESHOLD < inVal s →
     currentState g = STATE_NORMAL ∧ relayInEnabled g = true ∧ relayOutEnabled g = true)
  ∧ (POLE_NUMBER = 2 ∨ POLE_NUMBER = 3 →
     currentState g = STATE_NORMAL ∧ relayInEnabled g = true ∧ relayOutEnabled g = true)
  ∧ (POLE_NUMBER = 4 →
     currentState g = STATE_NORMAL ∧ relayInEnabled g = false ∧ relayOutEnabled g = false).
Proof.
  cbv zeta. split; [|split; [|split]].
  - intros Hp Hlow.
    assert (relayInEnabled (setup POLE_NUMBER s) = false) as Hoff.
    { rewrite Hp. unfold setup, readCurrentSensors. cbn.
      apply Z.ltb_ge in Hlow. by rewrite Hlow. }
    split; [|split; [done|split; [|by apply relayIn_stays_off]]].
    all: rewrite Hp; unfold setup, readCurrentSensors; cbn;
      apply Z.ltb_ge in Hlow; by rewrite Hlow.
  - intros -> Hhigh. unfold setup, readCurrentSensors. cbn.
    apply Z.ltb_lt in Hhigh. by rewrite Hhigh.
  - by intros [-> | ->].
  - by intros ->.
Qed.

(** X20. Only the first node enters GRID_DOWN and only later nodes enter
    FAULT_UPSTREAM, on any control tick, command poll or upstream poll. *)
Theorem states_by_position (g : Globals) (e : Event) :
  (POLE_NUMBER ≠ 1 → currentState (run POLE_NUMBER g e) = STATE_GRID_DOWN →
   currentState g = STATE_GRID_DOWN)
  ∧ (POLE_NUMBER ≤ 1 → currentState (run POLE_NUMBER g e) = STATE_FAULT_UPSTREAM →
     currentState g = STATE_FAULT_UPSTREAM).
Proof.
  split; intros Hp.
  - apply Z.eqb_neq in Hp.
    destruct e as [[now s|httpStatus body millis]|httpStatus body]; node_unfold; cbn [fst snd];
      rewrite ?Hp; cbn [andb].
    + destruct (currentState g); cbn; repeat case_match; cbn; done.
    + repeat case_match; cbn; done.
    + repeat case_match; cbn; done.
  - apply Z.ltb_ge in Hp.
    destruct e as [[now s|httpStatus body millis]|httpStatus body]; node_unfold; cbn [fst snd];
      rewrite ?Hp; cbn [andb].
    + destruct (currentState g); cbn; repeat case_match; cbn; done.
    + repeat case_match; cbn; done.
    + done.
Qed.

(** X21. After an upstream poll that fails (HTTP status other than 200) a later
    node in NORMAL stays in NORMAL through any sequence of control ticks:
    without valid upstream data it never declares an upstream fault. *)
Theorem cloud_offline_no_upstream_fault (httpStatus : Z) (body : string) (g : Globals)
    (ticks : list (Z * Sensors)) :
  1 < POLE_NUMBER → httpStatus ≠ 200 → currentState g = STATE_NORMAL →
  let g' := fold_left (controlTick POLE_NUMBER) ticks
              (pollUpstreamState POLE_NUMBER httpStatus body g) in
  currentState g' = STATE_NORMAL ∧ upstreamDataValid g' = false.
Proof.
  intros Hp Hs Hn. cbv zeta.
  assert (currentState (pollUpstreamState POLE_NUMBER httpStatus body g) = STATE_NORMAL
          ∧ upstreamDataValid (pollUpstreamState POLE_NUMBER httpStatus body g) = false) as Hstart.
  { unfold pollUpstreamState. apply Z.ltb_lt in Hp. apply Z.eqb_neq in Hs. by rewrite Hp, Hs. }
  generalize dependent (pollUpstreamState POLE_NUMBER httpStatus body g).
  induction ticks as [|tk ticks IH]; intros g0 [Hn0 Hv0]; [done|]. cbn [fold_left].
  apply IH. assert ((POLE_NUMBER =? 1) = false) as Hne by (apply Z.eqb_neq; lia).
  node_unfold. cbn [fst snd]. rewrite Hn0, Hne. cbn. rewrite Hv0. cbn [andb].
  rewrite !andb_false_r. cbn. repeat case_match; cbn; done.
Qed.

(** X22. In NORMAL with incoming current present, a measured voltage above 260
    V or a measured current above 15 A sets the fault flag and the buzzer
    and, on a node that has relays, switches both off; the state stays
    NORMAL. *)
Theorem overvoltage_trips_relays (g : Globals) (now : Z) (s : Sensors) (v i : Q) :
  currentState g = STATE_NORMAL → CURRENT_THRESHOLD < inVal s →
  rmsVoltage s = Some v → rmsCurrent s = Some i →
  exceeds v OVERVOLTAGE_THRESHOLD || exceeds i OVERCURRENT_THRESHOLD = true →
  let g' := controlTick POLE_NUMBER g (now, s) in
  currentState g' = STATE_NORMAL ∧ faultFlag g' = true ∧ buzzer g' = true
  ∧ (POLE_NUMBER ≠ 4 → relayInEnabled g' = false ∧ relayOutEnabled g' = false).
Proof.
  intros Hn Hin Hv Hi Hex. cbv zeta. apply Z.ltb_lt in Hin.
  node_unfold. cbn [fst snd]. rewrite Hn, Hin, Hv, Hi. cbn. rewrite !andb_false_r. cbn.
  destruct (POLE_NUMBER =? 4) eqn:H4; destruct (POLE_NUMBER =? 1), (1 <? POLE_NUMBER);
    cbn; rewrite Hex; cbn.
  all: split; [done|]; split; [done|]; split; [done|]; intros Hp.
  all: first [ by apply Z.eqb_eq in H4 | done ].
Qed.

Lemma substring_prefix (a b body : string) (m : nat) :
  substring m (String.length (a ++ b)) body = (a ++ b)%string →
  substring m (String.length a) body = a.
Proof.
  revert body. induction m as [|m IH]; intros body.
  - revert body. induction a as [|c a IHa]; intros body; cbn.
    + by destruct body.
    + destruct body as [|c' body]; [done|]. cbn. intros [= -> Hrest]. f_equal. by apply IHa.
  - destruct body as [|c' body]; cbn.
    + destruct a; [done|]. cbn. done.
    + apply IH.
Qed.

Lemma contains_prefix (a b body : string) :
  a ≠ "" → contains (a ++ b) body = true → contains a body = true.
Proof.
  unfold contains. intros Ha.
  destruct (String.index 0 (a ++ b) body) as [m|] eqn:Hab; [intros _|done].
  apply index_correct1 in Hab. apply substring_prefix in Hab.
  destruct (String.index 0 a body) eqn:Hidx; [done|].
  exfalso. apply (index_correct3 0 m a body Hidx Ha); [lia|done].
Qed.

(** X23. On a non-terminal node a poll answer (HTTP 200) that contains
    DISABLE_OUTGOING_RELAY ends in FAULT_DOWNSTREAM with the outgoing relay
    off, whatever else the answer contains: an ENABLE_OUTGOING_RELAY in the
    same answer is not applied. The incoming relay and the recovery timer
    are left as they were. *)
Theorem disable_wins_the_poll (body : string) (millis : Z) (g : Globals) :
  IS_TERMINAL POLE_NUMBER = false → contains "DISABLE_OUTGOING_RELAY" body = true →
  let g' := pollCommands POLE_NUMBER 200 body millis g in
  currentState g' = STATE_FAULT_DOWNSTREAM ∧ relayOutEnabled g' = false
  ∧ relayInEnabled g' = relayInEnabled g ∧ recoveryStart g' = recoveryStart g.
Proof.
  intros Ht Hd. cbv zeta.
  assert (contains "DISABLE" body = true) as Hd'.
  { by apply (contains_prefix "DISABLE" "_OUTGOING_RELAY"). }
  unfold pollCommands, enableRelay. rewrite Ht, Hd, Hd'. cbn.
  rewrite andb_false_r. done.
Qed.

(** X24. The node's own recovery, on a non-terminal node whose timer has not
    wrapped: in RECOVERY a tick on which stability is broken reverts to
    FAULT_DOWNSTREAM and zeroes the timer; a stable tick 3000 ms or more
    after recoveryStart goes to NORMAL with the outgoing relay on; an
    earlier stable tick stays in RECOVERY. In FAULT_DOWNSTREAM a tick with
    outgoing current enters RECOVERY with the timer restarted at that
    tick. *)
Theorem node_recovery_interval (g : Globals) (now : Z) (s : Sensors) :
  IS_TERMINAL POLE_NUMBER = false →
  0 ≤ now - recoveryStart g < 2 ^ 32 →
  let stable := (CURRENT_THRESHOLD <? inVal s)
                && ((CURRENT_THRESHOLD <? outVal s) || negb (relayOutEnabled g)) in
  let g' := controlTick POLE_NUMBER g (now, s) in
  (currentState g = STATE_RECOVERY →
   if negb stable
   then currentState g' = STATE_FAULT_DOWNSTREAM ∧ recoveryStart g' = 0
        ∧ relayOutEnabled g' = relayOutEnabled g
   else if RECOVERY_MS <=? now - recoveryStart g
        then currentState g' = STATE_NORMAL ∧ relayOutEnabled g' = true
             ∧ faultFlag g' = false ∧ recoveryStart g' = 0
        else currentState g' = STATE_RECOVERY ∧ recoveryStart g' = recoveryStart g
             ∧ relayOutEnabled g' = relayOutEnabled g)
  ∧ (currentState g = STATE_FAULT_DOWNSTREAM →
     if CURRENT_THRESHOLD <? outVal s
     then currentState g' = STATE_RECOVERY ∧ recoveryStart g' = now
     else currentState g' = STATE_FAULT_DOWNSTREAM ∧ recoveryStart g' = recoveryStart g).
Proof.
  intros Ht Hrange. cbv zeta. unfold IS_TERMINAL in Ht.
  split; intros Hs; node_unfold; cbn [fst snd]; rewrite Hs, Ht; cbn.
  - rewrite (ulong_sub_small _ _ Hrange).
    destruct (CURRENT_THRESHOLD <? inVal s), (CURRENT_THRESHOLD <? outVal s),
      (relayOutEnabled g); cbn; try done.
    all: destruct (RECOVERY_MS <=? now - recoveryStart g); cbn; done.
  - destruct (CURRENT_THRESHOLD <? outVal s); cbn; done.
Qed.

End NodeMore.

Section PublishFacts.

Import Node NodeRun NodeCloud.

Context `{Host}.

Variable twoDecimals : Q → Q.

Lemma firmware_publish_stored (POLE_NUMBER : Z) (g : Globals) (now : Z) :
  1 ≤ POLE_NUMBER ≤ 4 →
  let snap := stateData now (publishBody POLE_NUMBER twoDecimals g) in
  get snap "poleId" = JStr (POLE_ID POLE_NUMBER)
  ∧ get snap "incomingCurrent" = highLow (incomingCurrentHigh g)
  ∧ get snap "outgoingCurrent"
    = (if POLE_NUMBER =? 4 then JStr "N/A" else highLow (outgoingCurrentHigh g))
  ∧ get snap "relayIn" = (if POLE_NUMBER =? 4 then JStr "N/A" else onOff (relayInEnabled g))
  ∧ get snap "relayOut" = (if POLE_NUMBER =? 4 then JStr "N/A" else onOff (relayOutEnabled g))
  ∧ get snap "nodeState" = JStr (stateStr (currentState g))
  ∧ get snap "faultFlag" = JBool (faultFlag g).
Proof.
  intros Hp. cbv zeta.
  assert (POLE_NUMBER = 1 ∨ POLE_NUMBER = 2 ∨ POLE_NUMBER = 3 ∨ POLE_NUMBER = 4)
    as [-> | [-> | [-> | ->]]] by lia.
  all: destruct g as [st inHigh outHigh rIn rOut v c ff uh uv fs rs bz];
    destruct inHigh, outHigh, rIn, rOut; repeat split; reflexivity.
Qed.

(** X25. For the bodies two neighbouring nodes publish (short codes included),
    the snapshots the arbiter builds make the fault condition hold exactly
    when the downstream node senses no incoming current and the upstream
    node senses outgoing current, and the recovery condition exactly when
    both sense current; the upstream snapshot carries the node's pole id,
    outgoing relay, state name and fault flag. *)
Theorem firmware_publish_conditions (POLE_NUMBER : Z) (up down : Globals) (now now' : Z) :
  1 ≤ POLE_NUMBER ≤ 3 →
  let upstreamState := stateData now (publishBody POLE_NUMBER twoDecimals up) in
  let currentState := stateData now' (publishBody (POLE_NUMBER + 1) twoDecimals down) in
  faultCondition currentState upstreamState
  = negb (incomingCurrentHigh down) && outgoingCurrentHigh up
  ∧ recoveryCondition currentState upstreamState
    = incomingCurrentHigh down && outgoingCurrentHigh up
  ∧ get upstreamState "poleId" = JStr (POLE_ID POLE_NUMBER)
  ∧ get upstreamState "relayOut" = onOff (relayOutEnabled up)
  ∧ get upstreamState "nodeState" = JStr (stateStr (Node.currentState up))
  ∧ get upstreamState "faultFlag" = JBool (faultFlag up).
Proof.
  intros Hp. cbv zeta.
  destruct (firmware_publish_stored POLE_NUMBER up now) as (Hid & _ & _ & _ & Hro & Hns & Hff);
    [lia|].
  rewrite Hid, Hro, Hns, Hff.
  replace (POLE_NUMBER =? 4) with false by (symmetry; apply Z.eqb_neq; lia).
  clear Hid Hro Hns Hff.
  assert (POLE_NUMBER = 1 ∨ POLE_NUMBER = 2 ∨ POLE_NUMBER = 3) as [-> | [-> | ->]] by lia.
  all: destruct up as [st inHigh outHigh rIn rOut v c ff uh uv fs rs bz];
    destruct down as [st' inHigh' outHigh' rIn' rOut' v' c' ff' uh' uv' fs' rs' bz'];
    destruct outHigh, inHigh'; (split; [reflexivity|split; [reflexivity|done]]).
Qed.

End PublishFacts.

(** ** The simulator *)

Section SimulatorFacts.

Import Simulator SimulatorTerms.

Context `{Host}.

Implicit Types (sim : Sim).

Ltac lookups := repeat first [rewrite lookup_insert_eq | rewrite lookup_insert_ne by done].

Lemma upstreamId_2 : upstreamId "Pole2" = "Pole1". Proof. reflexivity. Qed.
Lemma upstreamId_3 : upstreamId "Pole3" = "Pole2". Proof. reflexivity. Qed.
Lemma upstreamId_4 : upstreamId "Pole4" = "Pole3". Proof. reflexivity. Qed.

Lemma processPole_first sample sim pole r :
  poles sim !! "Pole1" = Some pole → readings sim !! "Pole1" = Some r →
  let hasInputPower := gridPower (physics sim) && bool_decide (relayIn pole = "ON") in
  processPole "Pole1" (gridPower (physics sim)) sample sim
  = Some (set_readings
            (<["Pole1" :=
                 mkReading (highLow hasInputPower)
                   (highLow (hasInputPower && bool_decide (relayOut pole = "ON")))
                   (if hasInputPower then sample.1 else (0 # 1)%Q)
                   (if hasInputPower then sample.2 else (0 # 1)%Q)
                   (settledState sim "Pole1" hasInputPower false)]>
               (readings sim)) sim).
Proof.
  intros Hp Hr. cbv zeta. unfold processPole. rewrite Hp, Hr. cbn [mbind option_bind].
  unfold settledState. cbn.
  destruct (gridPower (physics sim)), (bool_decide (relayIn pole = "ON")); cbn; done.
Qed.

Lemma processPole_later poleId avail sample sim pole r up :
  poleId ≠ "Pole1" →
  poles sim !! poleId = Some pole → readings sim !! poleId = Some r →
  upstreamId poleId ≠ poleId → readings sim !! upstreamId poleId = Some up →
  let isTerminal := bool_decide (poleId = "Pole4") in
  let hasInputPower := avail && (bool_decide (relayIn pole = "ON") || isTerminal) in
  let hasOutputPower := hasInputPower && bool_decide (relayOut pole = "ON") in
  processPole poleId avail sample sim
  = Some (set_readings
            (<[poleId :=
                 mkReading (highLow hasInputPower)
                   (if negb isTerminal then highLow hasOutputPower else outCurrent r)
                   (if hasInputPower then sample.1 else (0 # 1)%Q)
                   (if hasInputPower then sample.2 else (0 # 1)%Q)
                   (settledState sim poleId hasInputPower
                      (bool_decide (outCurrent up = "HIGH")))]>
               (readings sim)) sim).
Proof.
  intros H1 Hp Hr Hne Hup. cbv zeta.
  unfold processPole. rewrite Hp, Hr. cbn [mbind option_bind].
  rewrite lookup_insert_ne, Hup by done. cbn [mbind option_bind].
  unfold settledState. cbn [inCurrent outCurrent voltage current state].
  rewrite (bool_decide_eq_false_2 (poleId = "Pole1")) by done. cbn [negb andb].
  destruct (bool_decide (poleId = "Pole4")); cbn [negb andb orb];
  destruct (avail && _) eqn:Hin; cbn [negb andb mbind option_bind highLow].
  all: destruct (gridPower (physics sim)); cbn [negb]; try (cbn; done).
  all: try (destruct (isCut sim _), (bool_decide (outCurrent up = "HIGH")); cbn; done).
  all: rewrite bool_decide_eq_true_2 by done; done.
Qed.

Lemma highLow_high b : bool_decide (highLow b = "HIGH") = b.
Proof. by destruct b. Qed.

Lemma wellFormed_entries sim :
  wellFormed sim →
  ∃ p1 p2 p3 p4 r1 r2 r3 r4,
    poles sim !! "Pole1" = Some p1 ∧ poles sim !! "Pole2" = Some p2
    ∧ poles sim !! "Pole3" = Some p3 ∧ poles sim !! "Pole4" = Some p4
    ∧ readings sim !! "Pole1" = Some r1 ∧ readings sim !! "Pole2" = Some r2
    ∧ readings sim !! "Pole3" = Some r3 ∧ readings sim !! "Pole4" = Some r4.
Proof.
  intros Hwf.
  destruct (Hwf "Pole1") as [[p1 ?] [r1 ?]]; [compute_done|].
  destruct (Hwf "Pole2") as [[p2 ?] [r2 ?]]; [compute_done|].
  destruct (Hwf "Pole3") as [[p3 ?] [r3 ?]]; [compute_done|].
  destruct (Hwf "Pole4") as [[p4 ?] [r4 ?]]; [compute_done|].
  by exists p1, p2, p3, p4, r1, r2, r3, r4.
Qed.

Lemma powerAfter_insert poleId wire rs sim r :
  powerAfter poleId wire (set_readings (<[poleId := r]> rs) sim)
  = Some (bool_decide (outCurrent r = "HIGH") && negb (isCut sim wire)).
Proof. unfold powerAfter. cbn [readings set_readings]. by rewrite lookup_insert_eq. Qed.

Lemma isCut_set_readings rs sim wire : isCut (set_readings rs sim) wire = isCut sim wire.
Proof. reflexivity. Qed.

Lemma settledState_set_readings rs sim poleId a b :
  settledState (set_readings rs sim) poleId a b = settledState sim poleId a b.
Proof. reflexivity. Qed.

Lemma set_readings_twice rs rs' sim :
  set_readings rs' (set_readings rs sim) = set_readings rs' sim.
Proof. reflexivity. Qed.

Lemma calculatePhysics_readings samples sim p1 p2 p3 p4 r1 r2 r3 r4 :
  poles sim !! "Pole1" = Some p1 → poles sim !! "Pole2" = Some p2 →
  poles sim !! "Pole3" = Some p3 → poles sim !! "Pole4" = Some p4 →
  readings sim !! "Pole1" = Some r1 → readings sim !! "Pole2" = Some r2 →
  readings sim !! "Pole3" = Some r3 → readings sim !! "Pole4" = Some r4 →
  let in1 := gridPower (physics sim) && bool_decide (relayIn p1 = "ON") in
  let out1 := in1 && bool_decide (relayOut p1 = "ON") in
  let in2 := out1 && negb (isCut sim "Pole1-Pole2") && (bool_decide (relayIn p2 = "ON") || false) in
  let out2 := in2 && bool_decide (relayOut p2 = "ON") in
  let in3 := out2 && negb (isCut sim "Pole2-Pole3") && (bool_decide (relayIn p3 = "ON") || false) in
  let out3 := in3 && bool_decide (relayOut p3 = "ON") in
  let in4 := out3 && negb (isCut sim "Pole3-Pole4") && (bool_decide (relayIn p4 = "ON") || true) in
  let reading (inp : bool) (out : string) (p : string) (up : bool) :=
    mkReading (highLow inp) out (if inp then (samples p).1 else (0 # 1)%Q)
      (if inp then (samples p).2 else (0 # 1)%Q) (settledState sim p inp up) in
  calculatePhysics samples sim
  = Some (set_readings
            (<["Pole4" := reading in4 (outCurrent r4) "Pole4" out3]>
               (<["Pole3" := reading in3 (highLow out3) "Pole3" out2]>
                  (<["Pole2" := reading in2 (highLow out2) "Pole2" out1]>
                     (<["Pole1" := reading in1 (highLow out1) "Pole1" false]> (readings sim)))))
            sim).
Proof.
  intros Hp1 Hp2 Hp3 Hp4 Hr1 Hr2 Hr3 Hr4. cbv zeta. unfold calculatePhysics.
  rewrite (processPole_first _ _ p1 r1) by done. cbn [mbind option_bind].
  rewrite powerAfter_insert. cbn [mbind option_bind outCurrent]. rewrite highLow_high.
  erewrite (processPole_later "Pole2" _ _ _ p2 r2); [|done|done| |done|].
  2: { cbn [readings set_readings]. by rewrite lookup_insert_ne. }
  2: { rewrite upstreamId_2. cbn [readings set_readings]. apply lookup_insert_eq. }
  rewrite !(bool_decide_eq_false_2 ("Pole2" = "Pole4")) by done. cbn [negb].
  cbn [mbind option_bind]. rewrite powerAfter_insert.
  cbn [mbind option_bind outCurrent negb]. rewrite !highLow_high.
  erewrite (processPole_later "Pole3" _ _ _ p3 r3); [|done|done| |done|].
  2: { cbn [readings set_readings]. by rewrite !lookup_insert_ne. }
  2: { rewrite upstreamId_3. cbn [readings set_readings]. apply lookup_insert_eq. }
  rewrite !(bool_decide_eq_false_2 ("Pole3" = "Pole4")) by done. cbn [negb].
  cbn [mbind option_bind]. rewrite powerAfter_insert.
  cbn [mbind option_bind outCurrent negb]. rewrite !highLow_high.
  erewrite (processPole_later "Pole4" _ _ _ p4 r4); [|done|done| |done|].
  2: { cbn [readings set_readings]. by rewrite !lookup_insert_ne. }
  2: { rewrite upstreamId_4. cbn [readings set_readings]. apply lookup_insert_eq. }
  rewrite !(bool_decide_eq_true_2 ("Pole4" = "Pole4")) by done. cbn [negb].
  rewrite ?isCut_set_readings, ?settledState_set_readings, ?set_readings_twice.
  cbn [outCurrent readings set_readings]. rewrite !highLow_high.
  reflexivity.
Qed.

Lemma highLow_some b : bool_decide (Some (highLow b) = Some "HIGH") = b.
Proof. by destruct b. Qed.

Lemma relay_some (f : Pole → string) pole :
  bool_decide (Some (f pole) = Some "ON") = bool_decide (f pole = "ON").
Proof. apply bool_decide_ext. split; [by intros [= ->]|by intros ->]. Qed.

(** The readings after one pass, in closed form. *)
Lemma physics_closed_form samples sim :
  wellFormed sim →
  let in1 := gridPower (physics sim) && relayInOn sim "Pole1" in
  let out1 := in1 && relayOutOn sim "Pole1" in
  let in2 := out1 && negb (isCut sim "Pole1-Pole2") && relayInOn sim "Pole2" in
  let out2 := in2 && relayOutOn sim "Pole2" in
  let in3 := out2 && negb (isCut sim "Pole2-Pole3") && relayInOn sim "Pole3" in
  let out3 := in3 && relayOutOn sim "Pole3" in
  let in4 := out3 && negb (isCut sim "Pole3-Pole4") in
  ∃ sim', calculatePhysics samples sim = Some sim'
    ∧ physics sim' = physics sim ∧ poles sim' = poles sim ∧ wellFormed sim'
    ∧ (incoming sim' "Pole1" = in1 ∧ incoming sim' "Pole2" = in2
       ∧ incoming sim' "Pole3" = in3 ∧ incoming sim' "Pole4" = in4)
    ∧ (outgoing sim' "Pole1" = out1 ∧ outgoing sim' "Pole2" = out2
       ∧ outgoing sim' "Pole3" = out3)
    ∧ (reported sim' "Pole1" = Some (settledState sim "Pole1" in1 false)
       ∧ reported sim' "Pole2" = Some (settledState sim "Pole2" in2 out1)
       ∧ reported sim' "Pole3" = Some (settledState sim "Pole3" in3 out2)
       ∧ reported sim' "Pole4" = Some (settledState sim "Pole4" in4 out3))
    ∧ (∀ p, p ∈ POLE_ORDER →
         ∃ r, readings sim' !! p = Some r ∧ inCurrent r = highLow (incoming sim' p)
              ∧ (p ≠ "Pole4" → outCurrent r = highLow (outgoing sim' p))).
Proof.
  intros Hwf. cbv zeta.
  destruct (wellFormed_entries sim Hwf)
    as (p1 & p2 & p3 & p4 & r1 & r2 & r3 & r4 & Hp1 & Hp2 & Hp3 & Hp4 & Hr1 & Hr2 & Hr3 & Hr4).
  eexists. split; [by apply (calculatePhysics_readings samples sim p1 p2 p3 p4 r1 r2 r3 r4)|].
  unfold incoming, outgoing, reported, relayInOn, relayOutOn. cbn [readings set_readings].
  rewrite Hp1, Hp2, Hp3, ?Hp4. cbn [fmap option_fmap option_map].
  rewrite !relay_some, !orb_false_r, !orb_true_r, !andb_true_r.
  split; [done|]. split; [done|]. split.
  { intros p Hp. cbn [poles readings set_readings]. split; [by apply Hwf|].
    repeat (apply elem_of_cons in Hp as [->|Hp];
            [lookups; eauto|]).
    by apply elem_of_nil in Hp. }
  split.
  { lookups. cbn. by rewrite !highLow_some. }
  split.
  { lookups. cbn. by rewrite !highLow_some. }
  split.
  { lookups. done. }
  intros p Hp.
  repeat (apply elem_of_cons in Hp as [->|Hp];
          [lookups; eexists; split; [done|]; cbn; rewrite ?highLow_some; done|]).
  by apply elem_of_nil in Hp.
Qed.

Lemma flow_equations (samples : string → Q * Q) (sim : Sim) :
  wellFormed sim →
  ∃ sim', calculatePhysics samples sim = Some sim'
    ∧ wellFormed sim' ∧ physics sim' = physics sim ∧ poles sim' = poles sim
    ∧ incoming sim' "Pole1" = gridPower (physics sim) && relayInOn sim "Pole1"
    ∧ (∀ pr, pr ∈ adjacentPairs POLE_ORDER →
         outgoing sim' pr.1 = incoming sim' pr.1 && relayOutOn sim pr.1
         ∧ incoming sim' pr.2
           = outgoing sim' pr.1 && negb (isCut sim (segmentId pr))
             && (relayInOn sim pr.2 || bool_decide (pr.2 = "Pole4"))
         ∧ (incoming sim' pr.1 = false → incoming sim' pr.2 = false)).
Proof.
  intros Hwf. destruct (physics_closed_form samples sim Hwf)
    as (sim' & Hrun & Hph & Hpo & Hwf' & (Hi1 & Hi2 & Hi3 & Hi4) & (Ho1 & Ho2 & Ho3) & _).
  exists sim'. split; [done|]. split; [done|]. split; [done|]. split; [done|].
  split; [done|]. intros pr Hpr. rewrite adjacentPairs_POLE_ORDER in Hpr.
  repeat (apply elem_of_cons in Hpr as [->|Hpr]); [| | |by apply elem_of_nil in Hpr];
    cbn [fst snd]; rewrite ?Hi1, ?Hi2, ?Hi3, ?Hi4, ?Ho1, ?Ho2, ?Ho3.
  - split; [done|]. split; [by rewrite orb_false_r|]. by intros ->.
  - split; [done|]. split; [by rewrite orb_false_r|].
    by intros ->.
  - split; [done|]. split; [by rewrite orb_true_r, andb_true_r|].
    by intros ->.
Qed.

(** X26. On a simulator state with entries for the four poles one pass of
    calculatePhysics succeeds, and its readings obey the power flow: Pole1
    has incoming current iff the grid is up and its incoming relay is ON;
    a pole has outgoing current iff it has incoming current and its
    outgoing relay is ON; the next pole has incoming current iff its
    neighbour has outgoing current, the wire between them is not cut and
    its incoming relay is ON (Pole4's incoming relay is not consulted); a
    pole below one without incoming current has none. The pass changes
    neither the physics nor the relays. *)
Theorem power_flow (samples : string → Q * Q) (sim : Sim) :
  wellFormed sim →
  ∃ sim', calculatePhysics samples sim = Some sim'
    ∧ wellFormed sim' ∧ physics sim' = physics sim ∧ poles sim' = poles sim
    ∧ incoming sim' "Pole1" = gridPower (physics sim) && relayInOn sim "Pole1"
    ∧ (∀ pr, pr ∈ adjacentPairs POLE_ORDER →
         outgoing sim' pr.1 = incoming sim' pr.1 && relayOutOn sim pr.1
         ∧ incoming sim' pr.2
           = outgoing sim' pr.1 && negb (isCut sim (segmentId pr))
             && (relayInOn sim pr.2 || bool_decide (pr.2 = "Pole4"))
         ∧ (incoming sim' pr.1 = false → incoming sim' pr.2 = false)).
Proof. apply flow_equations. Qed.

(** X27. After a pass Pole1 reports GRID_DOWN iff the grid is down (else
    NORMAL), and a later pole reports FAULT_UPSTREAM iff the grid is up, the
    wire above it is cut and its upstream neighbour has outgoing current
    (else NORMAL). *)
Theorem reported_states (samples : string → Q * Q) (sim sim' : Sim) :
  wellFormed sim → calculatePhysics samples sim = Some sim' →
  (reported sim' "Pole1"
   = Some (if gridPower (physics sim) then "NORMAL" else "GRID_DOWN"))
  ∧ (∀ pr, pr ∈ adjacentPairs POLE_ORDER →
       reported sim' pr.2
       = Some (if gridPower (physics sim) && isCut sim (segmentId pr) && outgoing sim' pr.1
               then "FAULT_UPSTREAM" else "NORMAL")).
Proof.
  intros Hwf Hrun. destruct (physics_closed_form samples sim Hwf)
    as (sim'' & Hrun' & _ & _ & _ & (Hi1 & Hi2 & Hi3 & Hi4) & (Ho1 & Ho2 & Ho3)
        & (Hs1 & Hs2 & Hs3 & Hs4) & _).
  rewrite Hrun in Hrun'. injection Hrun' as <-.
  split.
  - rewrite Hs1. unfold settledState. cbn.
    destruct (gridPower (physics sim)); cbn; [done|]. done.
  - intros pr Hpr. rewrite adjacentPairs_POLE_ORDER in Hpr.
    repeat (apply elem_of_cons in Hpr as [->|Hpr]); [| | |by apply elem_of_nil in Hpr];
      cbn [fst snd]; rewrite ?Hs2, ?Hs3, ?Hs4, <- ?Ho3, <- ?Ho2, <- ?Ho1;
      unfold settledState; rewrite ?upstreamId_2, ?upstreamId_3, ?upstreamId_4;
      change (segmentId ("Pole1", "Pole2")) with "Pole1-Pole2";
      change (segmentId ("Pole2", "Pole3")) with "Pole2-Pole3";
      change (segmentId ("Pole3", "Pole4")) with "Pole3-Pole4";
      change ("Pole1" +:+ "-" +:+ "Pole2") with "Pole1-Pole2";
      change ("Pole2" +:+ "-" +:+ "Pole3") with "Pole2-Pole3";
      change ("Pole3" +:+ "-" +:+ "Pole4") with "Pole3-Pole4";
      rewrite (bool_decide_eq_false_2 (_ = "Pole1")) by done.
    1: destruct (isCut sim "Pole1-Pole2"), (outgoing sim' "Pole1").
    5: destruct (isCut sim "Pole2-Pole3"), (outgoing sim' "Pole2").
    9: destruct (isCut sim "Pole3-Pole4"), (outgoing sim' "Pole3").
    all: destruct (gridPower (physics sim)); cbn; rewrite ?andb_false_r; done.
Qed.

Lemma coordinationBody_currents now p sim pole r (i o : bool) :
  p ∈ POLE_ORDER → poles sim !! p = Some pole → readings sim !! p = Some r →
  inCurrent r = highLow i → (p ≠ "Pole4" → outCurrent r = highLow o) →
  ∃ body, coordinationBody now p sim = Some body
    ∧ get (stateData now body) "incomingCurrent" = JStr (highLow i)
    ∧ get (stateData now body) "outgoingCurrent"
      = (if bool_decide (p = "Pole4") then JStr "N/A" else JStr (highLow o)).
Proof.
  intros Hp Hpole Hr Hin Hout. unfold coordinationBody. rewrite Hpole, Hr.
  cbn [mbind option_bind].
  repeat (apply elem_of_cons in Hp as [->|Hp]); [| | | |by apply elem_of_nil in Hp].
  1-3: rewrite Hin, Hout by done.
  4: rewrite Hin.
  all: eexists; split; [reflexivity|]; destruct i, o; split; reflexivity.
Qed.

Lemma published_lookup now sim p :
  wellFormed sim → p ∈ POLE_ORDER →
  ∃ body, coordinationBody now p sim = Some body
          ∧ published now sim !! p = Some (stateData now body).
Proof.
  intros Hwf Hp.
  assert (∀ q, q ∈ POLE_ORDER → is_Some (coordinationBody now q sim)) as Hall.
  { intros q Hq. destruct (Hwf q Hq) as [[pole Hpole] [r Hr]].
    unfold coordinationBody. rewrite Hpole, Hr. cbn [mbind option_bind].
    destruct (shortKeys q) as [[[[[? ?] ?] ?] ?] ?]. eauto. }
  destruct (Hall "Pole1") as [b1 H1]; [compute_done|].
  destruct (Hall "Pole2") as [b2 H2]; [compute_done|].
  destruct (Hall "Pole3") as [b3 H3]; [compute_done|].
  destruct (Hall "Pole4") as [b4 H4]; [compute_done|].
  unfold published, POLE_ORDER. cbn [omap list_omap]. rewrite H1, H2, H3, H4.
  cbn [fmap option_fmap option_map list_to_map foldr fst snd uncurry].
  repeat (apply elem_of_cons in Hp as [->|Hp]); [| | | |by apply elem_of_nil in Hp].
  all: eexists; split; [eassumption|]; lookups; reflexivity.
Qed.

Lemma published_conditions now sim pr :
  wellFormed sim → pr ∈ adjacentPairs POLE_ORDER →
  (∀ p, p ∈ POLE_ORDER →
        ∃ r, readings sim !! p = Some r ∧ inCurrent r = highLow (incoming sim p)
             ∧ (p ≠ "Pole4" → outCurrent r = highLow (outgoing sim p))) →
  mismatch (published now sim) pr = outgoing sim pr.1 && negb (incoming sim pr.2)
  ∧ recovering (published now sim) pr = outgoing sim pr.1 && incoming sim pr.2
  ∧ pole1Incoming (published now sim) "LOW" = negb (incoming sim "Pole1").
Proof.
  intros Hwf Hpr Hread.
  assert (∀ p, p ∈ POLE_ORDER →
            ∃ snap, published now sim !! p = Some snap
              ∧ get snap "incomingCurrent" = JStr (highLow (incoming sim p))
              ∧ (p ≠ "Pole4" → get snap "outgoingCurrent" = JStr (highLow (outgoing sim p))))
    as Hsnap.
  { intros p Hp. destruct (Hwf p Hp) as [[pole Hpole] _].
    destruct (Hread p Hp) as (r & Hr & Hin & Hout).
    destruct (coordinationBody_currents now p sim pole r _ (outgoing sim p) Hp Hpole Hr Hin Hout)
      as (body & Hb & Hi & Ho).
    destruct (published_lookup now sim p Hwf Hp) as (body' & Hb' & Hl).
    rewrite Hb in Hb'. injection Hb' as <-.
    eexists. split; [done|]. split; [done|]. intros Hne.
    by rewrite Ho, (bool_decide_eq_false_2 (p = "Pole4")). }
  assert (pr.1 ∈ POLE_ORDER ∧ pr.2 ∈ POLE_ORDER ∧ pr.1 ≠ "Pole4") as (H1 & H2 & Hne).
  { rewrite adjacentPairs_POLE_ORDER in Hpr.
    repeat (apply elem_of_cons in Hpr as [->|Hpr]); [| | |by apply elem_of_nil in Hpr];
      repeat split; try done; compute_done. }
  destruct (Hsnap pr.1 H1) as (up & Hup & _ & Hupout).
  destruct (Hsnap pr.2 H2) as (down & Hdown & Hdownin & _).
  destruct (Hsnap "Pole1") as (first & Hfirst & Hfirstin & _); [compute_done|].
  unfold mismatch, recovering, pole1Incoming, faultCondition, recoveryCondition.
  rewrite Hup, Hdown, Hfirst, Hdownin, Hupout, Hfirstin by done.
  destruct (incoming sim pr.2), (outgoing sim pr.1), (incoming sim "Pole1"); done.
Qed.

Lemma chain_unique (o1 n2 r2 x2 n3 r3 x3 n4 r4 : bool) :
  let i2 := o1 && n2 && r2 in
  let o2 := i2 && x2 in
  let i3 := o2 && n3 && r3 in
  let o3 := i3 && x3 in
  let i4 := o3 && n4 && r4 in
  (o1 && negb i2 = true → o2 && negb i3 = true → False)
  ∧ (o1 && negb i2 = true → o3 && negb i4 = true → False)
  ∧ (o2 && negb i3 = true → o1 && negb i2 = true → False)
  ∧ (o2 && negb i3 = true → o3 && negb i4 = true → False)
  ∧ (o3 && negb i4 = true → o1 && negb i2 = true → False)
  ∧ (o3 && negb i4 = true → o2 && negb i3 = true → False).
Proof. destruct o1, n2, r2, x2, n3, r3, x3, n4, r4; cbn; intuition congruence. Qed.

(** X28. On the snapshots published from one pass the fault mismatch holds on a
    segment iff its upstream pole has outgoing current and its downstream
    pole has no incoming current; it holds on at most one segment, and on
    none when Pole1 reports incoming LOW. A run of the engine on these
    snapshots (not the grid-restored run) with that segment not yet
    isolated isolates it, sets status FAULT with the fault located there
    and appends one DISABLE_OUTGOING_RELAY to its upstream pole. *)
Theorem one_fault_at_a_time (samples : string → Q * Q) (now : Z) (sim sim' : Sim) :
  wellFormed sim → calculatePhysics samples sim = Some sim' →
  (∀ pr, pr ∈ adjacentPairs POLE_ORDER →
         mismatch (published now sim') pr = outgoing sim' pr.1 && negb (incoming sim' pr.2))
  ∧ (∀ q q', q ∈ adjacentPairs POLE_ORDER → q' ∈ adjacentPairs POLE_ORDER →
             mismatch (published now sim') q = true → mismatch (published now sim') q' = true →
             q = q')
  ∧ pole1Incoming (published now sim') "LOW" = negb (incoming sim' "Pole1")
  ∧ (pole1Incoming (published now sim') "LOW" = true →
     ∀ pr, pr ∈ adjacentPairs POLE_ORDER → mismatch (published now sim') pr = false)
  ∧ (∀ c now' pr, pr ∈ adjacentPairs POLE_ORDER → poleStates c = published now sim' →
       gridRestoring c = false → mismatch (published now sim') pr = true →
       segmentId pr ∉ isolated c →
       let r := runEngine now' c in
       segmentId pr ∈ isolated r.1
       ∧ status (systemState r.1) = FAULT
       ∧ faultLocation (systemState r.1) = Some (segmentId pr)
       ∧ queueOf r.1 pr.1 = queueOf c pr.1 ++ [disableCommand pr now']).
Proof.
  intros Hwf Hrun.
  destruct (physics_closed_form samples sim Hwf) as (sim'' & Hrun' & _ & _ & Hwf' & _ & _ & _ & Hread).
  destruct (flow_equations samples sim Hwf) as (sim3 & Hrun3 & _ & _ & _ & _ & Hflow).
  rewrite Hrun in Hrun', Hrun3. injection Hrun' as <-. injection Hrun3 as <-.
  assert (∀ pr, pr ∈ adjacentPairs POLE_ORDER →
            mismatch (published now sim') pr = outgoing sim' pr.1 && negb (incoming sim' pr.2))
    as Hm.
  { intros pr Hpr. by destruct (published_conditions now sim' pr Hwf' Hpr Hread) as (-> & _). }
  destruct (Hflow ("Pole1", "Pole2")) as (Ho1 & Hi2 & _); [compute_done|].
  destruct (Hflow ("Pole2", "Pole3")) as (Ho2 & Hi3 & _); [compute_done|].
  destruct (Hflow ("Pole3", "Pole4")) as (Ho3 & Hi4 & _); [compute_done|].
  cbn [fst snd] in Ho1, Ho2, Ho3, Hi2, Hi3, Hi4.
  assert (∀ q q', q ∈ adjacentPairs POLE_ORDER → q' ∈ adjacentPairs POLE_ORDER →
             mismatch (published now sim') q = true → mismatch (published now sim') q' = true →
             q = q') as Hunique.
  { intros q q' Hq Hq'. rewrite !Hm by done. rewrite adjacentPairs_POLE_ORDER in Hq, Hq'.
    repeat (apply elem_of_cons in Hq as [->|Hq]); [| | |by apply elem_of_nil in Hq];
      (repeat (apply elem_of_cons in Hq' as [->|Hq']); [| | |by apply elem_of_nil in Hq']);
      cbn [fst snd]; try done; rewrite ?Hi4, ?Ho3, ?Hi3, ?Ho2, ?Hi2; intros Ha Hb; exfalso;
      revert Ha Hb; apply chain_unique.
    all: exact true. }
  assert (pole1Incoming (published now sim') "LOW" = true →
          ∀ pr, pr ∈ adjacentPairs POLE_ORDER → mismatch (published now sim') pr = false)
    as Hdown.
  { destruct (published_conditions now sim' ("Pole1", "Pole2") Hwf') as (_ & _ & ->);
      [compute_done|done|].
    intros Hlow pr Hpr. rewrite Hm by done. apply negb_true_iff in Hlow.
    rewrite adjacentPairs_POLE_ORDER in Hpr.
    repeat (apply elem_of_cons in Hpr as [->|Hpr]); [| | |by apply elem_of_nil in Hpr];
      cbn [fst snd]; rewrite ?Ho3, ?Hi3, ?Ho2, ?Hi2, ?Ho1, Hlow; done. }
  split; [done|]. split; [done|]. split; [|split; [done|]].
  - destruct (published_conditions now sim' ("Pole1", "Pole2") Hwf') as (_ & _ & ->);
      [compute_done|done|done].
  - intros c now' pr Hpr Hstore Hgrid Hmis Hnew. cbv zeta.
    destruct (list_elem_of_split _ _ Hpr) as (pre & post & Hsplit).
    assert (pole1Incoming (poleStates c) "LOW" = false) as Hlow.
    { rewrite Hstore. apply not_true_is_false. intros E.
      by rewrite (Hdown E pr Hpr) in Hmis. }
    rewrite <- Hstore in Hmis.
    destruct (runEngine_raises now' c pre pr post Hsplit Hlow Hgrid Hmis Hnew)
      as (Hin & Hst & Hq & _ & Hloc).
    split; [done|]. split; [done|]. split; [|done].
    apply Hloc. intros q Hq' Hmq. exfalso.
    assert (q ∈ adjacentPairs POLE_ORDER) as Hqa.
    { rewrite Hsplit. apply elem_of_app. right. by right. }
    rewrite Hstore in Hmq, Hmis.
    assert (q = pr) as -> by by apply Hunique.
    pose proof segments_NoDup as Hnd. rewrite Hsplit, fmap_app, fmap_cons in Hnd.
    apply NoDup_app in Hnd as (_ & _ & [Hn _]%NoDup_cons).
    apply Hn. by apply list_elem_of_fmap_2.
Qed.

Lemma upstream_in_chain pr :
  pr ∈ adjacentPairs POLE_ORDER → pr.1 ∈ POLE_ORDER ∧ pr.2 ∈ POLE_ORDER ∧ pr.1 ≠ "Pole4".
Proof.
  intros Hpr. rewrite adjacentPairs_POLE_ORDER in Hpr.
  repeat (apply elem_of_cons in Hpr as [->|Hpr]); [| | |by apply elem_of_nil in Hpr];
    repeat split; try done; compute_done.
Qed.

(** X29. Executing the engine's DISABLE_OUTGOING_RELAY in the simulator turns
    the pole's outgoing relay OFF; and while that relay is not ON, a pass
    gives the pole no outgoing current, so the published snapshots show
    neither the mismatch nor the recovery condition on the segment below it
    and a run of the engine on them (not the grid-restored run) keeps the
    segment isolated. *)
Theorem open_relay_keeps_segment_isolated (samples : string → Q * Q) (now t : Z) (sim : Sim)
    (pr : string * string) :
  wellFormed sim → pr ∈ adjacentPairs POLE_ORDER →
  (∃ sim1, executeCommands pr.1 [disableCommand pr t] sim = Some sim1
           ∧ wellFormed sim1 ∧ relayOutOn sim1 pr.1 = false ∧ physics sim1 = physics sim)
  ∧ (relayOutOn sim pr.1 = false →
     ∃ sim', calculatePhysics samples sim = Some sim'
       ∧ outgoing sim' pr.1 = false
       ∧ mismatch (published now sim') pr = false
       ∧ recovering (published now sim') pr = false
       ∧ ∀ c now', poleStates c = published now sim' → segmentId pr ∈ isolated c →
                   gridRestoring c = false → segmentId pr ∈ isolated (runEngine now' c).1).
Proof.
  intros Hwf Hpr. destruct (upstream_in_chain pr Hpr) as (H1 & H2 & Hne). split.
  - destruct (Hwf pr.1 H1) as [[pole Hpole] _].
    unfold executeCommands. rewrite Hpole. cbn [mbind option_bind].
    eexists. split; [done|]. split; [|split; [|done]].
    + intros p Hp. cbn [poles readings set_poles]. split; [|by apply Hwf].
      destruct (decide (p = pr.1)) as [->|Hp']; [rewrite lookup_insert_eq|rewrite lookup_insert_ne by done];
        [eauto|by apply Hwf].
    + unfold relayOutOn. cbn [poles set_poles]. rewrite lookup_insert_eq. done.
  - intros Hopen.
    destruct (physics_closed_form samples sim Hwf)
      as (sim' & Hrun & _ & _ & Hwf' & _ & _ & _ & Hread).
    destruct (flow_equations samples sim Hwf) as (sim3 & Hrun3 & _ & _ & _ & _ & Hflow).
    rewrite Hrun in Hrun3. injection Hrun3 as <-.
    destruct (Hflow pr Hpr) as (Ho & _). rewrite Hopen, andb_false_r in Ho.
    destruct (published_conditions now sim' pr Hwf' Hpr Hread) as (Hm & Hr & _).
    rewrite Ho in Hm, Hr. exists sim'. split; [done|]. split; [done|]. split; [done|].
    split; [done|]. intros c now' Hstore Hin Hgrid.
    apply runEngine_keeps_isolated; try done. by rewrite Hstore.
Qed.

(** X30. After simulateRecovery (with no N/A outgoing relay on poles 1 to 3) a
    pass gives every pole incoming current and state NORMAL, poles 1 to 3
    outgoing current, and the published snapshots show no mismatch. *)
Theorem repair_restores_power (samples : string → Q * Q) (now : Z) (sim : Sim) :
  wellFormed sim →
  (∀ p pole, p ∈ ["Pole1"; "Pole2"; "Pole3"] → poles sim !! p = Some pole →
             relayOut pole ≠ "N/A") →
  ∃ sim', calculatePhysics samples (simulateRecovery sim) = Some sim'
    ∧ (∀ p, p ∈ POLE_ORDER → incoming sim' p = true ∧ reported sim' p = Some "NORMAL")
    ∧ (∀ pr, pr ∈ adjacentPairs POLE_ORDER →
             outgoing sim' pr.1 = true ∧ mismatch (published now sim') pr = false).
Proof.
  intros Hwf Hrelay.
  assert (wellFormed (simulateRecovery sim)) as Hwf1.
  { intros p Hp. destruct (Hwf p Hp) as [[pole Hpole] Hr]. split; [|done].
    unfold simulateRecovery. cbn [poles set_activeFault set_poles]. rewrite lookup_fmap, Hpole.
    by eexists. }
  assert (gridPower (physics (simulateRecovery sim)) = true) as Hgrid by done.
  assert (∀ p, p ∈ POLE_ORDER → relayInOn (simulateRecovery sim) p = true) as Hin.
  { intros p Hp. destruct (Hwf p Hp) as [[pole Hpole] _]. unfold relayInOn, simulateRecovery.
    cbn [poles set_activeFault set_poles]. by rewrite lookup_fmap, Hpole. }
  assert (∀ p, p ∈ ["Pole1"; "Pole2"; "Pole3"] → relayOutOn (simulateRecovery sim) p = true)
    as Hout.
  { intros p Hp. destruct (Hwf p) as [[pole Hpole] _].
    { repeat (apply elem_of_cons in Hp as [->|Hp]; [compute_done|]). by apply elem_of_nil in Hp. }
    unfold relayOutOn, simulateRecovery. cbn [poles set_activeFault set_poles].
    rewrite lookup_fmap, Hpole. cbn.
    by rewrite (bool_decide_eq_false_2 (relayOut pole = "N/A")) by by eapply Hrelay. }
  assert (∀ w, w ∈ ["Pole1-Pole2"; "Pole2-Pole3"; "Pole3-Pole4"] →
               isCut (simulateRecovery sim) w = false) as Hcut.
  { intros w Hw. unfold isCut, simulateRecovery. cbn [physics wireCuts set_activeFault set_poles set_physics].
    repeat (apply elem_of_cons in Hw as [->|Hw]; [by lookups|]). by apply elem_of_nil in Hw. }
  destruct (physics_closed_form samples _ Hwf1)
    as (sim' & Hrun & _ & _ & Hwf' & (Hi1 & Hi2 & Hi3 & Hi4) & (Ho1 & Ho2 & Ho3)
        & (Hs1 & Hs2 & Hs3 & Hs4) & Hread).
  repeat first
    [ rewrite Hgrid in Hi1, Hi2, Hi3, Hi4, Ho1, Ho2, Ho3, Hs1, Hs2, Hs3, Hs4 |- *
    | rewrite Hin in * by compute_done
    | rewrite Hout in * by compute_done
    | rewrite Hcut in * by compute_done ].
  exists sim'. split; [done|]. split.
  - intros p Hp.
    repeat (apply elem_of_cons in Hp as [->|Hp]); [| | | |by apply elem_of_nil in Hp]; done.
  - intros pr Hpr.
    destruct (published_conditions now sim' pr Hwf' Hpr Hread) as (-> & _).
    rewrite adjacentPairs_POLE_ORDER in Hpr.
    repeat (apply elem_of_cons in Hpr as [->|Hpr]); [| | |by apply elem_of_nil in Hpr];
      cbn [fst snd]; rewrite ?Ho1, ?Ho2, ?Ho3, ?Hi2, ?Hi3, ?Hi4; done.
Qed.

End SimulatorFacts.

(** ** Closed examples of the further properties *)

Lemma isolation_persists_witness :
  "Pole1-Pole2" ∈ isolated (runEngine 2000 MoreSamples.isolated12).1.
Proof.
  apply (isolation_persists 2000 MoreSamples.isolated12 ("Pole1", "Pole2"));
    [compute_done | compute_done | reflexivity | reflexivity].
Defined.

Lemma engine_needs_adjacent_snapshots_witness :
  runEngine 2000 MoreSamples.lonePole3 = (MoreSamples.lonePole3, false).
Proof.
  apply engine_needs_adjacent_snapshots; [reflexivity | reflexivity |].
  intros pr Hpr. rewrite adjacentPairs_POLE_ORDER in Hpr.
  repeat (apply elem_of_cons in Hpr as [->|Hpr]); [| | |by apply elem_of_nil in Hpr].
  - by left.
  - by left.
  - by right.
Defined.

Lemma grid_restored_clears_isolation_witness :
  isolated MoreSamples.gridBack = ["Pole2-Pole3"]
  ∧ status (systemState (runEngine 2000 MoreSamples.gridBack).1) = NORMAL
  ∧ isolated (runEngine 2000 MoreSamples.gridBack).1 = []
  ∧ pendingCommands (runEngine 2000 MoreSamples.gridBack).1 = pendingCommands MoreSamples.gridBack.
Proof.
  split; [reflexivity|].
  destruct (grid_restored_clears_isolation 2000 MoreSamples.gridBack eq_refl)
    as (Hs & Hi & _ & Hq & _).
  exact (conj Hs (conj Hi Hq)).
Defined.

Lemma fresh_pole_survives_sweep_witness :
  poleStates (stalenessCheck 16000 MoreSamples.seenAt1000) !! "Pole2"
  = Some (Samples.snapshot "HIGH" "HIGH").
Proof.
  destruct (fresh_pole_survives_sweep 16000 MoreSamples.seenAt1000 "Pole2") as (Hs & _).
  - compute_done.
  - split; vm_compute; [reflexivity | discriminate].
  - rewrite Hs. reflexivity.
Defined.

Lemma updatePole_stores_witness :
  let c' := updatePole 1000 "Pole2" (Samples.snapshot "HIGH" "HIGH") (newSystem real) in
  poleStates c' !! "Pole2" = Some (Samples.snapshot "HIGH" "HIGH")
  ∧ lastUpdateTime c' !! "Pole2" = Some 1000
  ∧ poleStates c' !! "Pole1" = None.
Proof.
  cbv zeta.
  destruct (updatePole_stores 1000 "Pole2" (Samples.snapshot "HIGH" "HIGH") (newSystem real))
    as (Hs & Ht & Hother); [discriminate|].
  destruct (Hother "Pole1") as [Hp _]; [discriminate|].
  split; [exact Hs|]. split; [exact Ht|]. rewrite Hp. reflexivity.
Defined.

Lemma queue_round_trip_witness :
  let command := (JStr "DISABLE_OUTGOING_RELAY", JStr "Manual command") in
  let queued := queueCommand 1000 "Pole2" command (newSystem real) in
  let fetched := getCommands "Pole2" queued in
  fetched.2 = [mkCommand (JStr "DISABLE_OUTGOING_RELAY") (JStr "Manual command") 1000 "PENDING"]
  ∧ (getCommands "Pole2" fetched.1).2 = [].
Proof.
  cbv zeta.
  destruct (queue_round_trip 1000 "Pole2"
              (JStr "DISABLE_OUTGOING_RELAY", JStr "Manual command") (newSystem real))
    as (Hfetched & Hagain & _); [compute_done|].
  split; [exact Hfetched | exact Hagain].
Defined.

Lemma stray_pole_unreachable_witness :
  (getState false "Pole9" false (RouteSamples.fresh REAL)).2 = RError 400 "Invalid poleId"
  ∧ (getCommandsRoute false "Pole9" false (RouteSamples.fresh REAL)).2
    = RError 400 "Invalid poleId".
Proof.
  destruct (stray_pole_unreachable false false "Pole9" (RouteSamples.fresh REAL))
    as (Hs & Hc & _); [compute_done|].
  exact (conj Hs Hc).
Defined.

Lemma command_delivered_once_witness :
  let posted := postCommand (H := ExampleHost.host) false 1000 MoreSamples.relayCommandBody
                  (RouteSamples.fresh REAL) in
  let polled := getCommandsRoute false "Pole2" false posted.1 in
  polled.2 = RCommands "Pole2"
               [mkCommand (JStr "DISABLE_OUTGOING_RELAY") (JStr "Manual command") 1000 "PENDING"]
  ∧ (getCommandsRoute false "Pole2" false polled.1).2 = RCommands "Pole2" [].
Proof.
  cbv zeta.
  destruct (command_delivered_once (H := ExampleHost.host) false false false 1000
              MoreSamples.relayCommandBody (RouteSamples.fresh REAL) "Pole2")
    as (_ & Hp & Ha); [reflexivity | reflexivity | reflexivity | compute_done | reflexivity |].
  exact (conj Hp Ha).
Defined.

Lemma postData_snapshot_never_feeds_witness :
  let r := postData (H := ExampleHost.host) ExampleHost.parseDecimal 1000 MoreSamples.telemetry
             (RouteSamples.fresh REAL) in
  r.2 = DataSuccess "REAL"
  ∧ mismatch (poleStates (RealSystem r.1)) ("Pole1", "Pole2") = false.
Proof.
  cbv zeta.
  destruct (postData_snapshot_never_feeds (H := ExampleHost.host) ExampleHost.parseDecimal 1000
              MoreSamples.telemetry (RouteSamples.fresh REAL) "Pole1")
    as (Hr & _ & _ & Hm); [reflexivity | reflexivity | reflexivity | compute_done |].
  exact (conj Hr (proj1 (Hm "Pole2"))).
Defined.

Section NodeExamples.

Import Node NodeRun NodeCloud NodeSamples.

Lemma incoming_relay_stays_off_witness :
  currentState (fold_left (run 1) [Local (Tick 3000 powered); Local (Tick 3100 powered)]
                  MoreSamples.darkBoot) = STATE_NORMAL
  ∧ relayInEnabled (fold_left (run 1)
                      [Local (Tick 3000 powered); Local (Tick 3100 powered);
                       Local (Poll 200 enableBody 4000)] MoreSamples.darkBoot) = false.
Proof.
  split; [reflexivity|].
  apply (incoming_relay_stays_off 1). reflexivity.
Defined.

Lemma cloud_offline_no_upstream_fault_witness :
  currentState (fold_left (controlTick 2) [(1000, unpowered); (2000, unpowered)]
                  MoreSamples.fedFromUpstream) = STATE_FAULT_UPSTREAM
  ∧ currentState (fold_left (controlTick 2) [(1000, unpowered); (2000, unpowered)]
                    (pollUpstreamState 2 503 "" MoreSamples.fedFromUpstream)) = STATE_NORMAL.
Proof.
  split; [reflexivity|].
  apply (cloud_offline_no_upstream_fault 2 503 "" MoreSamples.fedFromUpstream
           [(1000, unpowered); (2000, unpowered)]); [lia | lia | reflexivity].
Defined.

Lemma overvoltage_trips_relays_witness :
  let g' := controlTick 2 booted (1000, MoreSamples.overvoltage) in
  currentState g' = STATE_NORMAL ∧ faultFlag g' = true ∧ buzzer g' = true
  ∧ relayInEnabled g' = false ∧ relayOutEnabled g' = false.
Proof.
  cbv zeta.
  destruct (overvoltage_trips_relays 2 booted 1000 MoreSamples.overvoltage (300 # 1)%Q (1 # 1)%Q)
    as (Hs & Hf & Hb & Hr); [reflexivity | reflexivity | reflexivity | reflexivity | reflexivity |].
  destruct Hr as [Hin Hout]; [lia|].
  exact (conj Hs (conj Hf (conj Hb (conj Hin Hout)))).
Defined.

Lemma disable_wins_the_poll_witness :
  contains "ENABLE_OUTGOING_RELAY" MoreSamples.bothCommands = true
  ∧ currentState (pollCommands 2 200 MoreSamples.bothCommands 5000 booted) = STATE_FAULT_DOWNSTREAM
  ∧ relayOutEnabled (pollCommands 2 200 MoreSamples.bothCommands 5000 booted) = false.
Proof.
  split; [reflexivity|].
  destruct (disable_wins_the_poll 2 MoreSamples.bothCommands 5000 booted)
    as (Hs & Hr & _); [reflexivity | reflexivity |].
  exact (conj Hs Hr).
Defined.

Lemma node_recovery_interval_witness :
  currentState (controlTick 2 MoreSamples.recovering2s (3999, powered)) = STATE_RECOVERY
  ∧ currentState (controlTick 2 MoreSamples.recovering2s (4000, powered)) = STATE_NORMAL
  ∧ recoveryStart (controlTick 2 MoreSamples.recovering2s (3000, unpowered)) = 0.
Proof.
  destruct (node_recovery_interval 2 MoreSamples.recovering2s 3999 powered) as [Hwait _];
    [reflexivity | vm_compute; split; [discriminate | reflexivity] |].
  destruct (node_recovery_interval 2 MoreSamples.recovering2s 4000 powered) as [Hdone _];
    [reflexivity | vm_compute; split; [discriminate | reflexivity] |].
  destruct (node_recovery_interval 2 MoreSamples.recovering2s 3000 unpowered) as [Hbreak _];
    [reflexivity | vm_compute; split; [discriminate | reflexivity] |].
  exact (conj (proj1 (Hwait eq_refl)) (conj (proj1 (Hdone eq_refl))
                (proj1 (proj2 (Hbreak eq_refl))))).
Defined.

Lemma firmware_publish_conditions_witness :
  faultCondition
    (stateData (H := ExampleHost.host) 2000 (publishBody 2 (λ q, q) MoreSamples.dark))
    (stateData (H := ExampleHost.host) 1000 (publishBody 1 (λ q, q) booted)) = true.
Proof.
  destruct (firmware_publish_conditions (H := ExampleHost.host) (λ q, q) 1 booted
              MoreSamples.dark 1000 2000) as (Hf & _); [lia|].
  exact Hf.
Defined.

End NodeExamples.

Section SimulatorExamples.

Import Simulator SimulatorTerms.

Lemma wellFormed_initial : wellFormed initial.
Proof.
  intros p Hp.
  repeat (apply elem_of_cons in Hp as [->|Hp]; [split; eexists; reflexivity|]).
  by apply elem_of_nil in Hp.
Qed.

Lemma wellFormed_cutWire : wellFormed MoreSamples.cutWire.
Proof. exact wellFormed_initial. Qed.

Lemma cutPass_run :
  calculatePhysics MoreSamples.steady MoreSamples.cutWire = Some MoreSamples.cutPass.
Proof. reflexivity. Qed.

Lemma power_flow_witness :
  ∃ sim', calculatePhysics MoreSamples.steady initial = Some sim' ∧ wellFormed sim'
          ∧ incoming sim' "Pole1" = true.
Proof.
  destruct (power_flow MoreSamples.steady initial wellFormed_initial)
    as (sim' & Hrun & Hwf & _ & _ & Hin & _).
  exists sim'. exact (conj Hrun (conj Hwf Hin)).
Defined.

Lemma reported_states_witness :
  reported MoreSamples.cutPass "Pole1" = Some "NORMAL"
  ∧ reported MoreSamples.cutPass "Pole2" = Some "FAULT_UPSTREAM".
Proof.
  destruct (reported_states MoreSamples.steady MoreSamples.cutWire
              MoreSamples.cutPass wellFormed_cutWire cutPass_run) as [Hfirst Hlater].
  split; [exact Hfirst|].
  exact (Hlater ("Pole1", "Pole2") ltac:(compute_done)).
Defined.

Lemma one_fault_at_a_time_witness :
  let c := set_poleStates (published (H := ExampleHost.host) 1000 MoreSamples.cutPass)
             (newSystem sim) in
  mismatch (poleStates c) ("Pole1", "Pole2") = true
  ∧ "Pole1-Pole2" ∈ isolated (runEngine 2000 c).1
  ∧ faultLocation (systemState (runEngine 2000 c).1) = Some "Pole1-Pole2"
  ∧ queueOf (runEngine 2000 c).1 "Pole1" = [disableCommand ("Pole1", "Pole2") 2000].
Proof.
  cbv zeta. split; [reflexivity|].
  destruct (one_fault_at_a_time (H := ExampleHost.host) MoreSamples.steady 1000
              MoreSamples.cutWire MoreSamples.cutPass wellFormed_cutWire cutPass_run)
    as (_ & _ & _ & _ & Hraise).
  destruct (Hraise (set_poleStates (published (H := ExampleHost.host) 1000 MoreSamples.cutPass)
                      (newSystem sim)) 2000 ("Pole1", "Pole2"))
    as (Hin & _ & Hloc & Hq);
    [compute_done | reflexivity | reflexivity | reflexivity | compute_done |].
  exact (conj Hin (conj Hloc Hq)).
Defined.

Lemma open_relay_keeps_segment_isolated_witness :
  ∃ sim1, executeCommands "Pole1" [disableCommand ("Pole1", "Pole2") 2000] MoreSamples.cutWire
          = Some sim1
          ∧ relayOutOn sim1 "Pole1" = false.
Proof.
  destruct (open_relay_keeps_segment_isolated (H := ExampleHost.host) MoreSamples.steady 1000 2000
              MoreSamples.cutWire ("Pole1", "Pole2") wellFormed_cutWire ltac:(compute_done))
    as [(sim1 & Hrun & _ & Hoff & _) _].
  exists sim1. exact (conj Hrun Hoff).
Defined.

Lemma repair_restores_power_witness :
  isCut MoreSamples.cutWire "Pole1-Pole2" = true
  ∧ ∃ sim', calculatePhysics MoreSamples.steady (simulateRecovery MoreSamples.cutWire) = Some sim'
            ∧ incoming sim' "Pole4" = true.
Proof.
  split; [reflexivity|].
  destruct (repair_restores_power (H := ExampleHost.host) MoreSamples.steady 1000
              MoreSamples.cutWire wellFormed_cutWire) as (sim' & Hrun & Hall & _).
  - intros p pole Hp Hpole.
    repeat (apply elem_of_cons in Hp as [->|Hp];
            [vm_compute in Hpole; injection Hpole as <-; discriminate|]).
    by apply elem_of_nil in Hp.
  - exists sim'. split; [exact Hrun|]. exact (proj1 (Hall "Pole4" ltac:(compute_done))).
Defined.

End SimulatorExamples.

